(** * SecureWatch event ledger: the sw-log edge function, the ledger tables
      and their helper views, embedded and verified.

    Sources embedded here:
    - supabase/functions/sw-log/index.ts                     (module [SwLog])
    - supabase/migrations/20240301000001_create_sw_event_log.sql   (modules [Pg], [Ledger])
    - supabase/migrations/20240301000002_create_sw_event_artifacts.sql ([Ledger])
    - supabase/migrations/20240301000003_sw_event_log_helpers.sql
                                       (modules [Helpers], [RecentErrors])
    - tests/e2e/run-tests.js                   (modules [RunTests], [AgentTests])
    - the scan route, [export async function POST]        (module [ScanRoute])
    The Python debug tooling (replay_runner.py, contract_tests.py) is only
    described by the README; modules [Replay] and [Contract] model it. *)

From Stdlib Require Import List ZArith NArith QArith Qround Bool String Ascii Lia.
From Stdlib Require Import Permutation Sorted.
Import ListNotations.

Set Implicit Arguments.
Set Warnings "-register-all".
Close Scope Q_scope.
Open Scope string_scope.
Open Scope list_scope.

(* ====================================================================== *)
(** ** JavaScript values as the edge function sees them *)
(* ====================================================================== *)

Module JS.

(** A JavaScript string is a sequence of UTF-16 code units. *)
Definition code_unit := N.
Definition jsstring := list code_unit.

(** String literals of the source, written as Rocq strings. *)
Definition lit (s : string) : jsstring :=
  map N_of_ascii (list_ascii_of_string s).

Fixpoint str_eqb (a b : jsstring) : bool :=
  match a, b with
  | [], [] => true
  | x :: a', y :: b' => N.eqb x y && str_eqb a' b'
  | _, _ => false
  end.

(** ECMAScript WhiteSpace and LineTerminator code points, the set that
    [String.prototype.trim] strips. *)
Definition is_white_space (c : code_unit) : bool :=
  existsb (N.eqb c)
    [9; 10; 11; 12; 13; 32; 160; 5760; 8232; 8233; 8239; 8287; 12288; 65279]%N
  || (N.leb 8192 c && N.leb c 8202).

Fixpoint trimStart (s : jsstring) : jsstring :=
  match s with
  | [] => []
  | c :: r => if is_white_space c then trimStart r else s
  end.

Definition trimEnd (s : jsstring) : jsstring := rev (trimStart (rev s)).

Definition trim (s : jsstring) : jsstring := trimEnd (trimStart s).

(** [String.prototype.toLowerCase] on the ASCII range.  The edge function
    applies it only to a string that passed [UUID_RE], which holds ASCII
    code units only; code units outside A-Z are left as they are. *)
Definition lower_unit (c : code_unit) : code_unit :=
  if N.leb 65 c && N.leb c 90 then (c + 32)%N else c.

Definition toLowerCase (s : jsstring) : jsstring := map lower_unit s.

(** Values produced by [req.json()].  [JNum q] is a finite number, the
    rational value of the double the literal was parsed to.  [JInf] is the
    number a literal too large for a double is parsed to, [Infinity] or
    (negative) [-Infinity]: it is a number to [typeof] and to [Math.round],
    and [JSON.stringify] writes it [null], so it never reaches a jsonb
    column.  [JObj l] lists the properties of an object, each key once. *)
Inductive JSON : Type :=
| JNull
| JBool (b : bool)
| JNum (q : Q)
| JInf (negative : bool)
| JStr (s : jsstring)
| JArr (l : list JSON)
| JObj (l : list (jsstring * JSON)).

(** A JavaScript value read from a property: [None] is [undefined]. *)
Definition value := option JSON.

Fixpoint assoc (k : jsstring) (l : list (jsstring * JSON)) : value :=
  match l with
  | [] => None
  | (k', v) :: r => if str_eqb k k' then Some v else assoc k r
  end.

(** ToBoolean. *)
Definition truthy (v : value) : bool :=
  match v with
  | None => false
  | Some JNull => false
  | Some (JBool b) => b
  | Some (JNum q) => negb (Qeq_bool q 0%Q)
  | Some (JInf _) => true
  | Some (JStr s) => match s with [] => false | _ => true end
  | Some (JArr _) => true
  | Some (JObj _) => true
  end.

Inductive type_tag := t_undefined | t_object | t_boolean | t_number | t_string.

Definition typeof (v : value) : type_tag :=
  match v with
  | None => t_undefined
  | Some JNull => t_object
  | Some (JBool _) => t_boolean
  | Some (JNum _) => t_number
  | Some (JInf _) => t_number
  | Some (JStr _) => t_string
  | Some (JArr _) => t_object
  | Some (JObj _) => t_object
  end.

Definition type_tag_eqb (a b : type_tag) : bool :=
  match a, b with
  | t_undefined, t_undefined | t_object, t_object | t_boolean, t_boolean
  | t_number, t_number | t_string, t_string => true
  | _, _ => false
  end.

(** [a ?? b] with [b = null]. *)
Definition nullish_or_null (v : value) : JSON :=
  match v with
  | None => JNull
  | Some JNull => JNull
  | Some x => x
  end.

(** [Math.round] of a finite number: the integer closest to [q], ties
    towards +infinity.  ([Math.round] of an infinity is that infinity.) *)
Definition Math_round (q : Q) : Z := Qfloor (q + (1 # 2))%Q.

(** [JSON.parse(JSON.stringify(v))]: a value as the receiver of a request
    or of a response reads it.  An infinite number is written [null], at
    any depth; every other value of [req.json()] is written as it is. *)
Fixpoint wire (v : JSON) : JSON :=
  match v with
  | JInf _ => JNull
  | JArr l => JArr (map wire l)
  | JObj l => JObj (map (fun p => (fst p, wire (snd p))) l)
  | _ => v
  end.

(** No infinite number occurs in the value. *)
Fixpoint finite (v : JSON) : bool :=
  match v with
  | JInf _ => false
  | JArr l => forallb finite l
  | JObj l => forallb (fun p => finite (snd p)) l
  | _ => true
  end.

(** *** The regular expressions the source uses

    Only the shape of [UUID_RE] is needed: an anchored sequence of terms,
    each a character class (or a single character) repeated a fixed number
    of times, with the [i] flag. *)
Inductive class_atom :=
| ClassChar (c : code_unit)
| ClassRange (lo hi : code_unit).

Record term := Term { atoms : list class_atom; count : nat }.

Record regexp := RegExp { pattern : list term; ignoreCase : bool }.

Definition members (a : class_atom) : list code_unit :=
  match a with
  | ClassChar c => [c]
  | ClassRange lo hi =>
      map (fun i => (lo + N.of_nat i)%N) (seq 0 (N.to_nat (hi + 1 - lo)))
  end.

(** Canonicalize of the specification, without the [u] flag: a code unit is
    compared through its upper-case form.  For a code unit of 128 and
    above the upper-case form is never an ASCII one; the model keeps the
    code unit itself there, which compares the same against ASCII. *)
Definition canonicalize (ic : bool) (c : code_unit) : code_unit :=
  if ic && N.leb 97 c && N.leb c 122 then (c - 32)%N else c.

Definition char_matches (ic : bool) (cls : list class_atom) (c : code_unit) : bool :=
  existsb (fun a => N.eqb (canonicalize ic a) (canonicalize ic c))
          (flat_map members cls).

Fixpoint match_term (ic : bool) (cls : list class_atom) (n : nat) (s : jsstring)
  : option jsstring :=
  match n with
  | O => Some s
  | S n' =>
      match s with
      | [] => None
      | c :: r => if char_matches ic cls c then match_term ic cls n' r else None
      end
  end.

(** [^ t1 t2 ... $]: the terms in sequence, then the end of the input. *)
Fixpoint match_terms (ic : bool) (ts : list term) (s : jsstring) : bool :=
  match ts with
  | [] => match s with [] => true | _ => false end
  | t :: ts' =>
      match match_term ic (atoms t) (count t) s with
      | Some r => match_terms ic ts' r
      | None => false
      end
  end.

Definition test (re : regexp) (s : jsstring) : bool :=
  match_terms (ignoreCase re) (pattern re) s.

End JS.

(* ====================================================================== *)
(** ** The PostgreSQL features the migrations rely on *)
(* ====================================================================== *)

Module Pg.
Import JS.

(** *** Errors raised by the database, with their SQLSTATE *)
Record pg_error := PgError { message : string; code : string }.

Definition unique_violation := PgError "duplicate key value violates unique constraint" "23505".
Definition numeric_out_of_range := PgError "value out of range for type integer" "22003".
Definition invalid_text_representation := PgError "invalid input syntax for type uuid" "22P02".
Definition foreign_key_violation := PgError "insert or update violates foreign key constraint" "23503".
Definition insufficient_privilege := PgError "new row violates row-level security policy" "42501".
Definition permission_denied := PgError "permission denied for table" "42501".

(** *** Column types *)

(** A [UUID] value, held as its canonical output text (32 lower-case
    hexadecimal digits in groups of 8-4-4-4-12). *)
Definition uuid := jsstring.

Definition hex_class : list class_atom := [ClassRange 48 57; ClassRange 97 102]%N.
Definition dash : term := Term [ClassChar 45%N] 1.

(** The canonical input form of a uuid; input is case-insensitive.  The
    other input forms PostgreSQL accepts (braces, no hyphens) are not
    modelled: [uuid_in] answers [None] for them. *)
Definition uuid_text : regexp :=
  RegExp [Term hex_class 8; dash; Term hex_class 4; dash; Term hex_class 4; dash;
          Term hex_class 4; dash; Term hex_class 12] true.

Definition uuid_in (s : jsstring) : option uuid :=
  if test uuid_text s then Some (toLowerCase s) else None.

(** Comparison of uuid values (the order of [ORDER BY] on a uuid column):
    on canonical texts, the lexicographic order of the code units. *)
Fixpoint uuid_compare (a b : uuid) : comparison :=
  match a, b with
  | [], [] => Eq
  | [], _ :: _ => Lt
  | _ :: _, [] => Gt
  | x :: a', y :: b' =>
      match N.compare x y with
      | Eq => uuid_compare a' b'
      | c => c
      end
  end.

Definition uuid_eqb (a b : uuid) : bool := str_eqb a b.

(** [INTEGER] is a signed 32-bit integer. *)
Definition int4_ok (z : Z) : bool := (Z.leb (- 2147483648) z && Z.leb z 2147483647)%Z.

(** [TIMESTAMPTZ]: microseconds since the epoch. *)
Definition timestamptz := Z.

(** [(n || ' minutes')::INTERVAL], in microseconds. *)
Definition minutes_interval (n : Z) : Z := (n * 60000000)%Z.

(** *** Three-valued logic: [None] is SQL NULL *)
Definition sql_bool := option bool.

Definition sql_or (a b : sql_bool) : sql_bool :=
  match a, b with
  | Some true, _ | _, Some true => Some true
  | Some false, Some false => Some false
  | _, _ => None
  end.

Definition sql_and (a b : sql_bool) : sql_bool :=
  match a, b with
  | Some false, _ | _, Some false => Some false
  | Some true, Some true => Some true
  | _, _ => None
  end.

(** A row passes a [WHERE] or a policy qualification only when it is true. *)
Definition is_true (b : sql_bool) : bool :=
  match b with Some true => true | _ => false end.

(** *** jsonb operators *)

(** [j -> k]: the field [k] of a jsonb object; NULL otherwise. *)
Definition jsonb_field (j : value) (k : jsstring) : value :=
  match j with
  | Some (JObj l) => assoc k l
  | _ => None
  end.

(** [(j ->> k) = word] for a bare word such as [admin].  [->>] gives NULL
    for a missing field and for JSON null, the string itself for a JSON
    string, and the JSON text for any other value; that text (a number,
    true, false, an array or an object) is not a bare word other than
    true and false, which the migrations never compare with. *)
Definition field_text_is (j : value) (k word : jsstring) : sql_bool :=
  match jsonb_field j k with
  | None => None
  | Some JNull => None
  | Some (JStr s) => Some (str_eqb s word)
  | Some _ => Some false
  end.

(** *** Roles and sessions *)

(** The database roles of a Supabase project that reach the API. *)
Inductive db_role := anon | authenticated | service_role.

Definition role_eqb (a b : db_role) : bool :=
  match a, b with
  | anon, anon | authenticated, authenticated | service_role, service_role => true
  | _, _ => false
  end.

(** "The service role bypasses RLS by default in Supabase"
    (migration 20240301000001, policy 1). *)
Definition bypassrls (r : db_role) : bool :=
  match r with service_role => true | _ => false end.

(** A session: its role, and the claims [auth.jwt()] returns (NULL when the
    request carries no token). *)
Record session := Session { role : db_role; jwt : value }.

(** *** Statements, rules and row-level security on one table *)

Inductive command := SELECT | INSERT | UPDATE | DELETE.

Definition command_eqb (a b : command) : bool :=
  match a, b with
  | SELECT, SELECT | INSERT, INSERT | UPDATE, UPDATE | DELETE, DELETE => true
  | _, _ => false
  end.

(** [CREATE RULE name AS ON event TO table DO [INSTEAD] NOTHING].  Every
    rule of the migrations has the action NOTHING. *)
Record rule := Rule { rule_name : string; on_event : command; instead : bool }.

Section Table.
Variable row : Type.

Inductive statement :=
| Insert (r : row)
| Update (set : row -> row) (where_ : row -> bool)
| Delete (where_ : row -> bool).

Definition command_of (s : statement) : command :=
  match s with
  | Insert _ => INSERT
  | Update _ _ => UPDATE
  | Delete _ => DELETE
  end.

(** The rewriter: an unconditional INSTEAD rule on the statement's
    command replaces the statement by the rule's actions (here none). *)
Definition rewrite (rules : list rule) (s : statement) : list statement :=
  if existsb (fun r => command_eqb (on_event r) (command_of s) && instead r) rules
  then []
  else [s].

(** A policy: [FOR cmd TO roles USING (qual)] or [WITH CHECK (qual)]. *)
Record policy := Policy {
  policy_name : string;
  for_command : command;
  to_roles : list db_role;
  qual : session -> row -> sql_bool
}.

Record table := Table {
  rows : list row;                       (* in storage order *)
  rules : list rule;
  row_security : bool;                   (* ENABLE ROW LEVEL SECURITY *)
  policies : list policy;
  constraints : list row -> row -> option pg_error;
                                         (* checked on an inserted row *)
  acl : db_role -> command -> bool       (* GRANTed table privileges *)
}.

Definition with_rows (t : table) (rs : list row) : table :=
  Table rs (rules t) (row_security t) (policies t) (constraints t) (acl t).

(** Does row-level security let session [s] apply command [c] to row [r]?
    With row security enabled and no applicable policy, nothing passes. *)
Definition rls_passes (t : table) (s : session) (c : command) (r : row) : bool :=
  negb (row_security t)
  || bypassrls (role s)
  || existsb (fun p => command_eqb (for_command p) c
                       && existsb (role_eqb (role s)) (to_roles p)
                       && is_true (qual p s r))
             (policies t).

(** Execution of one statement the rewriter left in place. *)
Definition exec_plain (s : session) (st : statement) (t : table)
  : pg_error + table :=
  if negb (acl t (role s) (command_of st)) then inl permission_denied else
  match st with
  | Insert r =>
      if rls_passes t s INSERT r then
        match constraints t (rows t) r with
        | Some e => inl e
        | None => inr (with_rows t (rows t ++ [r]))
        end
      else inl insufficient_privilege
  | Update set w =>
      inr (with_rows t
             (map (fun r => if w r && rls_passes t s UPDATE r then set r else r)
                  (rows t)))
  | Delete w =>
      inr (with_rows t
             (filter (fun r => negb (w r && rls_passes t s DELETE r)) (rows t)))
  end.

Fixpoint exec_all (s : session) (sts : list statement) (t : table)
  : pg_error + table :=
  match sts with
  | [] => inr t
  | st :: rest =>
      match exec_plain s st t with
      | inl e => inl e
      | inr t' => exec_all s rest t'
      end
  end.

(** A statement as a client issues it: rewritten by the rules, then run. *)
Definition exec (s : session) (st : statement) (t : table) : pg_error + table :=
  exec_all s (rewrite (rules t) st) t.

(** A sequence of client statements; a failed statement leaves the table
    as it was and the sequence goes on. *)
Fixpoint exec_script (script : list (session * statement)) (t : table) : table :=
  match script with
  | [] => t
  | (s, st) :: rest =>
      match exec s st t with
      | inl _ => exec_script rest t
      | inr t' => exec_script rest t'
      end
  end.

(** [SELECT * FROM table]: the rows row-level security shows to the
    session, in storage order. *)
Definition select_all (s : session) (t : table) : pg_error + list row :=
  if negb (acl t (role s) SELECT) then inl permission_denied
  else inr (filter (rls_passes t s SELECT) (rows t)).

End Table.

(** *** ORDER BY

    SQL fixes the order of the result only up to the sort key: rows with
    equal keys come in an order the executor chooses.  [ordered_by] is
    that specification; [sort] is one executor (a stable insertion sort
    over the storage order). *)
Section OrderBy.
Variable A : Type.
Variable leb : A -> A -> bool.

Definition ordered_by (input result : list A) : Prop :=
  Permutation input result /\ StronglySorted (fun a b => leb a b = true) result.

Fixpoint insert_by (x : A) (l : list A) : list A :=
  match l with
  | [] => [x]
  | y :: r => if leb x y then x :: l else y :: insert_by x r
  end.

Fixpoint sort (l : list A) : list A :=
  match l with
  | [] => []
  | x :: r => insert_by x (sort r)
  end.
End OrderBy.

End Pg.

(* ====================================================================== *)
(** ** The two tables of the migrations *)
(* ====================================================================== *)

Module Ledger.
Import JS Pg.

(** A row of [public.sw_event_log].  The nullable TEXT and JSONB columns
    hold the JSON value the writer sent, [JNull] standing for NULL. *)
Record event := Event {
  id : uuid;
  trace_id : uuid;
  scan_id : JSON;
  client_id : JSON;
  source : jsstring;
  event_type : jsstring;
  event_name : JSON;
  status : jsstring;
  req : JSON;
  res : JSON;
  err : JSON;
  meta : JSON;
  duration_ms : option Z;
  created_at : timestamptz
}.

(** [sw_event_log_no_update], [sw_event_log_no_delete]. *)
Definition sw_event_log_rules : list rule :=
  [ Rule "sw_event_log_no_update" UPDATE true;
    Rule "sw_event_log_no_delete" DELETE true ].

(** [(auth.jwt() ->> 'role') = 'admin'
     OR (auth.jwt() -> 'app_metadata' ->> 'role') = 'admin']. *)
Definition admin_claim (s : session) : sql_bool :=
  sql_or (field_text_is (jwt s) (lit "role") (lit "admin"))
         (field_text_is (jsonb_field (jwt s) (lit "app_metadata")) (lit "role") (lit "admin")).

Definition service_role_insert (row : Type) : policy row :=
  Policy "service_role_insert" INSERT [service_role] (fun _ _ => Some true).

Definition admin_select (row : Type) : policy row :=
  Policy "admin_select" SELECT [authenticated] (fun s _ => admin_claim s).

(** PRIMARY KEY (id) and the range of the INTEGER column. *)
Definition sw_event_log_constraints (existing : list event) (e : event)
  : option pg_error :=
  match duration_ms e with
  | Some d => if int4_ok d then
                if existsb (fun x => uuid_eqb (id x) (id e)) existing
                then Some unique_violation else None
              else Some numeric_out_of_range
  | None => if existsb (fun x => uuid_eqb (id x) (id e)) existing
            then Some unique_violation else None
  end.

(** [public.sw_event_log] holding [rs], under the privileges [grants]. *)
Definition sw_event_log (grants : db_role -> command -> bool) (rs : list event)
  : table event :=
  Table rs sw_event_log_rules true
        [service_role_insert event; admin_select event]
        sw_event_log_constraints grants.

(** A row of [public.sw_event_artifacts]. *)
Record artifact := Artifact {
  artifact_id : uuid;
  event_id : uuid;
  artifact_trace_id : uuid;
  artifact_type : jsstring;
  content_type : JSON;
  storage_path : JSON;
  data : JSON;
  size_bytes : option Z;
  artifact_created_at : timestamptz
}.

Definition sw_event_artifacts_rules : list rule :=
  [ Rule "sw_event_artifacts_no_update" UPDATE true;
    Rule "sw_event_artifacts_no_delete" DELETE true ].

(** PRIMARY KEY (id), [event_id REFERENCES sw_event_log(id)] and the range
    of [size_bytes]. *)
Definition sw_event_artifacts_constraints (log : list event)
  (existing : list artifact) (a : artifact) : option pg_error :=
  if match size_bytes a with Some z => negb (int4_ok z) | None => false end
  then Some numeric_out_of_range
  else if existsb (fun x => uuid_eqb (artifact_id x) (artifact_id a)) existing
  then Some unique_violation
  else if existsb (fun e => uuid_eqb (id e) (event_id a)) log
  then None
  else Some foreign_key_violation.

Definition sw_event_artifacts (grants : db_role -> command -> bool)
  (log : list event) (rs : list artifact) : table artifact :=
  Table rs sw_event_artifacts_rules true
        [service_role_insert artifact; admin_select artifact]
        (sw_event_artifacts_constraints log) grants.

(** Reading one row back by its primary key. *)
Definition find_event (i : uuid) (rs : list event) : option event :=
  find (fun e => uuid_eqb (id e) i) rs.

Definition find_artifact (i : uuid) (rs : list artifact) : option artifact :=
  find (fun a => uuid_eqb (artifact_id a) i) rs.

End Ledger.

(* ====================================================================== *)
(** ** supabase/functions/sw-log/index.ts *)
(* ====================================================================== *)

Module SwLog.
Import JS Pg Ledger.

Definition REQUIRED_FIELDS : list jsstring :=
  [lit "trace_id"; lit "source"; lit "event_type"].

Definition VALID_STATUSES : list jsstring :=
  [lit "info"; lit "ok"; lit "error"].

(** [/^[0-9a-f]{8}-[0-9a-f]{4}-[0-9a-f]{4}-[0-9a-f]{4}-[0-9a-f]{12}$/i] *)
Definition UUID_RE : regexp :=
  RegExp [ Term [ClassRange 48 57; ClassRange 97 102]%N 8;  Term [ClassChar 45%N] 1;
           Term [ClassRange 48 57; ClassRange 97 102]%N 4;  Term [ClassChar 45%N] 1;
           Term [ClassRange 48 57; ClassRange 97 102]%N 4;  Term [ClassChar 45%N] 1;
           Term [ClassRange 48 57; ClassRange 97 102]%N 4;  Term [ClassChar 45%N] 1;
           Term [ClassRange 48 57; ClassRange 97 102]%N 12 ]
         true.

Record request := Request {
  method : jsstring;
  json : option JSON        (* the result of [req.json()]; [None]: it throws *)
}.

Record response := Response {
  status_code : Z;
  headers : list (string * string);
  payload : option JSON
}.

Definition jsonError (message : jsstring) (status : Z) : response :=
  Response status [("Content-Type", "application/json")]
           (Some (JObj [(lit "ok", JBool false); (lit "error", JStr message)])).

(** How a block of the handler ends: it falls through with a value, it
    returns a response, or it throws. *)
Inductive completion (A : Type) :=
| Normal (a : A)
| Return (r : response)
| Throw.
Arguments Normal {A} a.
Arguments Return {A} r.
Arguments Throw {A}.

Definition bind {A B} (c : completion A) (k : A -> completion B) : completion B :=
  match c with
  | Normal a => k a
  | Return r => Return r
  | Throw => Throw
  end.

Notation "x <- c ;; k" := (bind c (fun x => k))
  (at level 61, c at next level, right associativity).

(** [body[k]]: reading a property of [null] throws a TypeError; a missing
    property, and any of the handler's keys on a primitive or an array, is
    [undefined]. *)
Definition get (body : JSON) (k : jsstring) : completion value :=
  match body with
  | JNull => Throw
  | JObj l => Normal (assoc k l)
  | _ => Normal None
  end.

(** The string a value holds ([""] where the handler never looks). *)
Definition string_of (v : value) : jsstring :=
  match v with
  | Some (JStr s) => s
  | _ => []
  end.

(** [!body[field] || typeof body[field] !== "string" || !body[field].trim()] *)
Definition invalid_required (v : value) : bool :=
  negb (truthy v)
  || negb (type_tag_eqb (typeof v) t_string)
  || negb (truthy (Some (JStr (trim (string_of v))))).

(** The loop over [REQUIRED_FIELDS]. *)
Fixpoint validate_required (body : JSON) (fields : list jsstring) : completion unit :=
  match fields with
  | [] => Normal tt
  | field :: rest =>
      v <- get body field ;;
      if invalid_required v
      then Return (jsonError (lit "Missing or invalid required field: " ++ field) 400)
      else validate_required body rest
  end.

(** [body.status && VALID_STATUSES.includes(body.status) ? body.status : "info"] *)
Definition includes (l : list jsstring) (v : value) : bool :=
  match v with
  | Some (JStr s) => existsb (str_eqb s) l
  | _ => false
  end.

Definition normalize_status (v : value) : jsstring :=
  if truthy v && includes VALID_STATUSES v then string_of v else lit "info".

(** The object handed to [insert], as the request to the store carries it
    ([JSON.stringify] of the object: see [wire]). *)
Record row := Row {
  row_trace_id : jsstring;
  row_source : jsstring;
  row_event_type : jsstring;
  row_scan_id : JSON;
  row_client_id : JSON;
  row_event_name : JSON;
  row_status : jsstring;
  row_req : JSON;
  row_res : JSON;
  row_err : JSON;
  row_meta : JSON;
  row_duration_ms : option Z
}.

(** [typeof v === "number" ? Math.round(v) : null], as the request carries
    it: [Math.round] keeps an infinite number, which is written [null]. *)
Definition round_duration (v : value) : option Z :=
  match v with
  | Some (JNum q) => Some (Math_round q)
  | Some (JInf _) => None
  | _ => None
  end.

Definition build_row (body : JSON) : completion row :=
  trace_id <- get body (lit "trace_id") ;;
  source <- get body (lit "source") ;;
  event_type <- get body (lit "event_type") ;;
  scan_id <- get body (lit "scan_id") ;;
  client_id <- get body (lit "client_id") ;;
  event_name <- get body (lit "event_name") ;;
  status <- get body (lit "status") ;;
  req <- get body (lit "req") ;;
  res <- get body (lit "res") ;;
  err <- get body (lit "err") ;;
  meta <- get body (lit "meta") ;;
  duration_ms <- get body (lit "duration_ms") ;;
  Normal (Row (toLowerCase (string_of trace_id))
              (trim (string_of source))
              (trim (string_of event_type))
              (wire (nullish_or_null scan_id))
              (wire (nullish_or_null client_id))
              (wire (nullish_or_null event_name))
              (normalize_status status)
              (wire (nullish_or_null req))
              (wire (nullish_or_null res))
              (wire (nullish_or_null err))
              (wire (nullish_or_null meta))
              (round_duration duration_ms)).

(** What the handler reads from its surroundings in one invocation. *)
Record env := Env {
  SUPABASE_URL : option jsstring;
  SUPABASE_SERVICE_ROLE_KEY : option jsstring;
  gen_random_uuid : uuid;           (* the DEFAULT of column id *)
  now : timestamptz;                (* the DEFAULT of column created_at *)
  fault : option pg_error           (* the backing store is unavailable *)
}.

Definition unset (v : option jsstring) : bool :=
  match v with
  | None => true
  | Some [] => true
  | Some _ => false
  end.

(** [supabase.from("sw_event_log").insert(row).select("id").single()]
    with the service-role key. *)
Definition insert (e : env) (r : row) (t : table event)
  : pg_error + (event * table event) :=
  match fault e with
  | Some f => inl f
  | None =>
      match uuid_in (row_trace_id r) with
      | None => inl invalid_text_representation
      | Some tid =>
          let ev := Event (gen_random_uuid e) tid (row_scan_id r) (row_client_id r)
                          (row_source r) (row_event_type r) (row_event_name r)
                          (row_status r) (row_req r) (row_res r) (row_err r)
                          (row_meta r) (row_duration_ms r) (now e) in
          match exec (Session service_role None) (Insert ev) t with
          | inl err => inl err
          | inr t' => inr (ev, t')
          end
      end
  end.

Definition preflight : response :=
  Response 204
    [("Access-Control-Allow-Origin", "*");
     ("Access-Control-Allow-Methods", "POST, OPTIONS");
     ("Access-Control-Allow-Headers", "authorization, content-type, x-client-info, apikey")]
    None.

Definition insert_error (e : pg_error) : response :=
  Response 500 [("Content-Type", "application/json")]
    (Some (JObj [(lit "ok", JBool false);
                 (lit "error", JStr (lit (message e)));
                 (lit "code", JStr (lit (code e)))])).

Definition created (i : uuid) : response :=
  Response 201
    [("Content-Type", "application/json"); ("Access-Control-Allow-Origin", "*")]
    (Some (JObj [(lit "ok", JBool true); (lit "id", JStr i)])).

(** The handler given to [Deno.serve]: the completion of its body and the
    ledger table afterwards. *)
Definition handler (e : env) (rq : request) (t : table event)
  : completion unit * table event :=
  if str_eqb (method rq) (lit "OPTIONS") then (Return preflight, t)
  else if negb (str_eqb (method rq) (lit "POST"))
  then (Return (jsonError (lit "Method not allowed. Use POST.") 405), t)
  else
    match json rq with
    | None => (Return (jsonError (lit "Invalid JSON body.") 400), t)
    | Some body =>
        match
          (_ <- validate_required body REQUIRED_FIELDS ;;
           trace_id <- get body (lit "trace_id") ;;
           if negb (test UUID_RE (string_of trace_id))
           then Return (jsonError
                  (lit "trace_id must be a valid UUID (xxxxxxxx-xxxx-xxxx-xxxx-xxxxxxxxxxxx).")
                  400)
           else
             r <- build_row body ;;
             if unset (SUPABASE_URL e) || unset (SUPABASE_SERVICE_ROLE_KEY e)
             then Return (jsonError (lit "Server configuration error.") 500)
             else Normal r)
        with
        | Normal r =>
            match insert e r t with
            | inl err => (Return (insert_error err), t)
            | inr (ev, t') => (Return (created (id ev)), t')
            end
        | Return resp => (Return resp, t)
        | Throw => (Throw, t)
        end
    end.

End SwLog.

(* ====================================================================== *)
(** ** supabase/migrations/20240301000003_sw_event_log_helpers.sql *)
(* ====================================================================== *)

Module Helpers.
Import JS Pg Ledger.

(** *** View [v_trace_timeline] *)

Record timeline_row := TimelineRow {
  tl_trace_id : uuid;
  tl_event_id : uuid;
  tl_created_at : timestamptz;
  tl_source : jsstring;
  tl_event_type : jsstring;
  tl_event_name : JSON;
  tl_status : jsstring;
  tl_scan_id : JSON;
  tl_client_id : JSON;
  tl_duration_ms : option Z;
  tl_err : JSON;
  tl_meta : JSON
}.

(** The select list of the view. *)
Definition timeline_columns (l : event) : timeline_row :=
  TimelineRow (trace_id l) (id l) (created_at l) (source l) (event_type l)
              (event_name l) (status l) (scan_id l) (client_id l)
              (duration_ms l) (err l) (meta l).

(** [ORDER BY l.trace_id, l.created_at ASC] *)
Definition timeline_order (a b : timeline_row) : bool :=
  match uuid_compare (tl_trace_id a) (tl_trace_id b) with
  | Lt => true
  | Gt => false
  | Eq => Z.leb (tl_created_at a) (tl_created_at b)
  end.

(** The rows the view may return over the ledger rows [l]. *)
Definition v_trace_timeline (l : list event) (view : list timeline_row) : Prop :=
  ordered_by timeline_order (map timeline_columns l) view.

(** One evaluation of the view. *)
Definition v_trace_timeline_run (l : list event) : list timeline_row :=
  sort timeline_order (map timeline_columns l).

(** [SELECT * FROM v_trace_timeline WHERE trace_id = '<text>'] *)
Definition trace_timeline (l : list event) (text : jsstring)
  (result : list timeline_row) : Prop :=
  exists u view,
    uuid_in text = Some u /\
    v_trace_timeline l view /\
    result = filter (fun r => uuid_eqb (tl_trace_id r) u) view.

Definition trace_timeline_run (l : list event) (text : jsstring)
  : option (list timeline_row) :=
  match uuid_in text with
  | None => None
  | Some u => Some (filter (fun r => uuid_eqb (tl_trace_id r) u) (v_trace_timeline_run l))
  end.

(** *** Function [sw_event_log_errors_since(minutes INT DEFAULT 15)] *)

Record error_row := ErrorRow {
  er_trace_id : uuid;
  er_scan_id : JSON;
  er_client_id : JSON;
  er_source : jsstring;
  er_event_type : jsstring;
  er_event_name : JSON;
  er_err : JSON;
  er_meta : JSON;
  er_created_at : timestamptz
}.

Definition error_columns (l : event) : error_row :=
  ErrorRow (trace_id l) (scan_id l) (client_id l) (source l) (event_type l)
           (event_name l) (err l) (meta l) (created_at l).

(** How the caller passes [minutes]: left out, NULL, or an integer. *)
Inductive minutes_arg := Default | Null | Minutes (n : Z).

Definition minutes_value (a : minutes_arg) : option Z :=
  match a with
  | Default => Some 15%Z
  | Null => None
  | Minutes n => Some n
  end.

(** [l.status = 'error'
     AND l.created_at >= now() - (minutes || ' minutes')::INTERVAL] *)
Definition errors_since_where (clock : timestamptz) (minutes : option Z) (l : event)
  : sql_bool :=
  sql_and (Some (str_eqb (status l) (lit "error")))
          (match minutes with
           | None => None
           | Some n => Some (Z.leb (clock - minutes_interval n) (created_at l))
           end).

(** [ORDER BY l.created_at DESC] *)
Definition created_at_desc (a b : error_row) : bool :=
  Z.leb (er_created_at b) (er_created_at a).

(** The function is SECURITY DEFINER: it reads every row of the table,
    [l], whoever calls it.  [clock] is [now()]. *)
Definition sw_event_log_errors_since (clock : timestamptz) (l : list event)
  (minutes : minutes_arg) (result : list error_row) : Prop :=
  ordered_by created_at_desc
    (map error_columns
         (filter (fun e => is_true (errors_since_where clock (minutes_value minutes) e)) l))
    result.

Definition sw_event_log_errors_since_run (clock : timestamptz) (l : list event)
  (minutes : minutes_arg) : list error_row :=
  sort created_at_desc
    (map error_columns
         (filter (fun e => is_true (errors_since_where clock (minutes_value minutes) e)) l)).

End Helpers.

(* ====================================================================== *)
(** ** debug/replay_runner.py *)
(* ====================================================================== *)

Module Replay.
Import JS Pg Ledger Helpers.

(** Modelled from the spec: the two failures of the Replay Engine
    (section 4.5); replay_runner.py is not among the sources. *)
Inductive replay_error := NotFoundError | IncompleteTraceError.

(** Modelled from the spec: the order in which the replay runner, absent
    from the sources, reads the events of a trace, "the same ordering as
    4.3".  That ordering is the Timeline View's, and the view is among the
    sources: it is [timeline_order], the ORDER BY of [v_trace_timeline],
    which has no key after created_at. *)
Definition timeline_leb (a b : event) : bool :=
  timeline_order (timeline_columns a) (timeline_columns b).

(** Modelled from the spec: the replay runner's fetch of "the full
    Timeline for the trace" (replay_runner.py is not among the sources):
    the events of the trace in an order the view admits.  Events written
    at the same instant may come in either order. *)
Definition fetch_timeline (l : list event) (t : uuid) (tl : list event) : Prop :=
  ordered_by timeline_leb (filter (fun e => uuid_eqb (trace_id e) t) l) tl.


(** Modelled from the spec: an event "carries a non-null req payload". *)
Definition has_req (e : event) : bool :=
  match req e with JNull => false | _ => true end.

(** Modelled from the spec: the request re-issued to the workflow entry
    point, "the original root request's payload, with the original
    trace_id attached as an explicit field". *)
Record outbound := Outbound {
  target : jsstring;
  out_trace_id : uuid;
  out_payload : JSON
}.

(** Modelled from the spec: the outcome of one invocation, with the
    outbound calls it made. *)
Record replay_run := ReplayRun {
  result : replay_error + outbound;
  calls : list outbound            (* the outbound calls made, in order *)
}.

(** Modelled from the spec: the Replay Engine of section 4.5 on the
    timeline it fetched (replay_runner.py is not among the sources):
    NotFoundError without events, IncompleteTraceError without a req
    payload, else the earliest event with a req payload is re-issued under
    the same trace id, unless the run is a dry run. *)
Definition replay_timeline (tl : list event) (t : uuid) (entry_point : jsstring)
           (dry_run : bool) : replay_run :=
  match tl with
  | [] => ReplayRun (inl NotFoundError) []
  | _ =>
      match find has_req tl with
      | None => ReplayRun (inl IncompleteTraceError) []
      | Some root =>
          let o := Outbound entry_point t (req root) in
          ReplayRun (inr o) (if dry_run then [] else [o])
      end
  end.

(** Modelled from the spec: the runs of the Replay Engine over the ledger
    rows [l], one for each order in which the timeline may be fetched. *)
Definition replay (l : list event) (t : uuid) (entry_point : jsstring) (dry_run : bool)
           (run : replay_run) : Prop :=
  exists tl, fetch_timeline l t tl /\ run = replay_timeline tl t entry_point dry_run.


End Replay.

(* ====================================================================== *)
(** ** debug/contract_tests.py *)
(* ====================================================================== *)

Module Contract.
Import JS Pg Ledger.

(** Modelled from the spec: "each check returns an independent boolean
    plus a diagnostic message" (contract_tests.py is not among the
    sources). *)
Record check_result := CheckResult {
  check_no : nat;
  passed : bool;
  diagnostic : string
}.

(** Modelled from the spec: the parameters of a verification run. *)
Record config := Config {
  fixture_mode_expected : bool;
  fail_fast : bool;
  webhook_marker : jsstring       (* event type of a webhook-received marker *)
}.

Definition occurrences (p : event -> bool) (l : list event) : nat :=
  List.length (filter p l).

Definition has_type (ty : string) (e : event) : bool :=
  str_eqb (event_type e) (lit ty).

(** Modelled from the spec: a terminal event is one of type
    workflow.complete or workflow.error. *)
Definition is_terminal (e : event) : bool :=
  has_type "workflow.complete" e || has_type "workflow.error" e.

(** Modelled from the spec: an activity event is a tool.call, a
    tool.result or a webhook-received marker. *)
Definition is_activity (c : config) (e : event) : bool :=
  has_type "tool.call" e || has_type "tool.result" e
  || str_eqb (event_type e) (webhook_marker c).

Definition err_message_present (e : event) : bool :=
  match jsonb_field (Some (err e)) (lit "message") with
  | Some (JStr (_ :: _)) => true
  | _ => false
  end.

Definition json_str_eqb (a b : JSON) : bool :=
  match a, b with
  | JStr x, JStr y => str_eqb x y
  | _, _ => false
  end.

Definition scan_ids (l : list event) : list JSON :=
  filter (fun j => match j with JNull => false | _ => true end) (map scan_id l).

Definition all_same (l : list JSON) : bool :=
  match l with
  | [] => true
  | x :: r => forallb (json_str_eqb x) r
  end.

Fixpoint non_decreasing (l : list Z) : bool :=
  match l with
  | x :: ((y :: _) as r) => Z.leb x y && non_decreasing r
  | _ => true
  end.

Definition fixture_flag (e : event) : bool :=
  match jsonb_field (Some (meta e)) (lit "fixture_mode") with
  | Some (JBool true) => true
  | _ => false
  end.

Definition verdict (n : nat) (ok : bool) (failure : string) : check_result :=
  CheckResult n ok (if ok then "ok" else failure).

(** Modelled from the spec: the checks of section 4.6, one definition per
    numbered check (contract_tests.py is not among the sources).  [l] is
    the trace's events in storage order. *)
Definition check1 (l : list event) : check_result :=
  verdict 1 (negb (Nat.eqb (List.length l) 0)) "check 1: no event exists for the trace".

(** Modelled from the spec: check 2, exactly one workflow.start event. *)
Definition check2 (l : list event) : check_result :=
  verdict 2 (Nat.eqb (occurrences (has_type "workflow.start") l) 1)
          "check 2: not exactly one workflow.start event".

(** Modelled from the spec: check 3, at least one activity event. *)
Definition check3 (c : config) (l : list event) : check_result :=
  verdict 3 (negb (Nat.eqb (occurrences (is_activity c) l) 0))
          "check 3: no activity event (tool.call or tool.result)".

(** Modelled from the spec: check 4, "exactly one terminal Event exists
    (workflow.complete or workflow.error); zero or more-than-one is a
    failure". *)
Definition check4 (l : list event) : check_result :=
  verdict 4 (Nat.eqb (occurrences is_terminal l) 1)
          "check 4: not exactly one terminal event (workflow.complete or workflow.error)".

(** Modelled from the spec: check 5, every event with status error has a
    non-null, non-empty err.message. *)
Definition check5 (l : list event) : check_result :=
  verdict 5 (forallb (fun e => negb (str_eqb (status e) (lit "error")) || err_message_present e) l)
          "check 5: an event with status error lacks err.message".

(** Modelled from the spec: check 6, the non-null scan_id values agree. *)
Definition check6 (l : list event) : check_result :=
  verdict 6 (all_same (scan_ids l)) "check 6: conflicting scan_id values".

(** Modelled from the spec: check 7, created_at is non-decreasing in
    storage order. *)
Definition check7 (l : list event) : check_result :=
  verdict 7 (non_decreasing (map created_at l)) "check 7: created_at decreases in storage order".

(** Modelled from the spec: check 8, skipped (not failed) unless fixture
    mode is expected. *)
Definition check8 (c : config) (l : list event) : check_result :=
  if fixture_mode_expected c
  then verdict 8 (forallb fixture_flag l) "check 8: an event lacks meta.fixture_mode = true"
  else CheckResult 8 true "skipped".

(** Modelled from the spec: the synthetic well-formed event of check 9. *)
Definition health_event : JSON :=
  JObj [ (lit "trace_id", JStr (lit "00000000-0000-0000-0000-000000000000"));
         (lit "source", JStr (lit "contract_tests"));
         (lit "event_type", JStr (lit "health.check")) ].

Definition acknowledged (c : SwLog.completion unit) : bool :=
  match c with
  | SwLog.Return r => Z.eqb (SwLog.status_code r) 201
  | _ => false
  end.

(** Modelled from the spec: check 9, "a synthetic well-formed Event can be
    appended and is acknowledged"; it runs the sw-log handler. *)
Definition check9 (e : SwLog.env) (t : table event) : check_result * table event :=
  let (c, t') := SwLog.handler e (SwLog.Request (lit "POST") (Some health_event)) t in
  (verdict 9 (acknowledged c) "check 9: the ingestion boundary did not acknowledge a valid event", t').

(** A check that only reads, as a step on the ledger table. *)
Definition pure_check (f : list event -> check_result) (tr : uuid)
  (t : table event) : check_result * table event :=
  (f (filter (fun e => uuid_eqb (trace_id e) tr) (rows t)), t).

(** Modelled from the spec: the nine checks in their order. *)
Definition checks (c : config) (e : SwLog.env) (tr : uuid)
  : list (table event -> check_result * table event) :=
  [ pure_check check1 tr; pure_check check2 tr; pure_check (check3 c) tr;
    pure_check check4 tr; pure_check check5 tr; pure_check check6 tr;
    pure_check check7 tr; pure_check (check8 c) tr; check9 e ].

(** Modelled from the spec: "the verifier never halts on the first failure
    ... unless the caller explicitly requests fail-fast". *)
Fixpoint run_checks (stop_on_failure : bool)
  (cs : list (table event -> check_result * table event)) (t : table event)
  : list check_result * table event :=
  match cs with
  | [] => ([], t)
  | c :: rest =>
      let (r, t') := c t in
      if stop_on_failure && negb (passed r) then ([r], t')
      else let (rs, t'') := run_checks stop_on_failure rest t' in (r :: rs, t'')
  end.

(** Modelled from the spec: the Contract Verifier of section 4.6 over the
    trace [tr]. *)
Definition verify (c : config) (e : SwLog.env) (tr : uuid) (t : table event)
  : list check_result * table event :=
  run_checks (fail_fast c) (checks c e tr) t.

(** Modelled from the spec: the checks are "aggregated into an overall
    pass/fail". *)
Definition overall (rs : list check_result) : bool := forallb passed rs.

End Contract.

(* ====================================================================== *)
(** ** The vocabulary of the properties proved below *)
(* ====================================================================== *)

Import JS Pg Ledger SwLog Helpers Replay Contract.

(** The rules make a table append-only when an unconditional INSTEAD rule
    stands on UPDATE and on DELETE, and none on INSERT. *)
Definition append_only (row : Type) (rs : list rule) : Prop :=
  (forall (set : row -> row) w, rewrite rs (Update set w) = []) /\
  (forall w, rewrite rs (@Delete row w) = []) /\
  (forall r : row, rewrite rs (Insert r) = [Insert r]).

(** The property [k] of a submitted body, [None] when it has none. *)
Definition property (body : JSON) (k : jsstring) : value :=
  match body with
  | JObj l => assoc k l
  | _ => None
  end.

(** A required field is absent, not a string, or empty after trimming. *)
Definition missing_or_blank (body : JSON) (k : jsstring) : Prop :=
  match property body k with
  | Some (JStr s) => trim s = []
  | _ => True
  end.

Definition client_error (r : response) : Prop :=
  (400 <= status_code r < 500)%Z.

(** A hexadecimal digit, in either case. *)
Definition is_hex_digit (c : code_unit) : bool :=
  (N.leb 48 c && N.leb c 57) || (N.leb 97 c && N.leb c 102) || (N.leb 65 c && N.leb c 70).

(** The canonical 8-4-4-4-12 textual form of a UUID. *)
Definition canonical_uuid_form (s : jsstring) : Prop :=
  exists g1 g2 g3 g4 g5 : jsstring,
    s = g1 ++ [45%N] ++ g2 ++ [45%N] ++ g3 ++ [45%N] ++ g4 ++ [45%N] ++ g5 /\
    List.length g1 = 8 /\ List.length g2 = 4 /\ List.length g3 = 4 /\
    List.length g4 = 4 /\ List.length g5 = 12 /\
    Forall (fun c => is_hex_digit c = true) (g1 ++ g2 ++ g3 ++ g4 ++ g5).

(** The row the handler builds from a body, read off its properties, as the
    request to the store carries it. *)
Definition row_of (body : JSON) : row :=
  Row (toLowerCase (string_of (property body (lit "trace_id"))))
      (trim (string_of (property body (lit "source"))))
      (trim (string_of (property body (lit "event_type"))))
      (wire (nullish_or_null (property body (lit "scan_id"))))
      (wire (nullish_or_null (property body (lit "client_id"))))
      (wire (nullish_or_null (property body (lit "event_name"))))
      (normalize_status (property body (lit "status")))
      (wire (nullish_or_null (property body (lit "req"))))
      (wire (nullish_or_null (property body (lit "res"))))
      (wire (nullish_or_null (property body (lit "err"))))
      (wire (nullish_or_null (property body (lit "meta"))))
      (round_duration (property body (lit "duration_ms"))).

(** The ledger row an insert of [r] makes. *)
Definition event_of (e : env) (r : row) (tid : uuid) : event :=
  Event (gen_random_uuid e) tid (row_scan_id r) (row_client_id r)
        (row_source r) (row_event_type r) (row_event_name r)
        (row_status r) (row_req r) (row_res r) (row_err r)
        (row_meta r) (row_duration_ms r) (now e).

(** The handler is set up: both environment variables hold a value. *)
Definition configured (e : env) : Prop :=
  unset (SUPABASE_URL e) = false /\ unset (SUPABASE_SERVICE_ROLE_KEY e) = false.

(** The submission was accepted: answered 201 with the id of the row [ev],
    which the ledger now ends with. *)
Definition accepted (e : env) (rq : request) (grants : db_role -> command -> bool)
  (l : list event) (ev : event) : Prop :=
  handler e rq (sw_event_log grants l)
  = (Return (created (id ev)), sw_event_log grants (l ++ [ev])).

(** Rows with equal [created_at] come in ascending order of their ids. *)
Definition ties_by_id (result : list timeline_row) : Prop :=
  StronglySorted
    (fun a b => tl_created_at a = tl_created_at b ->
                uuid_compare (tl_event_id a) (tl_event_id b) <> Gt)
    result.

(** [t] lies within the [n] minutes that end at [clock]. *)
Definition within_window (clock : timestamptz) (n : Z) (t : timestamptz) : bool :=
  Z.leb (clock - n * 60 * 1000000) t && Z.leb t clock.

Definition is_error (e : event) : bool := str_eqb (status e) (lit "error").

(** The session holds the administrative capability: an authenticated
    session whose token carries the admin role claim. *)
Definition holds_admin (s : session) : Prop :=
  role s = authenticated /\ is_true (admin_claim s) = true.

(** The events of one trace, in storage order. *)
Definition of_trace (t : uuid) (l : list event) : list event :=
  filter (fun e => uuid_eqb (trace_id e) t) l.

(** A terminal event: its type is workflow.complete or workflow.error. *)
Definition terminal (ev : event) : Prop :=
  event_type ev = lit "workflow.complete" \/ event_type ev = lit "workflow.error".

(** The events hold exactly one terminal event: one event is terminal and
    none of those before it or after it is. *)
Definition exactly_one_terminal (l : list event) : Prop :=
  exists before ev after,
    l = before ++ ev :: after /\ terminal ev /\
    Forall (fun x => ~ terminal x) before /\ Forall (fun x => ~ terminal x) after.

(** The results of the nine checks, each computed on its own. *)
Definition all_results (c : config) (e : env) (tr : uuid) (t : table event)
  : list check_result :=
  let l := of_trace tr (rows t) in
  [ check1 l; check2 l; check3 c l; check4 l; check5 l; check6 l; check7 l;
    check8 c l; fst (check9 e t) ].

(** The results up to and including the first failed one. *)
Fixpoint through_first_failure (rs : list check_result) : list check_result :=
  match rs with
  | [] => []
  | r :: rest => if passed r then r :: through_first_failure rest else [r]
  end.

(** Sample data: one trace, two events written at the same instant whose
    generated ids happen to fall in the other order. *)
Module Samples.
Definition all_granted : db_role -> command -> bool := fun _ _ => true.
Definition trace1 : uuid := lit "11111111-1111-1111-1111-111111111111".
Definition id_a : uuid := lit "aaaaaaaa-0000-0000-0000-000000000000".
Definition id_b : uuid := lit "bbbbbbbb-0000-0000-0000-000000000000".
Definition id_c : uuid := lit "cccccccc-0000-0000-0000-000000000000".

Definition ev (i : uuid) (ty st : string) (at_ : Z) : event :=
  Event i trace1 JNull JNull (lit "test") (lit ty) JNull (lit st)
        JNull JNull JNull JNull None at_.

Definition first_written : event := ev id_b "workflow.start" "info" 5.
Definition second_written : event := ev id_a "workflow.complete" "ok" 5.
Definition tied : list event := [first_written; second_written].

Definition service : session := Session service_role None.
Definition user : session :=
  Session authenticated (Some (JObj [(lit "role", JStr (lit "user"))])).

Definition artifact1 : artifact :=
  Artifact id_c id_b trace1 (lit "payload") JNull JNull (JObj []) None 6%Z.

(** Later statements against the ledger: a DELETE of everything and an
    UPDATE that would overwrite every row. *)
Definition tampering : list (session * statement event) :=
  [ (service, Delete (fun _ => true));
    (service, Update (fun _ => second_written) (fun _ => true)) ].

Definition env0 : env :=
  Env (Some (lit "https://project.supabase.co")) (Some (lit "service-key")) id_c 7%Z None.

Definition mixed_case : jsstring := lit "AbCdEf01-2345-6789-abcd-EF0123456789".

Definition body_ok : JSON :=
  JObj [ (lit "trace_id", JStr mixed_case);
         (lit "source", JStr (lit " n8n "));
         (lit "event_type", JStr (lit "tool.call"));
         (lit "status", JStr (lit "ok"));
         (lit "duration_ms", JNum (- 5 # 2)) ].

Definition stored_ok : event :=
  Event id_c (lit "abcdef01-2345-6789-abcd-ef0123456789") JNull JNull
        (lit "n8n") (lit "tool.call") JNull (lit "ok") JNull JNull JNull JNull
        (Some (-2)%Z) 7%Z.

Definition body_no_type : JSON :=
  JObj [ (lit "trace_id", JStr trace1); (lit "source", JStr (lit "test")) ].

(** A ledger read at [clock]: one error 10 minutes old, one 20. *)
Definition clock : timestamptz := 6000000000%Z.
Definition ten_minutes_ago : event := ev id_a "workflow.error" "error" (clock - 600000000)%Z.
Definition twenty_minutes_ago : event := ev id_b "workflow.error" "error" (clock - 1200000000)%Z.
Definition recent : list event := [twenty_minutes_ago; ten_minutes_ago].

Definition run_all : Contract.config := Contract.Config false false (lit "webhook.received").

(** A trace whose workflow.start carries no request payload; the marker of
    the webhook, written later, and a tool call, stored first but the
    latest in time, each carry one. *)
Definition with_req (i : uuid) (ty : string) (at_ : Z) (sent : JSON) : event :=
  Event i trace1 JNull JNull (lit "test") (lit ty) JNull (lit "info")
        sent JNull JNull JNull None at_.

Definition root_payload : JSON := JObj [(lit "target", JStr (lit "example.com"))].
Definition later_payload : JSON := JObj [(lit "tool", JStr (lit "nmap"))].


(** Two events of one trace with a request payload each, written at the
    same instant. *)
Definition tied_requests : list event :=
  [ with_req id_b "webhook.received" 5 root_payload;
    with_req id_a "tool.call" 5 later_payload ].

(** A submission whose duration_ms is a literal too large for a double,
    such as 1e400, and the row stored for it. *)
Definition body_overflow : JSON :=
  JObj [ (lit "trace_id", JStr trace1);
         (lit "source", JStr (lit "n8n"));
         (lit "event_type", JStr (lit "tool.result"));
         (lit "duration_ms", JInf false) ].

Definition stored_overflow : event :=
  Event id_c trace1 JNull JNull (lit "n8n") (lit "tool.result") JNull (lit "info")
        JNull JNull JNull JNull None 7%Z.
End Samples.

(* ====================================================================== *)
(** ** Further vocabulary: the handler request by request *)
(* ====================================================================== *)

(** The first required field, in the order of [REQUIRED_FIELDS], that the
    validation loop finds missing or invalid. *)
Definition first_invalid (body : JSON) : option jsstring :=
  find (fun f => invalid_required (property body f)) REQUIRED_FIELDS.

(** The submission passes the handler's validation: no required field is
    missing or blank and the trace_id has the UUID form. *)
Definition valid_submission (body : JSON) : Prop :=
  body <> JNull /\
  Forall (fun f => ~ missing_or_blank body f) REQUIRED_FIELDS /\
  test UUID_RE (string_of (property body (lit "trace_id"))) = true.

(** A string neither begins nor ends with white space. *)
Definition no_outer_white_space (s : jsstring) : Prop :=
  match s with
  | [] => True
  | c :: _ => is_white_space c = false /\ is_white_space (last s c) = false
  end.

(** The ledger after the handler served the requests in turn, each in the
    environment it ran in. *)
Fixpoint serve (grants : db_role -> command -> bool) (rqs : list (env * request))
  (l : list event) : list event :=
  match rqs with
  | [] => l
  | (e, rq) :: rest =>
      serve grants rest (rows (snd (handler e rq (sw_event_log grants l))))
  end.

(** What holds of every row the handler writes. *)
Definition written_by_sw_log (ev : event) : Prop :=
  test UUID_RE (trace_id ev) = true /\
  toLowerCase (trace_id ev) = trace_id ev /\
  In (status ev) VALID_STATUSES /\
  source ev <> [] /\ trim (source ev) = source ev /\
  event_type ev <> [] /\ trim (event_type ev) = event_type ev /\
  match duration_ms ev with Some d => int4_ok d = true | None => True end.

(* ====================================================================== *)
(** ** supabase/migrations/20240301000003_sw_event_log_helpers.sql:
       the view v_recent_errors *)
(* ====================================================================== *)

Module RecentErrors.

(** [INTERVAL '24 hours'], in microseconds. *)
Definition hours_interval (n : Z) : Z := (n * 3600000000)%Z.

(** [l.status = 'error' AND l.created_at >= now() - INTERVAL '24 hours'] *)
Definition recent_errors_where (clock : timestamptz) (l : event) : sql_bool :=
  sql_and (Some (str_eqb (status l) (lit "error")))
          (Some (Z.leb (clock - hours_interval 24) (created_at l))).

(** The rows the view may return over the ledger rows [l] at [now() = clock]:
    the select list is that of [sw_event_log_errors_since], the order is
    [ORDER BY l.created_at DESC]. *)
Definition v_recent_errors (clock : timestamptz) (l : list event)
  (result : list error_row) : Prop :=
  ordered_by created_at_desc
    (map error_columns (filter (fun e => is_true (recent_errors_where clock e)) l))
    result.

(** One evaluation of the view. *)
Definition v_recent_errors_run (clock : timestamptz) (l : list event) : list error_row :=
  sort created_at_desc
    (map error_columns (filter (fun e => is_true (recent_errors_where clock e)) l)).

End RecentErrors.

(* ====================================================================== *)
(** ** tests/e2e/run-tests.js: reading the configuration *)
(* ====================================================================== *)

Module RunTests.

(** [s.split("\n")]: the pieces between line feeds; never empty. *)
Fixpoint split_lines (s : jsstring) : list jsstring :=
  match s with
  | [] => [[]]
  | c :: r =>
      if N.eqb c 10%N then [] :: split_lines r
      else match split_lines r with
           | line :: rest => (c :: line) :: rest
           | [] => [[c]]
           end
  end.

(** [s.indexOf(c)] for a one-character [c]; [None] is -1. *)
Fixpoint indexOf (c : code_unit) (s : jsstring) : option nat :=
  match s with
  | [] => None
  | x :: r => if N.eqb x c then Some 0 else option_map S (indexOf c r)
  end.

(** [s.startsWith(c)] for a one-character [c]. *)
Definition startsWith (c : code_unit) (s : jsstring) : bool :=
  match s with
  | x :: _ => N.eqb x c
  | [] => false
  end.

(** The object [cfg]: its own properties, the latest assignment first. *)
Definition object := list (jsstring * jsstring).

(** [cfg[k] = v] with a string [v].  On an object made by [{}] the key
    [__proto__] is the accessor of the prototype, whose setter ignores a
    string; any other key becomes (or overwrites) an own property. *)
Definition set_property (k v : jsstring) (o : object) : object :=
  if str_eqb k (lit "__proto__") then o else (k, v) :: o.

(** [cfg.k] for a key that [Object.prototype] does not define: the own
    property, or [undefined]. *)
Fixpoint own_property (k : jsstring) (o : object) : option jsstring :=
  match o with
  | [] => None
  | (k', v) :: r => if str_eqb k k' then Some v else own_property k r
  end.

(** The body of the loop of [loadConfig], for one line. *)
Definition read_line (cfg : object) (line : jsstring) : object :=
  let trimmed := trim line in
  if match trimmed with [] => true | _ => false end || startsWith 35%N trimmed
  then cfg
  else match indexOf 61%N trimmed with
       | None => cfg
       | Some eqIdx =>
           set_property (trim (firstn eqIdx trimmed))
                        (trim (skipn (S eqIdx) trimmed)) cfg
       end.

(** [loadConfig()], given the text of test-config.env ([None]: the file
    does not exist, and the process exits with status 1). *)
Definition loadConfig (file : option jsstring) : option object :=
  match file with
  | None => None
  | Some text => Some (fold_left read_line (split_lines text) [])
  end.

(** [s.replace(/\/$/, '')]: a slash at the very end of [s] is removed. *)
Definition strip_trailing_slash (s : jsstring) : jsstring :=
  match rev s with
  | c :: r => if N.eqb c 47%N then rev r else s
  | [] => s
  end.

(** [buildUrl(cfg, webhookPath)].  [None]: [cfg.N8N_BASE_URL] is undefined
    and [.replace] throws a TypeError.  An undefined [webhookPath] is
    appended as the text "undefined". *)
Definition buildUrl (cfg : object) (webhookPath : option jsstring) : option jsstring :=
  match own_property (lit "N8N_BASE_URL") cfg with
  | None => None
  | Some base =>
      Some (strip_trailing_slash base
            ++ match webhookPath with Some p => p | None => lit "undefined" end)
  end.

End RunTests.

(* ====================================================================== *)
(** ** The scan route ([export async function POST]): a scan request is
       handed to the n8n webhook of its agent *)
(* ====================================================================== *)

Module ScanRoute.

(** Reading a key of an object literal: an own property; a function
    inherited from [Object.prototype]; [Object.prototype] itself, which the
    key [__proto__] reads; or [undefined]. *)
Inductive lookup := Own (v : jsstring) | Inherited | Prototype | Absent.

Definition object_prototype_names : list jsstring :=
  map lit [ "constructor"; "__defineGetter__"; "__defineSetter__"; "hasOwnProperty";
            "__lookupGetter__"; "__lookupSetter__"; "isPrototypeOf";
            "propertyIsEnumerable"; "toString"; "valueOf"; "__proto__";
            "toLocaleString" ].

Definition lookup_in (table : list (string * jsstring)) (key : jsstring) : lookup :=
  match find (fun p => str_eqb key (lit (fst p))) table with
  | Some (_, v) => Own v
  | None =>
      if str_eqb key (lit "__proto__") then Prototype
      else if existsb (str_eqb key) object_prototype_names then Inherited
      else Absent
  end.

Definition lookup_truthy (l : lookup) : bool :=
  match l with
  | Own [] => false
  | Own _ => true
  | Inherited => true
  | Prototype => true
  | Absent => false
  end.

(** What [fetch] and the reading of its response come to. *)
Inductive webhook_body :=
| Json (v : JSON)                      (* [webhookRes.json()] resolves *)
| NotJson (text : jsstring + jsstring). (* it rejects; then [webhookRes.text()]
                                          rejects with a message (inl) or
                                          gives the raw text (inr) *)

Inductive fetch_outcome :=
| FetchRejects (message : jsstring)
| FetchResolves (ok : bool) (status : Z) (body : webhook_body).

(** What one invocation reads from its surroundings. *)
Record env := Env {
  N8N_WEBHOOK_AGENT_1 : option jsstring;
  N8N_WEBHOOK_AGENT_2 : option jsstring;
  N8N_WEBHOOK_AGENT_3 : option jsstring;
  N8N_WEBHOOK_API_KEY : option jsstring;
  createClient_throws : bool;        (* [createClient] rejects the URL or the key *)
  json_rejection : jsstring;         (* message when [request.json()] rejects *)
  null_body_error : jsstring;        (* message of the TypeError on [null.scanId] *)
  conversion_error : jsstring;       (* message of the TypeError when an object
                                        cannot be converted to a property key *)
  number_text : Q -> jsstring;       (* ToString of a number *)
  status_text : Z -> jsstring;       (* the status in a template literal *)
  stringify : JSON -> jsstring;      (* [JSON.stringify] *)
  fetch : lookup -> JSON -> fetch_outcome;
  started_at : jsstring;             (* the values of [new Date().toISOString()] *)
  payload_timestamp : jsstring;
  finished_at : jsstring
}.

(** [process.env.X ?? ''] *)
Definition or_empty (v : option jsstring) : jsstring :=
  match v with Some s => s | None => [] end.

Definition N8N_WEBHOOKS (e : env) : list (string * jsstring) :=
  [ ("vulnerability", or_empty (N8N_WEBHOOK_AGENT_2 e));
    ("compliance", or_empty (N8N_WEBHOOK_AGENT_3 e));
    ("penetration_test", or_empty (N8N_WEBHOOK_AGENT_1 e));
    ("web_application", or_empty (N8N_WEBHOOK_AGENT_1 e));
    ("network", or_empty (N8N_WEBHOOK_AGENT_1 e)) ].

Definition AGENT_LABELS : list (string * jsstring) :=
  [ ("vulnerability", lit "agent-2");
    ("compliance", lit "agent-3");
    ("penetration_test", lit "agent-1");
    ("web_application", lit "agent-1");
    ("network", lit "agent-1") ].

Definition N8N_SCAN_TYPE : list (string * jsstring) :=
  [ ("vulnerability", lit "full");
    ("compliance", lit "compliance");
    ("penetration_test", lit "full");
    ("web_application", lit "web_application");
    ("network", lit "full") ].

(** ToString of a value of [request.json()], as a property key and a
    template literal apply it; [None]: it throws a TypeError.  An object
    is converted by its [toString]: an own property of that name is a JSON
    value and cannot be called, and [valueOf] gives no primitive, so the
    conversion throws; otherwise [Object.prototype.toString] answers.  An
    array is converted by [join], which converts its elements. *)
Fixpoint to_string (number : Q -> jsstring) (v : JSON) : option jsstring :=
  match v with
  | JNull => Some (lit "null")
  | JBool true => Some (lit "true")
  | JBool false => Some (lit "false")
  | JNum q => Some (number q)
  | JInf false => Some (lit "Infinity")
  | JInf true => Some (lit "-Infinity")
  | JStr s => Some s
  | JArr l =>
      (fix join (l : list JSON) : option jsstring :=
         match l with
         | [] => Some []
         | x :: r =>
             match match x with JNull => Some [] | _ => to_string number x end with
             | None => None
             | Some first =>
                 match r with
                 | [] => Some first
                 | _ => match join r with
                        | Some rest => Some (first ++ 44%N :: rest)
                        | None => None
                        end
                 end
             end
         end) l
  | JObj l =>
      match assoc (lit "toString") l with
      | Some _ => None
      | None => Some (lit "[object Object]")
      end
  end.

Record request := Request {
  method : jsstring;
  json : option JSON          (* the result of [request.json()]; [None]: it rejects *)
}.

Definition corsHeaders : list (string * string) :=
  [ ("Access-Control-Allow-Origin", "*");
    ("Access-Control-Allow-Methods", "GET, POST, OPTIONS");
    ("Access-Control-Allow-Headers", "Content-Type, Authorization") ].

(** A response: [payload] is its body as the client reads it. *)
Record response := Response {
  status_code : Z;
  headers : list (string * string);
  payload : option JSON
}.

(** The headers of [Response.json(data, { headers: corsHeaders })]:
    [Response.json] adds the content type, which [corsHeaders] does not
    set. *)
Definition json_headers : list (string * string) :=
  corsHeaders ++ [("content-type", "application/json")].

(** What the route does to the outside, in order.  The updates are awaited
    and their result is not looked at; the client is taken not to throw,
    whatever [id] it is given.  [fields] and [body] are what the request
    carries; [id] is the value handed to [eq]. *)
Inductive effect :=
| UpdateScan (id : JSON) (fields : list (jsstring * JSON))
    (* [supabase.from('scans').update(fields).eq('id', id)] *)
| CallWebhook (url : lookup) (api_key : option jsstring) (body : JSON).
    (* [fetch(url, { method: 'POST', headers, body: JSON.stringify(body) })] *)

(** A property of an object literal as [JSON.stringify] writes it: a
    property whose value is [undefined] or a function is left out, the
    others are written as [wire] has them. *)
Definition field (k : string) (v : option JSON) : list (jsstring * JSON) :=
  match v with
  | Some j => [(lit k, wire j)]
  | None => []
  end.

(** What a key read from one of the tables is written as: the string
    found; nothing for a function or for [undefined]; [{}] for
    [Object.prototype], which has no enumerable property. *)
Definition serialised (l : lookup) : option JSON :=
  match l with
  | Own s => Some (JStr s)
  | Prototype => Some (JObj [])
  | Inherited => None
  | Absent => None
  end.

(** [body.k]: [undefined] on anything but an object that has the key. *)
Definition prop (body : JSON) (k : string) : value :=
  match body with
  | JObj l => assoc (lit k) l
  | _ => None
  end.

(** How the [try] block ends: with a response, or with an error caught
    while [scanId] holds a value; both with the effects so far. *)
Inductive attempt :=
| Returned (r : response) (effects : list effect)
| Caught (scanId : value) (message : jsstring) (effects : list effect).

(** [scanType === 'compliance'] *)
Definition is_compliance (scanType : JSON) : bool :=
  match scanType with
  | JStr s => str_eqb s (lit "compliance")
  | _ => false
  end.

(** The object sent to the webhook, as the request carries it.  [clientId]
    defaults to 'CL001' when the body has no such property; [framework] to
    'HIPAA' when it is absent or null.  [key] is the property key that
    [scanType] converts to. *)
Definition n8nPayload (e : env) (key : jsstring) (scanId scanType target : JSON)
           (body : JSON) : JSON :=
  let clientId :=
    match prop body "clientId" with Some v => v | None => JStr (lit "CL001") end in
  if is_compliance scanType then
    JObj (field "client_id" (Some clientId)
          ++ field "framework"
               (Some (match prop body "framework" with
                      | None | Some JNull => JStr (lit "HIPAA")
                      | Some f => f
                      end))
          ++ field "policy_files" (Some (JArr []))
          ++ field "scanId" (Some scanId)
          ++ field "timestamp" (Some (JStr (payload_timestamp e))))
  else
    JObj (field "client_id" (Some clientId)
          ++ field "scan_type"
               (serialised (lookup_in N8N_SCAN_TYPE key))
          ++ field "target" (Some target)
          ++ field "scanId" (Some scanId)
          ++ field "priority" (Some (JStr (lit "normal")))
          ++ field "timestamp" (Some (JStr (payload_timestamp e)))).

Definition bad_request (message : jsstring) : response :=
  Response 400 json_headers
    (Some (JObj [(lit "success", JBool false); (lit "error", JStr message)])).

(** The [try] block from [scanId = body.scanId] on, for a body that is not
    [null].  [N8N_WEBHOOKS[scanType]] is the first place that converts
    [scanType] to a property key; when that throws, the error is caught
    with nothing done yet. *)
Definition with_body (e : env) (body : JSON) : attempt :=
  let scanId := prop body "scanId" in
  let scanType := prop body "scanType" in
  let target := prop body "target" in
  if negb (truthy scanId) || negb (truthy scanType) || negb (truthy target)
  then Returned (bad_request (lit "Missing required fields: scanId, scanType, target")) []
  else
    match to_string (number_text e) (nullish_or_null scanType) with
    | None => Caught scanId (conversion_error e) []
    | Some key =>
        let webhookUrl := lookup_in (N8N_WEBHOOKS e) key in
        if negb (lookup_truthy webhookUrl)
        then Returned (bad_request (lit "Unsupported scan type: " ++ key)) []
        else
          let running :=
            UpdateScan (nullish_or_null scanId)
              [(lit "status", JStr (lit "running"));
               (lit "started_at", JStr (started_at e))] in
          let sent := n8nPayload e key (nullish_or_null scanId)
                                 (nullish_or_null scanType) (nullish_or_null target)
                                 body in
          let call := CallWebhook webhookUrl (N8N_WEBHOOK_API_KEY e) sent in
          match fetch e webhookUrl sent with
          | FetchRejects m => Caught scanId m [running; call]
          | FetchResolves ok status answer =>
              match answer with
              | NotJson (inl m) => Caught scanId m [running; call]
              | _ =>
                  let webhookData :=
                    match answer with
                    | Json v => v
                    | NotJson (inr raw) => JObj [(lit "raw", JStr raw)]
                    | NotJson (inl _) => JNull
                    end in
                  if negb ok
                  then Caught scanId
                         (lit "n8n webhook returned " ++ status_text e status
                          ++ lit ": " ++ stringify e webhookData)
                         [running; call]
                  else
                    Returned
                      (Response 200 json_headers
                         (Some (JObj (field "success" (Some (JBool true))
                                      ++ field "scanId" scanId
                                      ++ field "agent" (serialised (lookup_in AGENT_LABELS key))
                                      ++ field "status" (Some (JStr (lit "completed")))
                                      ++ field "webhookResponse" (Some webhookData)))))
                      [running; call;
                       UpdateScan (nullish_or_null scanId)
                         [(lit "status", JStr (lit "completed"));
                          (lit "completed_at", JStr (finished_at e));
                          (lit "result", wire webhookData)]]
              end
          end
    end.

Definition is_null (body : JSON) : bool :=
  match body with JNull => true | _ => false end.

(** The [try] block.  Reading [body.scanId] of [null] throws. *)
Definition try_block (e : env) (rq : request) : attempt :=
  match json rq with
  | None => Caught None (json_rejection e) []
  | Some body =>
      if is_null body then Caught None (null_body_error e) []
      else with_body e body
  end.

Inductive outcome := Responded (r : response) | Threw.

(** The route: its outcome and what it did. *)
Definition POST (e : env) (rq : request) : outcome * list effect :=
  if str_eqb (method rq) (lit "OPTIONS")
  then (Responded (Response 200 corsHeaders None), [])
  else if createClient_throws e then (Threw, [])
  else
    match try_block e rq with
    | Returned r effects => (Responded r, effects)
    | Caught scanId message effects =>
        (Responded
           (Response 500 json_headers
              (Some (JObj (field "success" (Some (JBool false))
                           ++ field "scanId" scanId
                           ++ field "error" (Some (JStr message)))))),
         if truthy scanId
         then effects ++ [UpdateScan (nullish_or_null scanId)
                            [(lit "status", JStr (lit "failed"));
                             (lit "completed_at", JStr (finished_at e));
                             (lit "error_message", JStr message)]]
         else effects)
    end.

End ScanRoute.

(* ====================================================================== *)
(** ** Further vocabulary: the scan route *)
(* ====================================================================== *)

(** The property key the body's scanType converts to; [None] when the
    conversion throws. *)
Definition scan_key (e : ScanRoute.env) (body : JSON) : option jsstring :=
  ScanRoute.to_string (ScanRoute.number_text e)
    (nullish_or_null (ScanRoute.prop body "scanType")).

(** The scan was started under the key [key]: the record is marked running
    and the webhook is called with the payload built from the body. *)
Definition scan_started (e : ScanRoute.env) (body : JSON) (key : jsstring)
  : list ScanRoute.effect :=
  let id := nullish_or_null (ScanRoute.prop body "scanId") in
  [ ScanRoute.UpdateScan id
      [(lit "status", JStr (lit "running"));
       (lit "started_at", JStr (ScanRoute.started_at e))];
    ScanRoute.CallWebhook (ScanRoute.lookup_in (ScanRoute.N8N_WEBHOOKS e) key)
      (ScanRoute.N8N_WEBHOOK_API_KEY e)
      (ScanRoute.n8nPayload e key id
         (nullish_or_null (ScanRoute.prop body "scanType"))
         (nullish_or_null (ScanRoute.prop body "target")) body) ].

(** The scan is marked failed with the message [m] and nothing else is
    done. *)
Definition scan_failed (e : ScanRoute.env) (body : JSON) (m : jsstring)
  : ScanRoute.effect :=
  ScanRoute.UpdateScan (nullish_or_null (ScanRoute.prop body "scanId"))
    [(lit "status", JStr (lit "failed"));
     (lit "completed_at", JStr (ScanRoute.finished_at e));
     (lit "error_message", JStr m)].

(** The body names a scan, a scan type and a target. *)
Definition scan_named (body : JSON) : Prop :=
  body <> JNull /\
  truthy (ScanRoute.prop body "scanId") = true /\
  truthy (ScanRoute.prop body "scanType") = true /\
  truthy (ScanRoute.prop body "target") = true.

(** The scan type reads a configured webhook under [key]. *)
Definition webhook_configured (e : ScanRoute.env) (body : JSON) (key : jsstring) : Prop :=
  scan_key e body = Some key /\
  ScanRoute.lookup_truthy (ScanRoute.lookup_in (ScanRoute.N8N_WEBHOOKS e) key) = true.


(** An effect that starts a scan: the mark running, or the call of a
    webhook. *)
Definition starts_scan (eff : ScanRoute.effect) : Prop :=
  match eff with
  | ScanRoute.CallWebhook _ _ _ => True
  | ScanRoute.UpdateScan _ fields =>
      assoc (lit "status") fields = Some (JStr (lit "running"))
  end.

(* ====================================================================== *)
(** ** Further sample data *)
(* ====================================================================== *)

Module MoreSamples.

(** A function whose SUPABASE_URL is not set. *)
Definition env_unset : env :=
  Env None (Some (lit "service-key")) Samples.id_c 7%Z None.

(** A valid submission whose duration does not fit a 32-bit integer. *)
Definition body_long : JSON :=
  JObj [ (lit "trace_id", JStr Samples.trace1);
         (lit "source", JStr (lit "n8n"));
         (lit "event_type", JStr (lit "tool.result"));
         (lit "duration_ms", JNum (10000000000 # 1)%Q) ].

(** A valid submission carrying a request payload and a numeric scan id. *)
Definition body_payload : JSON :=
  JObj [ (lit "trace_id", JStr Samples.trace1);
         (lit "source", JStr (lit "n8n"));
         (lit "event_type", JStr (lit "workflow.start"));
         (lit "scan_id", JNum (7 # 1)%Q);
         (lit "req", JObj [(lit "client_id", JStr (lit "CL001"))]);
         (lit "meta", JNull) ].

Definition stored_payload : event :=
  Event Samples.id_c Samples.trace1 (JNum (7 # 1)%Q) JNull (lit "n8n")
        (lit "workflow.start") JNull (lit "info")
        (JObj [(lit "client_id", JStr (lit "CL001"))]) JNull JNull JNull None 7%Z.

(** A valid submission whose meta holds a number too large for a double,
    and the row stored for it. *)
Definition body_infinite_meta : JSON :=
  JObj [ (lit "trace_id", JStr Samples.trace1);
         (lit "source", JStr (lit "n8n"));
         (lit "event_type", JStr (lit "tool.result"));
         (lit "meta", JObj [(lit "bytes", JInf false); (lit "ok", JBool true)]) ].

Definition stored_infinite_meta : event :=
  Event Samples.id_c Samples.trace1 JNull JNull (lit "n8n")
        (lit "tool.result") JNull (lit "info") JNull JNull JNull
        (JObj [(lit "bytes", JNull); (lit "ok", JBool true)]) None 7%Z.

(** Statements that try to insert a row whose id is taken. *)
Definition duplicate_insert : list (session * statement event) :=
  [ (Samples.service, Insert Samples.first_written);
    (Samples.service, Insert (Samples.ev Samples.id_c "tool.call" "info" 9)) ].

(** A configuration file, its last line an assignment. *)
Definition config_head : jsstring := lit "# webhook settings".
Definition config_key : jsstring := lit " TOKEN ".
Definition config_value : jsstring := lit " a=b ".
Definition config_with_base : RunTests.object :=
  [ (lit "N8N_BASE_URL", lit "https://n8n.example/") ].

(** A run of the scan route in which the webhook answers 200 with JSON. *)
Definition scan_env : ScanRoute.env :=
  ScanRoute.Env (Some (lit "https://n8n.example/agent1")) None None
    (Some (lit "key")) false (lit "Unexpected token") (lit "Cannot read properties of null")
    (lit "Cannot convert object to primitive value")
    (fun _ => lit "0") (fun _ => lit "500") (fun _ => lit "{}")
    (fun _ _ => ScanRoute.FetchResolves true 200 (ScanRoute.Json (JObj [])))
    (lit "t0") (lit "t1") (lit "t2").

Definition scan_body : JSON :=
  JObj [ (lit "scanId", JStr (lit "scan-1"));
         (lit "scanType", JStr (lit "network"));
         (lit "target", JStr (lit "example.com")) ].

Definition scan_rq : ScanRoute.request :=
  ScanRoute.Request (lit "POST") (Some scan_body).



Definition scan_reply : ScanRoute.response :=
  Eval vm_compute in
    match fst (ScanRoute.POST scan_env scan_rq) with
    | ScanRoute.Responded r => r
    | ScanRoute.Threw => ScanRoute.Response 0 [] None
    end.

Definition scan_effects : list ScanRoute.effect :=
  Eval vm_compute in snd (ScanRoute.POST scan_env scan_rq).

End MoreSamples.

(* ====================================================================== *)
(** ** tests/e2e/run-tests.js: the agent tests, [runTest] and [main] *)
(* ====================================================================== *)

Module AgentTests.
Import JS RunTests.

(** The body [httpPost] resolves with: [JSON.parse(data)], or the text
    [data] itself when it does not parse. *)
Inductive reply_body :=
| Parsed (v : JSON)
| Raw (data : jsstring).

(** What [httpPost] resolves with (the headers are not looked at). *)
Record reply := Reply { status : Z; body : reply_body }.

Record check := Check { name : string; pass : bool; detail : jsstring }.

(** The texts of the details and labels, which the checks do not depend
    on, are left to the caller:
    [got_status n] is [`got ${res.status}`],
    [stringify_300 o] is [JSON.stringify(res.body).slice(0, 300)],
    [keys_joined o] is [Object.keys(res.body).join(", ")],
    [field_text k v] is [`k=${v}`],
    [got_type b] is [`got ${typeof res.body}: ${String(res.body).slice(0, 200)}`],
    [agent_text num] is [`Agent ${num}`]. *)
Record texts := Texts {
  got_status : Z -> jsstring;
  stringify_300 : JSON -> jsstring;
  keys_joined : JSON -> jsstring;
  field_text : string -> JSON -> jsstring;
  got_type : reply_body -> jsstring;
  agent_text : option Z -> jsstring
}.

(** [typeof res.body === "object" && res.body !== null]: objects and
    arrays. *)
Definition object_like (b : reply_body) : option JSON :=
  match b with
  | Parsed (JObj fields) => Some (JObj fields)
  | Parsed (JArr items) => Some (JArr items)
  | _ => None
  end.

(** [k in o], for the keys the tests ask for; neither [Object.prototype]
    nor [Array.prototype] defines any of them. *)
Definition is_in (k : string) (o : JSON) : bool :=
  match o with
  | JObj fields => match assoc (lit k) fields with Some _ => true | None => false end
  | _ => false
  end.

(** [o.k], for the same keys. *)
Definition get (k : string) (o : JSON) : value :=
  match o with
  | JObj fields => assoc (lit k) fields
  | _ => None
  end.

(** [typeof v === "number"]. *)
Definition is_number (v : JSON) : bool :=
  match v with JNum _ => true | JInf _ => true | _ => false end.

(** The checks of test 1 on a response. *)
Definition checks1 (t : texts) (res : reply) : list check :=
  Check "HTTP status is 200" (Z.eqb (status res) 200) (got_status t (status res))
  :: match object_like (body res) with
     | Some o =>
         [ Check "Response has status field" (is_in "status" o) (stringify_300 t o);
           Check "Response has scan_result_id or equivalent"
                 (is_in "scan_result_id" o || is_in "scanResultId" o || is_in "result_id" o)
                 (keys_joined t o) ]
         ++ match get "risk_score" o with
            | Some v => [ Check "risk_score is a number" (is_number v)
                                (field_text t "risk_score" v) ]
            | None => []
            end
     | None => [ Check "Response is JSON object" false (got_type t (body res)) ]
     end.

(** The checks of test 2. *)
Definition checks2 (t : texts) (res : reply) : list check :=
  Check "HTTP status is 200" (Z.eqb (status res) 200) (got_status t (status res))
  :: match object_like (body res) with
     | Some o =>
         [ Check "Response has status field" (is_in "status" o) (stringify_300 t o);
           Check "Response has vulnerability count fields"
                 (is_in "vulnerabilities_found" o || is_in "total" o
                  || is_in "assets_scanned" o)
                 (keys_joined t o) ]
         ++ match get "vulnerabilities_found" o with
            | Some v => [ Check "vulnerabilities_found is a number" (is_number v)
                                (field_text t "vulnerabilities_found" v) ]
            | None => []
            end
     | None => [ Check "Response is JSON object" false (got_type t (body res)) ]
     end.

(** The checks of test 3. *)
Definition checks3 (t : texts) (res : reply) : list check :=
  Check "HTTP status is 200" (Z.eqb (status res) 200) (got_status t (status res))
  :: match object_like (body res) with
     | Some o =>
         [ Check "Response has status field" (is_in "status" o) (stringify_300 t o);
           Check "Response has compliance fields"
                 (is_in "compliance_score" o || is_in "gaps_found" o
                  || is_in "policies_analyzed" o)
                 (keys_joined t o) ]
     | None => [ Check "Response is JSON object" false (got_type t (body res)) ]
     end.

(** What one run meets outside the program.  [type_error] is the message of
    the TypeError of [undefined.replace]; [loadPayload dir] is the parsed
    test-payload.json of an agent, or the message of the error thrown;
    [httpPost url payload key timeout] resolves with a reply or rejects
    with an error message, [key] being [cfg.WEBHOOK_API_KEY] and [timeout]
    [cfg.TEST_TIMEOUT_MS] as configured. *)
Record world := World {
  type_error : jsstring;
  loadPayload : string -> jsstring + JSON;
  httpPost : jsstring -> JSON -> option jsstring -> option jsstring -> jsstring + reply
}.

(** [test.run(cfg)] up to the checks: the reply, or the message of what was
    thrown on the way. *)
Definition request_of (w : world) (cfg : object) (path_key dir : string)
  : jsstring + reply :=
  match buildUrl cfg (own_property (lit path_key) cfg) with
  | None => inl (type_error w)
  | Some url =>
      match loadPayload w dir with
      | inl message => inl message
      | inr payload =>
          httpPost w url payload (own_property (lit "WEBHOOK_API_KEY") cfg)
                   (own_property (lit "TEST_TIMEOUT_MS") cfg)
      end
  end.

(** The value of [test.run(cfg)]: agent and checks, or the message of the
    error. *)
Definition run_value := (jsstring + (jsstring * list check))%type.

Definition run1 (t : texts) (w : world) (cfg : object) : run_value :=
  match request_of w cfg "AGENT1_WEBHOOK_PATH" "agent-1-security-scanner" with
  | inl message => inl message
  | inr res => inr (lit "Agent 1", checks1 t res)
  end.

Definition run2 (t : texts) (w : world) (cfg : object) : run_value :=
  match request_of w cfg "AGENT2_WEBHOOK_PATH" "agent-2-vulnerability-assessment" with
  | inl message => inl message
  | inr res => inr (lit "Agent 2", checks2 t res)
  end.

Definition run3 (t : texts) (w : world) (cfg : object) : run_value :=
  match request_of w cfg "AGENT3_WEBHOOK_PATH" "agent-3-compliance" with
  | inl message => inl message
  | inr res => inr (lit "Agent 3", checks3 t res)
  end.

(** [tests[num]], [num] being what [parseInt] returned ([None]: NaN). *)
Definition tests (num : option Z) : option (texts -> world -> object -> run_value) :=
  match num with
  | Some 1%Z => Some run1
  | Some 2%Z => Some run2
  | Some 3%Z => Some run3
  | _ => None
  end.

Record result := Result { agent : jsstring; passed : bool; checks : list check }.

(** [runTest(num, cfg)]. *)
Definition runTest (t : texts) (w : world) (num : option Z) (cfg : object) : result :=
  match tests num with
  | None => Result (agent_text t num) false []
  | Some run =>
      match run t w cfg with
      | inr (a, cs) => Result a (forallb pass cs) cs
      | inl message =>
          Result (agent_text t num) false [ Check "Request succeeded" false message ]
      end
  end.

(** [args[args.indexOf("--agent") + 1]]: what follows the first "--agent",
    when there is one and something follows it. *)
Fixpoint after_agent_flag (args : list jsstring) : option jsstring :=
  match args with
  | [] => None
  | a :: rest =>
      if str_eqb a (lit "--agent")
      then match rest with b :: _ => Some b | [] => None end
      else after_agent_flag rest
  end.

(** [agentsToRun]; an empty argument after the flag is falsy. *)
Definition agentsToRun (parseInt : jsstring -> option Z) (args : list jsstring)
  : list (option Z) :=
  match after_agent_flag args with
  | Some (c :: r) => [ parseInt (c :: r) ]
  | _ => [ Some 1%Z; Some 2%Z; Some 3%Z ]
  end.

(** The runs of [main], one after the other; the [i]-th run meets the world
    [w i]. *)
Fixpoint run_all (t : texts) (w : nat -> world) (i : nat) (nums : list (option Z))
         (cfg : object) : list result :=
  match nums with
  | [] => []
  | num :: rest => runTest t (w i) num cfg :: run_all t w (S i) rest cfg
  end.

(** The status [main] exits with; [file] as for [loadConfig]. *)
Definition main (t : texts) (w : nat -> world) (parseInt : jsstring -> option Z)
           (file : option jsstring) (args : list jsstring) : Z :=
  match loadConfig file with
  | None => 1%Z
  | Some cfg =>
      if forallb passed (run_all t w 0 (agentsToRun parseInt args) cfg) then 0%Z else 1%Z
  end.

End AgentTests.

(* ====================================================================== *)
(** ** Further vocabulary: the end-to-end runner *)
(* ====================================================================== *)

(** A reply with status 200 whose body is a JSON object that has a status,
    one of the keys [one_of] and, when it has the key [numeric], a number
    under it. *)
Definition reply_ok (res : AgentTests.reply) (one_of : list string)
           (numeric : option string) : Prop :=
  AgentTests.status res = 200%Z /\
  exists fields,
    AgentTests.body res = AgentTests.Parsed (JObj fields) /\
    assoc (lit "status") fields <> None /\
    (exists k, In k one_of /\ assoc (lit k) fields <> None) /\
    (forall k v, numeric = Some k -> assoc (lit k) fields = Some v ->
                 (exists q, v = JNum q) \/ (exists n, v = JInf n)).

(** What each agent's test asks of the configuration, of the payload
    directory and of the reply. *)
Definition agent_table : list (option Z * (string * string * list string * option string)) :=
  [ (Some 1%Z, ("AGENT1_WEBHOOK_PATH", "agent-1-security-scanner",
                ["scan_result_id"; "scanResultId"; "result_id"], Some "risk_score"));
    (Some 2%Z, ("AGENT2_WEBHOOK_PATH", "agent-2-vulnerability-assessment",
                ["vulnerabilities_found"; "total"; "assets_scanned"],
                Some "vulnerabilities_found"));
    (Some 3%Z, ("AGENT3_WEBHOOK_PATH", "agent-3-compliance",
                ["compliance_score"; "gaps_found"; "policies_analyzed"], None)) ].

(** The run of agent [num] in the world [w] got a reply that is in order. *)
Definition agent_in_order (w : AgentTests.world) (cfg : RunTests.object)
           (num : option Z) : Prop :=
  exists path_key dir one_of numeric res,
    In (num, (path_key, dir, one_of, numeric)) agent_table /\
    AgentTests.request_of w cfg path_key dir = inr res /\
    reply_ok res one_of numeric.

Module RunnerSamples.

Definition plain_texts : AgentTests.texts :=
  AgentTests.Texts (fun _ => lit "got") (fun _ => lit "{}") (fun _ => lit "keys")
                   (fun _ _ => lit "field") (fun _ => lit "got type")
                   (fun _ => lit "Agent").

(** A world in which every request is answered 200 with a full object. *)
Definition good_reply : AgentTests.reply :=
  AgentTests.Reply 200 (AgentTests.Parsed
    (JObj [ (lit "status", JStr (lit "completed"));
            (lit "scan_result_id", JStr (lit "r1"));
            (lit "risk_score", JNum (42 # 1)%Q) ])).

Definition good_world : AgentTests.world :=
  AgentTests.World (lit "Cannot read properties of undefined")
                   (fun _ => inr (JObj []))
                   (fun _ _ _ _ => inr good_reply).

Definition seven (_ : jsstring) : option Z := Some 7%Z.

Definition file_without_base : jsstring := lit "WEBHOOK_API_KEY=k".

End RunnerSamples.

(** A compliance scan request with a null framework and a null client. *)
Module ComplianceSample.

Definition body : JSON :=
  JObj [ (lit "scanId", JStr (lit "scan-2"));
         (lit "scanType", JStr (lit "compliance"));
         (lit "target", JStr (lit "example.com"));
         (lit "clientId", JNull);
         (lit "framework", JNull) ].

Definition e : ScanRoute.env :=
  ScanRoute.Env None None (Some (lit "https://n8n.example/agent3"))
    None false (lit "Unexpected token") (lit "Cannot read properties of null")
    (lit "Cannot convert object to primitive value")
    (fun _ => lit "0") (fun _ => lit "500") (fun _ => lit "{}")
    (fun _ _ => ScanRoute.FetchRejects (lit "fetch failed"))
    (lit "t0") (lit "t1") (lit "t2").

Definition rq : ScanRoute.request := ScanRoute.Request (lit "POST") (Some body).

Definition sent : JSON :=
  JObj [ (lit "client_id", JNull);
         (lit "framework", JStr (lit "HIPAA"));
         (lit "policy_files", JArr []);
         (lit "scanId", JStr (lit "scan-2"));
         (lit "timestamp", JStr (lit "t1")) ].

End ComplianceSample.

(* ====================================================================== *)
(** ** Facts about strings, the rewriter and ORDER BY *)
(* ====================================================================== *)


Lemma str_eqb_refl (a : jsstring) : str_eqb a a = true.
Proof.
  induction a as [|x a IH]; simpl; [reflexivity|].
  now rewrite N.eqb_refl, IH.
Qed.

Lemma str_eqb_eq (a b : jsstring) : str_eqb a b = true <-> a = b.
Proof.
  split; [|intros ->; apply str_eqb_refl].
  revert b; induction a as [|x a IH]; intros [|y b]; simpl; try discriminate; auto.
  intros H. apply andb_true_iff in H as [Hx Hr].
  apply N.eqb_eq in Hx. apply IH in Hr. now subst.
Qed.

Lemma str_eqb_sym (a b : jsstring) : str_eqb a b = str_eqb b a.
Proof.
  destruct (str_eqb a b) eqn:E.
  - apply str_eqb_eq in E. subst. symmetry. apply str_eqb_refl.
  - destruct (str_eqb b a) eqn:E'; [|reflexivity].
    apply str_eqb_eq in E'. subst. now rewrite str_eqb_refl in E.
Qed.

Section AppendOnly.
Variable row : Type.
Implicit Types (t : table row) (st : statement row).

Lemma exec_append_only t s st t' :
  append_only row (rules t) ->
  exec s st t = inr t' ->
  rules t' = rules t /\ exists extra, rows t' = rows t ++ extra.
Proof.
  intros (Hu & Hd & Hi). unfold exec.
  destruct st as [r|set w|w]; rewrite ?Hu, ?Hd, ?Hi; simpl.
  - unfold exec_plain. simpl.
    destruct (negb _); [discriminate|].
    destruct (rls_passes _ _ _ _); [|discriminate].
    destruct (constraints _ _ _); [discriminate|].
    intros [= <-]. simpl. split; [reflexivity|]. now exists [r].
  - intros [= <-]. split; [reflexivity|]. exists []. now rewrite app_nil_r.
  - intros [= <-]. split; [reflexivity|]. exists []. now rewrite app_nil_r.
Qed.

Lemma exec_script_append_only script : forall t,
  append_only row (rules t) ->
  exists extra, rows (exec_script script t) = rows t ++ extra.
Proof.
  induction script as [|[s st] script IH]; intros t Ht; simpl.
  - exists []. now rewrite app_nil_r.
  - destruct (exec s st t) as [e|t'] eqn:E.
    + now apply IH.
    + apply exec_append_only in E as [Hr [x Hx]]; [|exact Ht].
      destruct (IH t') as [y Hy]; [now rewrite Hr|].
      exists (x ++ y). now rewrite Hy, Hx, app_assoc.
Qed.

Lemma exec_insert_inv t s r t' :
  append_only row (rules t) ->
  exec s (Insert r) t = inr t' ->
  t' = with_rows t (rows t ++ [r]) /\ constraints t (rows t) r = None.
Proof.
  intros (_ & _ & Hi). unfold exec. rewrite Hi. simpl. unfold exec_plain. simpl.
  destruct (negb _); [discriminate|].
  destruct (rls_passes _ _ _ _); [|discriminate].
  destruct (constraints _ _ _); [discriminate|].
  now intros [= <-].
Qed.
End AppendOnly.

Lemma sw_event_log_append_only : append_only event sw_event_log_rules.
Proof. repeat split. Qed.

Lemma sw_event_artifacts_append_only : append_only artifact sw_event_artifacts_rules.
Proof. repeat split. Qed.

Lemma find_app_some {A} (p : A -> bool) (l extra : list A) (x : A) :
  find p l = Some x -> find p (l ++ extra) = Some x.
Proof.
  induction l as [|y l IH]; simpl; [discriminate|].
  destruct (p y); auto.
Qed.

Lemma find_fresh_last {A} (p : A -> bool) (l : list A) (x : A) :
  existsb p l = false -> p x = true -> find p (l ++ [x]) = Some x.
Proof.
  induction l as [|y l IH]; simpl; intros H Hx.
  - now rewrite Hx.
  - apply orb_false_iff in H as [Hy Hl]. rewrite Hy. auto.
Qed.

Lemma event_constraints_fresh (rs : list event) (e : event) :
  sw_event_log_constraints rs e = None ->
  existsb (fun x => uuid_eqb (id x) (id e)) rs = false.
Proof.
  unfold sw_event_log_constraints.
  destruct (duration_ms e) as [d|]; [destruct (int4_ok d)|];
    destruct (existsb _ rs); congruence.
Qed.

Lemma artifact_constraints_fresh (log : list event) (rs : list artifact) (a : artifact) :
  sw_event_artifacts_constraints log rs a = None ->
  existsb (fun x => uuid_eqb (artifact_id x) (artifact_id a)) rs = false.
Proof.
  unfold sw_event_artifacts_constraints.
  destruct (match size_bytes a with Some z => negb (int4_ok z) | None => false end);
    [discriminate|].
  destruct (existsb _ rs); [discriminate|reflexivity].
Qed.

(* ====================================================================== *)
(** ** C1: the ledger and the artifact table are append-only *)
(* ====================================================================== *)

(** C1.  Once an event (an artifact) has been appended, every later UPDATE
    or DELETE issued by any session, privileged or not, leaves the table as
    it is, and after any sequence of later statements reading the row back
    by its id gives exactly the row that was written. *)
Theorem C1_append_only
  (grants : db_role -> command -> bool) (l : list event)
  (s0 : session) (e : event) (t' : table event)
  (grants_a : db_role -> command -> bool) (log : list event) (la : list artifact)
  (s1 : session) (a : artifact) (ta' : table artifact)
  (Happend : exec s0 (Insert e) (sw_event_log grants l) = inr t')
  (Hattach : exec s1 (Insert a) (sw_event_artifacts grants_a log la) = inr ta') :
  ((forall s set w, exec s (Update set w) t' = inr t') /\
   (forall s w, exec s (Delete w) t' = inr t') /\
   (forall script, find_event (id e) (rows (exec_script script t')) = Some e))
  /\
  ((forall s set w, exec s (Update set w) ta' = inr ta') /\
   (forall s w, exec s (Delete w) ta' = inr ta') /\
   (forall script,
      find_artifact (artifact_id a) (rows (exec_script script ta')) = Some a)).
Proof.
  split.
  - apply exec_insert_inv in Happend as [-> Hc]; [|apply sw_event_log_append_only].
    repeat split; try reflexivity.
    intros script.
    destruct (@exec_script_append_only event script
                (with_rows (sw_event_log grants l) (rows (sw_event_log grants l) ++ [e])))
      as [extra ->]; [apply sw_event_log_append_only|].
    apply find_app_some. simpl. apply find_fresh_last.
    + now apply event_constraints_fresh.
    + apply str_eqb_refl.
  - apply exec_insert_inv in Hattach as [-> Hc]; [|apply sw_event_artifacts_append_only].
    repeat split; try reflexivity.
    intros script.
    destruct (@exec_script_append_only artifact script
                (with_rows (sw_event_artifacts grants_a log la)
                           (rows (sw_event_artifacts grants_a log la) ++ [a])))
      as [extra ->]; [apply sw_event_artifacts_append_only|].
    apply find_app_some. simpl. apply find_fresh_last.
    + now apply (artifact_constraints_fresh log).
    + apply str_eqb_refl.
Qed.

(* ====================================================================== *)
(** ** C2: required fields *)
(* ====================================================================== *)


Lemma get_property (body : JSON) (k : jsstring) :
  body <> JNull -> get body k = Normal (property body k).
Proof. intros H. destruct body; simpl; try reflexivity. now elim H. Qed.

Lemma invalid_required_iff (body : JSON) (k : jsstring) :
  invalid_required (property body k) = true <-> missing_or_blank body k.
Proof.
  unfold missing_or_blank, invalid_required.
  destruct (property body k) as [[| b | q | n | s | l | l]|]; simpl;
    rewrite ?orb_true_r; try tauto.
  destruct s as [|c s]; simpl; [tauto|].
  destruct (trim (c :: s)); simpl; split; congruence.
Qed.

Lemma validate_required_cases (body : JSON) (fields : list jsstring) :
  body <> JNull ->
  (validate_required body fields = Normal tt /\
   Forall (fun f => invalid_required (property body f) = false) fields)
  \/
  (exists f, In f fields /\ invalid_required (property body f) = true /\
     validate_required body fields =
       Return (jsonError (lit "Missing or invalid required field: " ++ f) 400)).
Proof.
  intros Hb. induction fields as [|f fields IH]; simpl.
  - left. split; [reflexivity|constructor].
  - rewrite (get_property f Hb). simpl.
    destruct (invalid_required (property body f)) eqn:E.
    + right. exists f. auto.
    + destruct IH as [[H1 H2]|(g & Hg & Hbad & Hret)].
      * left. split; [exact H1|]. now constructor.
      * right. exists g. auto.
Qed.

Lemma method_post_not_options : str_eqb (lit "POST") (lit "OPTIONS") = false.
Proof. reflexivity. Qed.

(** A POST whose body is any JSON value other than [null] and in which a
    required field is absent, not a string or blank after trimming is
    answered with status 400 and the body
    [{ ok: false, error: "Missing or invalid required field: <f>" }], where
    [f] is a required field that is indeed missing or blank; the ledger is
    left as it was, so no timeline changes. *)
Lemma required_fields_rejected
  (e : env) (body : JSON) (t : table event) (k : jsstring)
  (Hbody : body <> JNull)
  (Hk : In k REQUIRED_FIELDS)
  (Hbad : missing_or_blank body k) :
  exists f resp,
    In f REQUIRED_FIELDS /\ missing_or_blank body f /\
    resp = jsonError (lit "Missing or invalid required field: " ++ f) 400 /\
    payload resp = Some (JObj [(lit "ok", JBool false);
                               (lit "error", JStr (lit "Missing or invalid required field: " ++ f))]) /\
    client_error resp /\
    handler e (Request (lit "POST") (Some body)) t = (Return resp, t) /\
    (forall text view,
       trace_timeline (rows (snd (handler e (Request (lit "POST") (Some body)) t))) text view
       <-> trace_timeline (rows t) text view).
Proof.
  destruct (validate_required_cases REQUIRED_FIELDS Hbody) as [[_ Hall]|(f & Hf & Hinv & Hret)].
  - rewrite Forall_forall in Hall. specialize (Hall k Hk).
    apply invalid_required_iff in Hbad. congruence.
  - assert (Hh : handler e (Request (lit "POST") (Some body)) t
                 = (Return (jsonError (lit "Missing or invalid required field: " ++ f) 400), t)).
    { unfold handler. cbn [method json]. rewrite method_post_not_options, str_eqb_refl.
      cbn [negb]. rewrite Hret. reflexivity. }
    exists f, (jsonError (lit "Missing or invalid required field: " ++ f) 400).
    split; [exact Hf|]. split; [now apply invalid_required_iff|].
    split; [reflexivity|]. split; [reflexivity|].
    split; [unfold client_error; simpl; lia|].
    split; [exact Hh|].
    intros text view. rewrite Hh. reflexivity.
Qed.

(** C2, at the body [null].  The JSON value [null] is a body in which
    every required field is absent, yet the handler does not answer it
    with a validation error: reading [body[field]] throws, so the request
    ends in an uncaught exception (a server error), the ledger untouched. *)
Theorem C2_null_body_throws (e : env) (t : table event) :
  Forall (missing_or_blank JNull) REQUIRED_FIELDS /\
  handler e (Request (lit "POST") (Some JNull)) t = (Throw, t) /\
  (forall resp, handler e (Request (lit "POST") (Some JNull)) t <> (Return resp, t)).
Proof.
  split; [repeat constructor|]. split; [reflexivity|].
  intros resp. cbn. discriminate.
Qed.

(* ====================================================================== *)
(** ** C3: the UUID form of trace_id and its lower-case normal form *)
(* ====================================================================== *)


Lemma canonicalize_lower (c : code_unit) :
  canonicalize true (lower_unit c) = canonicalize true c.
Proof.
  unfold canonicalize, lower_unit. simpl.
  destruct (N.leb 65 c) eqn:A; destruct (N.leb c 90) eqn:B; simpl; try reflexivity.
  apply N.leb_le in A. apply N.leb_le in B.
  replace (N.leb 97 (c + 32)) with true by (symmetry; apply N.leb_le; lia).
  replace (N.leb (c + 32) 122) with true by (symmetry; apply N.leb_le; lia).
  replace (N.leb 97 c) with false by (symmetry; apply N.leb_gt; lia).
  simpl. lia.
Qed.

Lemma lower_unit_idem (c : code_unit) : lower_unit (lower_unit c) = lower_unit c.
Proof.
  unfold lower_unit.
  destruct (N.leb 65 c) eqn:A; destruct (N.leb c 90) eqn:B; simpl; rewrite ?A, ?B; simpl;
    try reflexivity.
  apply N.leb_le in A.
  replace (N.leb (c + 32) 90) with false by (symmetry; apply N.leb_gt; lia).
  now rewrite andb_false_r.
Qed.

Lemma toLowerCase_idem (s : jsstring) : toLowerCase (toLowerCase s) = toLowerCase s.
Proof.
  unfold toLowerCase. rewrite map_map. apply map_ext. apply lower_unit_idem.
Qed.

Lemma char_matches_lower (cls : list class_atom) (c : code_unit) :
  char_matches true cls (lower_unit c) = char_matches true cls c.
Proof. unfold char_matches. now rewrite canonicalize_lower. Qed.

Lemma match_term_lower (cls : list class_atom) (n : nat) : forall s,
  match_term true cls n (toLowerCase s) = option_map toLowerCase (match_term true cls n s).
Proof.
  induction n as [|n IH]; intros s; simpl; [reflexivity|].
  destruct s as [|c r]; simpl; [reflexivity|].
  rewrite char_matches_lower. destruct (char_matches true cls c); [apply IH|reflexivity].
Qed.

Lemma match_terms_lower (ts : list term) : forall s,
  match_terms true ts (toLowerCase s) = match_terms true ts s.
Proof.
  induction ts as [|t ts IH]; intros s; simpl.
  - now destruct s.
  - rewrite match_term_lower. destruct (match_term true (atoms t) (count t) s); simpl; auto.
Qed.

Lemma UUID_RE_lower (s : jsstring) : test UUID_RE (toLowerCase s) = test UUID_RE s.
Proof. apply match_terms_lower. Qed.

Lemma uuid_in_UUID_RE (s : jsstring) :
  uuid_in s = if test UUID_RE s then Some (toLowerCase s) else None.
Proof. reflexivity. Qed.

Lemma uuid_in_lower (s : jsstring) : uuid_in (toLowerCase s) = uuid_in s.
Proof.
  rewrite !uuid_in_UUID_RE, UUID_RE_lower, toLowerCase_idem. reflexivity.
Qed.

Lemma match_term_spec (ic : bool) (cls : list class_atom) (n : nat) : forall s r,
  match_term ic cls n s = Some r <->
  exists g, s = g ++ r /\ List.length g = n /\
            Forall (fun c => char_matches ic cls c = true) g.
Proof.
  induction n as [|n IH]; intros s r; simpl.
  - split.
    + intros [= ->]. exists []. auto.
    + intros (g & -> & Hl & _). destruct g; [reflexivity|discriminate].
  - destruct s as [|c s'].
    + split; [discriminate|]. intros (g & Hs & Hl & _).
      destruct g; [discriminate|discriminate].
    + destruct (char_matches ic cls c) eqn:E.
      * rewrite IH. split.
        -- intros (g & -> & Hl & Hg). exists (c :: g). simpl. auto.
        -- intros (g & Hs & Hl & Hg). destruct g as [|c' g]; [discriminate|].
           simpl in Hs. injection Hs as <- ->. injection Hl as Hl.
           inversion Hg; subst. exists g. auto.
      * split; [discriminate|]. intros (g & Hs & Hl & Hg).
        destruct g as [|c' g]; [discriminate|]. simpl in Hs. injection Hs as <- ->.
        inversion Hg; subst. congruence.
Qed.

Lemma hex_class_matches (c : code_unit) :
  char_matches true [ClassRange 48 57; ClassRange 97 102]%N c = is_hex_digit c.
Proof.
  unfold char_matches, is_hex_digit.
  destruct (N.leb 128 c) eqn:Big.
  - apply N.leb_le in Big.
    assert (Hc : canonicalize true c = c).
    { unfold canonicalize. simpl.
      replace (N.leb c 122) with false by (symmetry; apply N.leb_gt; lia).
      now rewrite andb_false_r. }
    rewrite Hc.
    transitivity false.
    + apply not_true_is_false. intros H. apply existsb_exists in H as (a & Ha & Heq).
      apply N.eqb_eq in Heq. vm_compute in Ha.
      repeat (destruct Ha as [<-|Ha]; [vm_compute in Heq; lia|]). exact Ha.
    + symmetry. apply not_true_is_false. intros H.
      repeat (apply orb_true_iff in H as [H|H]);
        apply andb_true_iff in H as [H1 H2]; apply N.leb_le in H1, H2; lia.
  - apply N.leb_gt in Big.
    assert (Hn : exists n, (n < 128)%nat /\ c = N.of_nat n).
    { exists (N.to_nat c). split; [lia|]. now rewrite N2Nat.id. }
    destruct Hn as (n & Hn & ->).
    do 128 (destruct n as [|n]; [vm_compute; reflexivity|]). lia.
Qed.

Lemma dash_class_matches (c : code_unit) :
  char_matches true [ClassChar 45%N] c = true -> c = 45%N.
Proof.
  unfold char_matches. cbn [flat_map members app existsb].
  change (canonicalize true 45%N) with 45%N.
  rewrite orb_false_r. intros H. apply N.eqb_eq in H.
  unfold canonicalize in H. cbn [andb] in H.
  destruct (N.leb 97 c) eqn:A; destruct (N.leb c 122) eqn:B; cbn [andb] in H;
    try (symmetry; exact H).
  apply N.leb_le in A. lia.
Qed.

Lemma match_terms_cons (ic : bool) (t : term) (ts : list term) (s : jsstring) :
  match_terms ic (t :: ts) s = true <->
  exists g r, s = g ++ r /\ List.length g = count t /\
              Forall (fun c => char_matches ic (atoms t) c = true) g /\
              match_terms ic ts r = true.
Proof.
  simpl. destruct (match_term ic (atoms t) (count t) s) as [r|] eqn:E.
  - apply match_term_spec in E as (g & -> & Hl & Hg). split.
    + intros H. exists g, r. auto.
    + intros (g' & r' & Hs & Hl' & Hg' & Hr').
      assert (g' = g /\ r' = r) as [-> ->]; [|exact Hr'].
      clear - Hs Hl Hl'. rewrite <- Hl' in Hl. clear Hl'. revert g' Hs Hl.
      induction g as [|x g IH]; intros [|y g'] Hs Hl; simpl in *; try discriminate; auto.
      injection Hs as -> Hs. injection Hl as Hl. destruct (IH g' Hs Hl) as [-> ->]. auto.
  - split; [discriminate|]. intros (g & r & -> & Hl & Hg & _).
    assert (H : match_term ic (atoms t) (count t) (g ++ r) = Some r)
      by (apply match_term_spec; exists g; auto).
    congruence.
Qed.

Lemma match_terms_nil (ic : bool) (s : jsstring) :
  match_terms ic [] s = true <-> s = [].
Proof. destruct s; simpl; split; congruence. Qed.

Lemma dash_group (g : jsstring) :
  List.length g = 1 /\ Forall (fun c => char_matches true [ClassChar 45%N] c = true) g
  <-> g = [45%N].
Proof.
  split.
  - intros [Hl Hg]. destruct g as [|c [|d g]]; try discriminate.
    inversion Hg; subst. f_equal. now apply dash_class_matches.
  - intros ->. split; [reflexivity|]. constructor; [reflexivity|constructor].
Qed.

Lemma hex_group (g : jsstring) :
  Forall (fun c => char_matches true [ClassRange 48 57; ClassRange 97 102]%N c = true) g
  <-> Forall (fun c => is_hex_digit c = true) g.
Proof.
  split; intros H; eapply Forall_impl; try exact H; intros c Hc; simpl in *;
    now rewrite hex_class_matches in *.
Qed.

(** [UUID_RE] accepts exactly the 8-4-4-4-12 hexadecimal form, in either
    case of the letters. *)
Lemma UUID_RE_canonical (s : jsstring) :
  test UUID_RE s = true <-> canonical_uuid_form s.
Proof.
  unfold test, UUID_RE, canonical_uuid_form. cbn [pattern ignoreCase].
  split.
  - intros H.
    apply match_terms_cons in H as (g1 & r1 & -> & L1 & F1 & H).
    apply match_terms_cons in H as (d1 & r2 & -> & M1 & D1 & H).
    apply match_terms_cons in H as (g2 & r3 & -> & L2 & F2 & H).
    apply match_terms_cons in H as (d2 & r4 & -> & M2 & D2 & H).
    apply match_terms_cons in H as (g3 & r5 & -> & L3 & F3 & H).
    apply match_terms_cons in H as (d3 & r6 & -> & M3 & D3 & H).
    apply match_terms_cons in H as (g4 & r7 & -> & L4 & F4 & H).
    apply match_terms_cons in H as (d4 & r8 & -> & M4 & D4 & H).
    apply match_terms_cons in H as (g5 & r9 & -> & L5 & F5 & H).
    apply match_terms_nil in H as ->.
    cbn [atoms count] in *.
    assert (E1 : d1 = [45%N]) by (apply dash_group; auto).
    assert (E2 : d2 = [45%N]) by (apply dash_group; auto).
    assert (E3 : d3 = [45%N]) by (apply dash_group; auto).
    assert (E4 : d4 = [45%N]) by (apply dash_group; auto).
    subst. exists g1, g2, g3, g4, g5. rewrite app_nil_r.
    repeat split; auto.
    apply hex_group in F1, F2, F3, F4, F5.
    repeat (apply Forall_app; split); assumption.
  - intros (g1 & g2 & g3 & g4 & g5 & -> & L1 & L2 & L3 & L4 & L5 & F).
    apply Forall_app in F as [F1 F]. apply Forall_app in F as [F2 F].
    apply Forall_app in F as [F3 F]. apply Forall_app in F as [F4 F5].
    apply hex_group in F1, F2, F3, F4, F5.
    apply match_terms_cons. exists g1, ([45%N] ++ g2 ++ [45%N] ++ g3 ++ [45%N] ++ g4 ++ [45%N] ++ g5).
    repeat split; auto.
    apply match_terms_cons. exists [45%N], (g2 ++ [45%N] ++ g3 ++ [45%N] ++ g4 ++ [45%N] ++ g5).
    repeat split; [apply dash_group; reflexivity|].
    apply match_terms_cons. exists g2, ([45%N] ++ g3 ++ [45%N] ++ g4 ++ [45%N] ++ g5).
    repeat split; auto.
    apply match_terms_cons. exists [45%N], (g3 ++ [45%N] ++ g4 ++ [45%N] ++ g5).
    repeat split; [apply dash_group; reflexivity|].
    apply match_terms_cons. exists g3, ([45%N] ++ g4 ++ [45%N] ++ g5).
    repeat split; auto.
    apply match_terms_cons. exists [45%N], (g4 ++ [45%N] ++ g5).
    repeat split; [apply dash_group; reflexivity|].
    apply match_terms_cons. exists g4, ([45%N] ++ g5).
    repeat split; auto.
    apply match_terms_cons. exists [45%N], g5.
    repeat split; [apply dash_group; reflexivity|].
    apply match_terms_cons. exists g5, [].
    rewrite app_nil_r. repeat split; auto.
Qed.


Lemma build_row_property (body : JSON) :
  body <> JNull -> build_row body = Normal (row_of body).
Proof.
  intros H. unfold build_row. rewrite !(get_property _ H). reflexivity.
Qed.

Lemma insert_log_inv e r grants l ev t' :
  insert e r (sw_event_log grants l) = inr (ev, t') ->
  exists tid, uuid_in (row_trace_id r) = Some tid /\ ev = event_of e r tid /\
              t' = sw_event_log grants (l ++ [ev]) /\ fault e = None /\
              sw_event_log_constraints l ev = None.
Proof.
  unfold insert. destruct (fault e); [discriminate|].
  destruct (uuid_in (row_trace_id r)) as [tid|]; [|discriminate].
  fold (event_of e r tid).
  destruct (exec _ _ _) as [x|t''] eqn:E; [discriminate|].
  intros [= <- <-]. apply exec_insert_inv in E as [-> Hc]; [|apply sw_event_log_append_only].
  exists tid. auto.
Qed.

Lemma insert_log_ok e r grants l tid :
  fault e = None -> uuid_in (row_trace_id r) = Some tid ->
  grants service_role INSERT = true ->
  sw_event_log_constraints l (event_of e r tid) = None ->
  insert e r (sw_event_log grants l)
  = inr (event_of e r tid, sw_event_log grants (l ++ [event_of e r tid])).
Proof.
  intros Hf Hu Hg Hc. unfold insert. rewrite Hf, Hu. fold (event_of e r tid).
  unfold exec. cbn. unfold exec_plain. cbn. rewrite Hg. cbn. rewrite Hc. reflexivity.
Qed.

Lemma validate_required_null (fields : list jsstring) :
  fields <> [] -> validate_required JNull fields = Throw.
Proof. destruct fields; [congruence|reflexivity]. Qed.

Lemma handler_created_inv e rq grants l r t' :
  handler e rq (sw_event_log grants l) = (Return r, t') ->
  status_code r = 201%Z ->
  exists body s,
    method rq = lit "POST" /\ json rq = Some body /\ body <> JNull /\
    Forall (fun f => invalid_required (property body f) = false) REQUIRED_FIELDS /\
    property body (lit "trace_id") = Some (JStr s) /\ test UUID_RE s = true /\
    configured e /\ fault e = None /\
    sw_event_log_constraints l (event_of e (row_of body) (toLowerCase s)) = None /\
    r = created (gen_random_uuid e) /\
    t' = sw_event_log grants (l ++ [event_of e (row_of body) (toLowerCase s)]).
Proof.
  unfold handler.
  destruct (str_eqb (method rq) (lit "OPTIONS")); [intros [= <- <-]; discriminate|].
  destruct (str_eqb (method rq) (lit "POST")) eqn:Hm; cbn [negb];
    [|intros [= <- <-]; discriminate].
  apply str_eqb_eq in Hm.
  destruct (json rq) as [body|]; [|intros [= <- <-]; discriminate].
  assert (Hb : body = JNull \/ body <> JNull)
    by (destruct body; [left; reflexivity|right; discriminate..]).
  destruct Hb as [->|Hb]; [cbn; discriminate|].
  destruct (validate_required_cases REQUIRED_FIELDS Hb) as [[Hv Hall]|(f & _ & _ & Hv)];
    rewrite Hv; cbn [bind]; [|intros [= <- <-]; discriminate].
  rewrite (get_property _ Hb). cbn [bind].
  destruct (test UUID_RE (string_of (property body (lit "trace_id")))) eqn:Hre;
    cbn [negb]; [|intros [= <- <-]; discriminate].
  rewrite (build_row_property Hb). cbn [bind].
  destruct (unset (SUPABASE_URL e)) eqn:Hurl; cbn [orb]; [intros [= <- <-]; discriminate|].
  destruct (unset (SUPABASE_SERVICE_ROLE_KEY e)) eqn:Hkey; [intros [= <- <-]; discriminate|].
  destruct (insert e (row_of body) (sw_event_log grants l)) as [x|[ev t'']] eqn:Hins;
    [intros [= <- <-]; discriminate|].
  intros [= <- <-] _.
  apply insert_log_inv in Hins as (tid & Hu & -> & -> & Hf & Hc).
  assert (Hs : exists s, property body (lit "trace_id") = Some (JStr s)).
  { inversion Hall as [|? ? H1 _]; subst. unfold invalid_required in H1.
    destruct (property body (lit "trace_id")) as [[| | | | s | |]|]; try discriminate.
    now exists s. }
  destruct Hs as [s Hs]. rewrite Hs in Hre. cbn [string_of] in Hre.
  assert (Htid : tid = toLowerCase s).
  { cbn [row_of row_trace_id] in Hu. rewrite Hs in Hu. cbn [string_of] in Hu.
    rewrite uuid_in_lower, uuid_in_UUID_RE, Hre in Hu. congruence. }
  subst tid. exists body, s. unfold configured. repeat split; auto.
Qed.

Lemma handler_accepts e body grants l s :
  body <> JNull ->
  Forall (fun f => invalid_required (property body f) = false) REQUIRED_FIELDS ->
  property body (lit "trace_id") = Some (JStr s) -> test UUID_RE s = true ->
  configured e -> fault e = None -> grants service_role INSERT = true ->
  sw_event_log_constraints l (event_of e (row_of body) (toLowerCase s)) = None ->
  accepted e (Request (lit "POST") (Some body)) grants l
           (event_of e (row_of body) (toLowerCase s)).
Proof.
  intros Hb Hall Hs Hre [Hurl Hkey] Hf Hg Hc. unfold accepted, handler.
  cbn [method json]. rewrite method_post_not_options, str_eqb_refl. cbn [negb].
  destruct (validate_required_cases REQUIRED_FIELDS Hb) as [[Hv _]|(f & Hin & Hbad & _)].
  2:{ rewrite Forall_forall in Hall. rewrite (Hall f Hin) in Hbad. discriminate. }
  rewrite Hv. cbn [bind]. rewrite (get_property _ Hb). cbn [bind].
  rewrite Hs. cbn [string_of]. rewrite Hre. cbn [negb].
  rewrite (build_row_property Hb). cbn [bind]. rewrite Hurl, Hkey. cbn [orb].
  rewrite (@insert_log_ok e (row_of body) grants l (toLowerCase s)); auto.
  cbn [row_of row_trace_id]. rewrite Hs. cbn [string_of].
  now rewrite uuid_in_lower, uuid_in_UUID_RE, Hre.
Qed.

(* ====================================================================== *)
(** ** ORDER BY: sorting, filtering and projecting *)
(* ====================================================================== *)

Section OrderByFacts.
Variable A : Type.
Variable leb : A -> A -> bool.
Hypothesis leb_total : forall a b, leb a b = true \/ leb b a = true.
Hypothesis leb_trans : forall a b c, leb a b = true -> leb b c = true -> leb a c = true.

Lemma insert_by_perm (x : A) (l : list A) : Permutation (x :: l) (insert_by leb x l).
Proof.
  induction l as [|y l IH]; simpl; [reflexivity|].
  destruct (leb x y); [reflexivity|].
  rewrite perm_swap. now constructor.
Qed.

Lemma sort_perm (l : list A) : Permutation l (sort leb l).
Proof.
  induction l as [|x l IH]; simpl; [reflexivity|].
  rewrite <- insert_by_perm. now constructor.
Qed.

Lemma insert_by_sorted (x : A) (l : list A) :
  StronglySorted (fun a b => leb a b = true) l ->
  StronglySorted (fun a b => leb a b = true) (insert_by leb x l).
Proof.
  induction 1 as [|y l Hs IH Hy]; simpl.
  - constructor; constructor.
  - destruct (leb x y) eqn:E.
    + constructor; [now constructor|].
      constructor; [exact E|].
      eapply Forall_impl; [|exact Hy]. intros z Hz. simpl in Hz. eauto.
    + constructor; [exact IH|].
      assert (Hyx : leb y x = true) by (destruct (leb_total x y); congruence).
      eapply Permutation_Forall; [apply insert_by_perm|].
      now constructor.
Qed.

Lemma sort_sorted (l : list A) : StronglySorted (fun a b => leb a b = true) (sort leb l).
Proof.
  induction l as [|x l IH]; simpl; [constructor|]. now apply insert_by_sorted.
Qed.

(** The executor [sort] meets the specification of ORDER BY. *)
Lemma sort_ordered_by (l : list A) : ordered_by leb l (sort leb l).
Proof. split; [apply sort_perm|apply sort_sorted]. Qed.
End OrderByFacts.

Lemma Permutation_filter {A} (p : A -> bool) (l l' : list A) :
  Permutation l l' -> Permutation (filter p l) (filter p l').
Proof.
  induction 1 as [|x l l' _ IH|x y l|l l' l'' _ IH1 _ IH2]; simpl.
  - constructor.
  - destruct (p x); [now constructor|exact IH].
  - destruct (p x), (p y); try reflexivity. apply perm_swap.
  - now transitivity (filter p l').
Qed.

Lemma StronglySorted_filter {A} (R : A -> A -> Prop) (p : A -> bool) (l : list A) :
  StronglySorted R l -> StronglySorted R (filter p l).
Proof.
  induction 1 as [|x l Hs IH Hx]; simpl; [constructor|].
  destruct (p x); [|exact IH]. constructor; [exact IH|].
  apply Forall_forall. intros y Hy. apply filter_In in Hy as [Hy _].
  rewrite Forall_forall in Hx. auto.
Qed.

Lemma StronglySorted_weaken {A} (R R' : A -> A -> Prop) (P : A -> Prop) (l : list A) :
  (forall a b, P a -> P b -> R a b -> R' a b) ->
  Forall P l -> StronglySorted R l -> StronglySorted R' l.
Proof.
  intros HR HP Hs. induction Hs as [|x l Hs IH Hx]; [constructor|].
  inversion HP as [|? ? Px Pl]; subst. constructor; [auto|].
  rewrite Forall_forall in *. intros y Hy. auto.
Qed.

Lemma filter_map_comm {A B} (f : A -> B) (p : B -> bool) (l : list A) :
  filter p (map f l) = map f (filter (fun a => p (f a)) l).
Proof.
  induction l as [|x l IH]; simpl; [reflexivity|].
  destruct (p (f x)); simpl; now rewrite IH.
Qed.

Lemma uuid_compare_refl (a : uuid) : uuid_compare a a = Eq.
Proof. induction a as [|x a IH]; simpl; [reflexivity|]. now rewrite N.compare_refl. Qed.

Lemma uuid_compare_eq (a b : uuid) : uuid_compare a b = Eq -> a = b.
Proof.
  revert b; induction a as [|x a IH]; intros [|y b]; simpl; try discriminate; auto.
  destruct (N.compare x y) eqn:E; try discriminate.
  apply N.compare_eq in E. intros H. apply IH in H. now subst.
Qed.

Lemma uuid_compare_antisym (a b : uuid) : uuid_compare b a = CompOpp (uuid_compare a b).
Proof.
  revert b; induction a as [|x a IH]; intros [|y b]; simpl; try reflexivity.
  rewrite (N.compare_antisym x y). destruct (N.compare x y); simpl; auto.
Qed.

Lemma uuid_compare_lt_trans (a b c : uuid) :
  uuid_compare a b = Lt -> uuid_compare b c = Lt -> uuid_compare a c = Lt.
Proof.
  revert b c; induction a as [|x a IH]; intros [|y b] [|z c]; simpl; try discriminate; auto.
  destruct (N.compare x y) eqn:E1; destruct (N.compare y z) eqn:E2; try discriminate.
  - apply N.compare_eq in E1, E2. subst. rewrite N.compare_refl. apply IH.
  - apply N.compare_eq in E1. subst. now rewrite E2.
  - apply N.compare_eq in E2. subst. now rewrite E1.
  - rewrite N.compare_lt_iff in E1, E2.
    assert (H : (x ?= z)%N = Lt) by (apply N.compare_lt_iff; lia). now rewrite H.
Qed.

Lemma timeline_order_total (a b : timeline_row) :
  timeline_order a b = true \/ timeline_order b a = true.
Proof.
  unfold timeline_order. rewrite (uuid_compare_antisym (tl_trace_id a) (tl_trace_id b)).
  destruct (uuid_compare (tl_trace_id a) (tl_trace_id b)); simpl; auto.
  destruct (Z.leb_spec (tl_created_at a) (tl_created_at b)); [auto|].
  right. apply Z.leb_le. lia.
Qed.

Lemma timeline_order_trans (a b c : timeline_row) :
  timeline_order a b = true -> timeline_order b c = true -> timeline_order a c = true.
Proof.
  unfold timeline_order.
  destruct (uuid_compare (tl_trace_id a) (tl_trace_id b)) eqn:E1; try discriminate;
  destruct (uuid_compare (tl_trace_id b) (tl_trace_id c)) eqn:E2; try discriminate.
  - apply uuid_compare_eq in E1, E2. rewrite E1, E2, uuid_compare_refl.
    rewrite !Z.leb_le. lia.
  - apply uuid_compare_eq in E1. rewrite E1, E2. auto.
  - apply uuid_compare_eq in E2. rewrite <- E2, E1. auto.
  - rewrite (uuid_compare_lt_trans _ _ _ E1 E2). auto.
Qed.

Lemma created_at_desc_total (a b : error_row) :
  created_at_desc a b = true \/ created_at_desc b a = true.
Proof. unfold created_at_desc. rewrite !Z.leb_le. lia. Qed.

Lemma created_at_desc_trans (a b c : error_row) :
  created_at_desc a b = true -> created_at_desc b c = true -> created_at_desc a c = true.
Proof. unfold created_at_desc. rewrite !Z.leb_le. lia. Qed.

(** The view can always be evaluated. *)
Lemma v_trace_timeline_run_ok (l : list event) : v_trace_timeline l (v_trace_timeline_run l).
Proof. apply sort_ordered_by; [apply timeline_order_total|apply timeline_order_trans]. Qed.

Lemma errors_since_run_ok clock l minutes :
  sw_event_log_errors_since clock l minutes (sw_event_log_errors_since_run clock l minutes).
Proof. apply sort_ordered_by; [apply created_at_desc_total|apply created_at_desc_trans]. Qed.

(** What a timeline query returns: the rows of the trace, each once, in
    non-decreasing [created_at]. *)
Lemma trace_timeline_inv (l : list event) (text : jsstring) (result : list timeline_row) :
  trace_timeline l text result ->
  exists u, uuid_in text = Some u /\
    Permutation (map timeline_columns (filter (fun e => uuid_eqb (trace_id e) u) l)) result /\
    StronglySorted (fun a b => (tl_created_at a <= tl_created_at b)%Z) result.
Proof.
  intros (u & view & Hu & [Hperm Hsort] & ->). exists u. split; [exact Hu|]. split.
  - rewrite <- (filter_map_comm timeline_columns (fun r => uuid_eqb (tl_trace_id r) u)).
    now apply Permutation_filter.
  - apply StronglySorted_weaken
      with (R := fun a b => timeline_order a b = true)
           (P := fun r => tl_trace_id r = u).
    + intros a b Ha Hb. unfold timeline_order. rewrite Ha, Hb, uuid_compare_refl.
      apply Z.leb_le.
    + apply Forall_forall. intros r Hr. apply filter_In in Hr as [_ Hr].
      now apply str_eqb_eq in Hr.
    + now apply StronglySorted_filter.
Qed.

Lemma accepted_inv e rq grants l ev :
  accepted e rq grants l ev ->
  exists body s,
    method rq = lit "POST" /\ json rq = Some body /\ body <> JNull /\
    Forall (fun f => invalid_required (property body f) = false) REQUIRED_FIELDS /\
    property body (lit "trace_id") = Some (JStr s) /\ test UUID_RE s = true /\
    configured e /\ fault e = None /\
    ev = event_of e (row_of body) (toLowerCase s).
Proof.
  intros H. unfold accepted in H.
  destruct (handler_created_inv _ _ _ _ H eq_refl)
    as (body & s & Hm & Hj & Hb & Hall & Hs & Hre & Hcfg & Hf & _ & _ & Ht).
  exists body, s. repeat split; try assumption; try apply Hcfg.
  injection Ht as Ht. apply app_inv_head in Ht. congruence.
Qed.

Lemma stored_row_in_timeline (l : list event) (ev : event) (text : jsstring)
  (result : list timeline_row) :
  uuid_in text = Some (trace_id ev) ->
  trace_timeline (l ++ [ev]) text result -> In (timeline_columns ev) result.
Proof.
  intros Hu H. apply trace_timeline_inv in H as (u & Hu' & Hperm & _).
  assert (u = trace_id ev) by congruence. subst u.
  eapply Permutation_in; [exact Hperm|].
  apply in_map. apply filter_In. split; [apply in_or_app; right; now left|].
  apply str_eqb_refl.
Qed.

Lemma submission_accepted e body grants l s :
  Forall (fun f => ~ missing_or_blank body f) REQUIRED_FIELDS ->
  property body (lit "trace_id") = Some (JStr s) -> canonical_uuid_form s ->
  configured e -> fault e = None -> grants service_role INSERT = true ->
  sw_event_log_constraints l (event_of e (row_of body) (toLowerCase s)) = None ->
  accepted e (Request (lit "POST") (Some body)) grants l
           (event_of e (row_of body) (toLowerCase s)).
Proof.
  intros Hall Hs Hform Hcfg Hf Hg Hc.
  assert (Hb : body <> JNull) by (intros ->; discriminate).
  apply handler_accepts; auto.
  - eapply Forall_impl; [|exact Hall]. intros f Hf'. simpl in Hf'.
    apply not_true_is_false. intros Hinv. now apply invalid_required_iff in Hinv.
  - now apply UUID_RE_canonical.
Qed.

(** C3.  A submission is accepted only if its trace_id is a string of the
    canonical 8-4-4-4-12 hexadecimal form (letters in either case); the
    stored row then carries the trace_id in lower case, and a timeline
    query by the submitted spelling or by the lower-case one gives the same
    results, each holding the stored row.  Conversely a trace_id of that
    form is accepted whenever nothing else stands in the way (the other
    required fields are valid, the function is configured, the store takes
    the row), and a string trace_id without the form is rejected with
    status 400 and nothing is stored. *)
Theorem C3_trace_id_uuid_normalized
  (e : env) (body : JSON) (grants : db_role -> command -> bool) (l : list event) :
  (forall ev,
     accepted e (Request (lit "POST") (Some body)) grants l ev ->
     exists s,
       property body (lit "trace_id") = Some (JStr s) /\
       canonical_uuid_form s /\
       trace_id ev = toLowerCase s /\
       (forall result, trace_timeline (l ++ [ev]) s result
                       <-> trace_timeline (l ++ [ev]) (toLowerCase s) result) /\
       (forall result, trace_timeline (l ++ [ev]) s result ->
                       In (timeline_columns ev) result) /\
       (exists result, trace_timeline (l ++ [ev]) s result))
  /\
  (forall s,
     property body (lit "trace_id") = Some (JStr s) ->
     canonical_uuid_form s ->
     Forall (fun f => ~ missing_or_blank body f) REQUIRED_FIELDS ->
     configured e -> fault e = None -> grants service_role INSERT = true ->
     sw_event_log_constraints l (event_of e (row_of body) (toLowerCase s)) = None ->
     accepted e (Request (lit "POST") (Some body)) grants l
              (event_of e (row_of body) (toLowerCase s)))
  /\
  (forall s,
     property body (lit "trace_id") = Some (JStr s) ->
     ~ canonical_uuid_form s ->
     exists resp,
       handler e (Request (lit "POST") (Some body)) (sw_event_log grants l)
       = (Return resp, sw_event_log grants l) /\
       status_code resp = 400%Z).
Proof.
  split; [|split].
  - intros ev Hacc.
    apply accepted_inv in Hacc as (body' & s & _ & Hj & _ & _ & Hs & Hre & _ & _ & ->).
    cbn [json] in Hj. injection Hj as <-.
    assert (Hu : uuid_in s = Some (toLowerCase s)) by (now rewrite uuid_in_UUID_RE, Hre).
    exists s. split; [exact Hs|].
    split; [now apply UUID_RE_canonical|]. split; [reflexivity|]. split; [|split].
    + intros result. unfold trace_timeline. now rewrite uuid_in_lower.
    + intros result. now apply stored_row_in_timeline.
    + eexists. exists (toLowerCase s),
        (v_trace_timeline_run (l ++ [event_of e (row_of body) (toLowerCase s)])).
      split; [exact Hu|]. split; [apply v_trace_timeline_run_ok|reflexivity].
  - intros s Hs Hform Hall Hcfg Hf Hg Hc. now apply submission_accepted.
  - intros s Hs Hform.
    assert (Hb : body <> JNull) by (intros ->; discriminate).
    assert (Hre : test UUID_RE s = false).
    { apply not_true_is_false. intros H. now apply UUID_RE_canonical in H. }
    unfold handler. cbn [method json]. rewrite method_post_not_options, str_eqb_refl.
    cbn [negb].
    destruct (validate_required_cases REQUIRED_FIELDS Hb) as [[Hv _]|(f & _ & _ & Hv)];
      rewrite Hv; cbn [bind].
    + rewrite (get_property _ Hb). cbn [bind]. rewrite Hs. cbn [string_of].
      rewrite Hre. cbn [negb]. eexists. split; reflexivity.
    + eexists. split; reflexivity.
Qed.

(* ====================================================================== *)
(** ** C4: the timeline view *)
(* ====================================================================== *)


(** C4, as stated, fails: the view orders by trace_id and created_at only.
    Over two events of one trace with the same created_at, the row with the
    greater id may come first (it does when the executor keeps the storage
    order), and so may the other. *)
Lemma C4_ties_not_broken_by_id :
  trace_timeline_run Samples.tied Samples.trace1
    = Some [timeline_columns Samples.first_written; timeline_columns Samples.second_written] /\
  trace_timeline Samples.tied Samples.trace1
    [timeline_columns Samples.first_written; timeline_columns Samples.second_written] /\
  trace_timeline Samples.tied Samples.trace1
    [timeline_columns Samples.second_written; timeline_columns Samples.first_written] /\
  ~ ties_by_id [timeline_columns Samples.first_written; timeline_columns Samples.second_written].
Proof.
  split; [reflexivity|]. split; [|split].
  - exists Samples.trace1,
      [timeline_columns Samples.first_written; timeline_columns Samples.second_written].
    split; [reflexivity|]. split; [|reflexivity].
    split; [reflexivity|]. repeat constructor.
  - exists Samples.trace1,
      [timeline_columns Samples.second_written; timeline_columns Samples.first_written].
    split; [reflexivity|]. split; [|reflexivity].
    split; [apply perm_swap|]. repeat constructor.
  - intros H. inversion H as [|? ? _ Hall]; subst.
    inversion Hall as [|? ? Hgt _]; subst. now apply Hgt.
Qed.

(** C4, amended.  For every trace id in canonical text form, a timeline
    query has a result, and every result holds exactly the view's row of
    each ledger event carrying that trace id, in non-decreasing created_at;
    the order among rows of equal created_at is left open. *)
Theorem C4_timeline_by_created_at
  (l : list event) (text : jsstring)
  (Hform : canonical_uuid_form text) :
  (exists result, trace_timeline l text result) /\
  (forall result,
     trace_timeline l text result ->
     Permutation
       (map timeline_columns
            (filter (fun e => uuid_eqb (trace_id e) (toLowerCase text)) l))
       result /\
     StronglySorted (fun a b => (tl_created_at a <= tl_created_at b)%Z) result).
Proof.
  apply UUID_RE_canonical in Hform.
  assert (Hu : uuid_in text = Some (toLowerCase text))
    by (now rewrite uuid_in_UUID_RE, Hform).
  split.
  - eexists. exists (toLowerCase text), (v_trace_timeline_run l).
    split; [exact Hu|]. split; [apply v_trace_timeline_run_ok|reflexivity].
  - intros result H. apply trace_timeline_inv in H as (u & Hu' & Hperm & Hsort).
    assert (u = toLowerCase text) by congruence. subst u. auto.
Qed.

(* ====================================================================== *)
(** ** C5: errors within the trailing window *)
(* ====================================================================== *)


Lemma errors_since_filter (clock : timestamptz) (l : list event) (n : Z) :
  filter (fun e => is_true (errors_since_where clock (Some n) e)) l
  = filter (fun e => is_error e && Z.leb (clock - n * 60 * 1000000) (created_at e)) l.
Proof.
  apply filter_ext. intros e.
  unfold errors_since_where, is_error, minutes_interval.
  replace (n * 60 * 1000000)%Z with (n * 60000000)%Z by lia.
  destruct (str_eqb (status e) (lit "error")); simpl;
    destruct (Z.leb (clock - n * 60000000) (created_at e)); reflexivity.
Qed.

Lemma within_window_past (clock : timestamptz) (l : list event) (n : Z) :
  Forall (fun e => (created_at e <= clock)%Z) l ->
  filter (fun e => is_error e && Z.leb (clock - n * 60 * 1000000) (created_at e)) l
  = filter (fun e => is_error e && within_window clock n (created_at e)) l.
Proof.
  intros H. apply filter_ext_in. intros e He.
  rewrite Forall_forall in H. specialize (H e He). unfold within_window.
  replace (Z.leb (created_at e) clock) with true by (symmetry; apply Z.leb_le; lia).
  now rewrite andb_true_r.
Qed.

Lemma errors_since_inv (clock : timestamptz) (l : list event) (a : minutes_arg)
  (result : list error_row) :
  sw_event_log_errors_since clock l a result ->
  Permutation
    (map error_columns
         (filter (fun e => is_true (errors_since_where clock (minutes_value a) e)) l))
    result /\
  StronglySorted (fun x y => (er_created_at y <= er_created_at x)%Z) result.
Proof.
  intros [Hperm Hsort]. split; [exact Hperm|].
  eapply StronglySorted_weaken with (P := fun _ => True); [| |exact Hsort].
  - intros x y _ _ Hxy. now apply Z.leb_le.
  - apply Forall_forall. auto.
Qed.

(** C5.  For every window of [n] minutes the query has a result, and
    every result holds exactly the rows of the events with status error
    created no earlier than [n] minutes before [now()], in non-increasing
    created_at; as the ledger's timestamps never lie after [now()], these are
    the error events created within the [n] minutes that end at [now()].
    Leaving [minutes] out means 15; with the 15 minute window an error event
    created 10 minutes ago is returned and an event created 20 minutes ago
    is not. *)
Theorem C5_error_window_query
  (clock : timestamptz) (l : list event) (n : Z) :
  (exists result, sw_event_log_errors_since clock l (Minutes n) result) /\
  (forall result,
     sw_event_log_errors_since clock l (Minutes n) result ->
     Permutation
       (map error_columns
            (filter (fun e => is_error e && Z.leb (clock - n * 60 * 1000000) (created_at e)) l))
       result /\
     StronglySorted (fun x y => (er_created_at y <= er_created_at x)%Z) result) /\
  (Forall (fun e => (created_at e <= clock)%Z) l ->
   forall result,
     sw_event_log_errors_since clock l (Minutes n) result ->
     Permutation
       (map error_columns
            (filter (fun e => is_error e && within_window clock n (created_at e)) l))
       result) /\
  (forall result,
     sw_event_log_errors_since clock l Default result
     <-> sw_event_log_errors_since clock l (Minutes 15) result) /\
  (forall result e10 e20,
     sw_event_log_errors_since clock l Default result ->
     In e10 l -> is_error e10 = true ->
     created_at e10 = (clock - 10 * 60 * 1000000)%Z ->
     created_at e20 = (clock - 20 * 60 * 1000000)%Z ->
     In (error_columns e10) result /\ ~ In (error_columns e20) result).
Proof.
  split; [|split; [|split; [|split]]].
  - eexists. apply errors_since_run_ok.
  - intros result H. apply errors_since_inv in H as [Hperm Hsort].
    cbn [minutes_value] in Hperm. rewrite errors_since_filter in Hperm. auto.
  - intros Hpast result H. apply errors_since_inv in H as [Hperm _].
    cbn [minutes_value] in Hperm. rewrite errors_since_filter in Hperm.
    rewrite <- (within_window_past n Hpast). exact Hperm.
  - intros result. reflexivity.
  - intros result e10 e20 H H10 Herr Hat10 Hat20.
    apply errors_since_inv in H as [Hperm _]. cbn [minutes_value] in Hperm.
    rewrite errors_since_filter in Hperm. split.
    + eapply Permutation_in; [exact Hperm|]. apply in_map. apply filter_In.
      split; [exact H10|]. rewrite Herr. cbn [andb]. rewrite Hat10.
      apply Z.leb_le. lia.
    + intros Hin. eapply Permutation_in in Hin; [|symmetry; exact Hperm].
      apply in_map_iff in Hin as (x & Hx & Hin). apply filter_In in Hin as [_ Hin].
      apply andb_true_iff in Hin as [_ Hin]. apply Z.leb_le in Hin.
      assert (created_at x = created_at e20).
      { change (er_created_at (error_columns x) = er_created_at (error_columns e20)).
        now rewrite Hx. }
      lia.
Qed.

(* ====================================================================== *)
(** ** C6 and C10: status and duration_ms of the stored row *)
(* ====================================================================== *)

Lemma constraints_ok (l : list event) (ev : event) :
  existsb (fun x => uuid_eqb (id x) (id ev)) l = false ->
  match duration_ms ev with Some d => int4_ok d = true | None => True end ->
  sw_event_log_constraints l ev = None.
Proof.
  unfold sw_event_log_constraints. intros -> H.
  destruct (duration_ms ev); [now rewrite H|reflexivity].
Qed.

Lemma Math_round_nearest (q : Q) :
  (q - (1 # 2) < inject_Z (Math_round q))%Q /\ (inject_Z (Math_round q) <= q + (1 # 2))%Q.
Proof.
  unfold Math_round. split.
  - pose proof (Qlt_floor (q + (1 # 2))) as H.
    rewrite inject_Z_plus in H.
    apply Qplus_lt_l with (z := 1%Q).
    eapply Qle_lt_trans; [|exact H].
    ring_simplify. apply Qle_refl.
  - apply Qfloor_le.
Qed.

(** C6.  In the row stored for an accepted submission, status is the
    submitted status when that is one of the strings info, ok, error, and
    is info in every other case (status absent, not a string, or another
    string); whether a submission is accepted does not depend on its
    status at all. *)
Theorem C6_status_normalized
  (e : env) (body : JSON) (grants : db_role -> command -> bool) (l : list event) :
  (forall ev,
     accepted e (Request (lit "POST") (Some body)) grants l ev ->
     (forall s, property body (lit "status") = Some (JStr s) ->
                In s VALID_STATUSES -> status ev = s) /\
     ((forall s, property body (lit "status") = Some (JStr s) -> ~ In s VALID_STATUSES) ->
      status ev = lit "info"))
  /\
  (forall s,
     Forall (fun f => ~ missing_or_blank body f) REQUIRED_FIELDS ->
     property body (lit "trace_id") = Some (JStr s) -> canonical_uuid_form s ->
     configured e -> fault e = None -> grants service_role INSERT = true ->
     sw_event_log_constraints l (event_of e (row_of body) (toLowerCase s)) = None ->
     exists ev, accepted e (Request (lit "POST") (Some body)) grants l ev).
Proof.
  split.
  - intros ev Hacc.
    apply accepted_inv in Hacc as (body' & s' & _ & Hj & _ & _ & _ & _ & _ & _ & ->).
    cbn [json] in Hj. injection Hj as <-.
    cbn [event_of status row_of row_status]. unfold normalize_status. split.
    + intros s Hs Hin. rewrite Hs. cbn [string_of includes truthy].
      assert (Hex : existsb (str_eqb s) VALID_STATUSES = true).
      { apply existsb_exists. exists s. split; [exact Hin|apply str_eqb_refl]. }
      rewrite Hex.
      destruct s; [|reflexivity].
      simpl in Hin. destruct Hin as [H|[H|[H|[]]]]; discriminate.
    + intros Hno.
      destruct (property body (lit "status")) as [[| b | q | n | s | a | o]|] eqn:Hs;
        cbn [includes]; rewrite ?andb_false_r; try reflexivity.
      cbn [includes].
      destruct (existsb (str_eqb s) VALID_STATUSES) eqn:Hex;
        [|now rewrite andb_false_r].
      apply existsb_exists in Hex as (x & Hin & Hx). apply str_eqb_eq in Hx. subst x.
      now elim (Hno s eq_refl).
  - intros s Hall Hs Hform Hcfg Hf Hg Hc. eexists.
    now apply (@submission_accepted e body grants l s).
Qed.

(** C10, as stated, fails: a duration_ms too large for a double, such as
    1e400, is read as Infinity, which is a number to the handler; the
    submission is accepted, and the row is stored with duration_ms NULL,
    not with an integer. *)
Lemma C10_overflowing_duration_stored_null :
  typeof (property Samples.body_overflow (lit "duration_ms")) = t_number /\
  accepted Samples.env0 (Request (lit "POST") (Some Samples.body_overflow))
           Samples.all_granted [] Samples.stored_overflow /\
  duration_ms Samples.stored_overflow = None /\
  ~ (exists z, duration_ms Samples.stored_overflow = Some z).
Proof.
  split; [reflexivity|]. split; [reflexivity|]. split; [reflexivity|].
  intros [z H]. discriminate H.
Qed.

(** C10.  In the row stored for an accepted submission, duration_ms is the
    integer nearest to the submitted number (a tie goes up) when the
    submitted duration_ms is a finite number, and NULL when it is absent,
    not a number, or an infinite number; a number is not rejected for being
    negative or fractional: a submission that is otherwise in order is
    accepted whenever the rounded value fits the INTEGER column, and also
    when the number is infinite. *)
Theorem C10_duration_rounded
  (e : env) (body : JSON) (grants : db_role -> command -> bool) (l : list event) :
  (forall ev,
     accepted e (Request (lit "POST") (Some body)) grants l ev ->
     (forall q, property body (lit "duration_ms") = Some (JNum q) ->
                duration_ms ev = Some (Math_round q) /\
                (q - (1 # 2) < inject_Z (Math_round q))%Q /\
                (inject_Z (Math_round q) <= q + (1 # 2))%Q) /\
     (forall n, property body (lit "duration_ms") = Some (JInf n) ->
                duration_ms ev = None) /\
     (typeof (property body (lit "duration_ms")) <> t_number ->
      duration_ms ev = None) /\
     ((forall q, property body (lit "duration_ms") <> Some (JNum q)) ->
      duration_ms ev = None))
  /\
  (forall s q,
     property body (lit "duration_ms") = Some (JNum q) ->
     int4_ok (Math_round q) = true ->
     Forall (fun f => ~ missing_or_blank body f) REQUIRED_FIELDS ->
     property body (lit "trace_id") = Some (JStr s) -> canonical_uuid_form s ->
     configured e -> fault e = None -> grants service_role INSERT = true ->
     existsb (fun x => uuid_eqb (id x) (gen_random_uuid e)) l = false ->
     exists ev, accepted e (Request (lit "POST") (Some body)) grants l ev /\
                duration_ms ev = Some (Math_round q))
  /\
  (forall s n,
     property body (lit "duration_ms") = Some (JInf n) ->
     Forall (fun f => ~ missing_or_blank body f) REQUIRED_FIELDS ->
     property body (lit "trace_id") = Some (JStr s) -> canonical_uuid_form s ->
     configured e -> fault e = None -> grants service_role INSERT = true ->
     existsb (fun x => uuid_eqb (id x) (gen_random_uuid e)) l = false ->
     exists ev, accepted e (Request (lit "POST") (Some body)) grants l ev /\
                duration_ms ev = None).
Proof.
  split; [|split].
  - intros ev Hacc.
    apply accepted_inv in Hacc as (body' & s' & _ & Hj & _ & _ & _ & _ & _ & _ & ->).
    cbn [json] in Hj. injection Hj as <-.
    cbn [event_of duration_ms row_of row_duration_ms]. split; [|split; [|split]].
    + intros q Hq. rewrite Hq. cbn [round_duration].
      split; [reflexivity|apply Math_round_nearest].
    + intros n Hn. rewrite Hn. reflexivity.
    + intros Hno.
      destruct (property body (lit "duration_ms")) as [[| b | q | n | s | a | o]|] eqn:Hd;
        try reflexivity; now elim Hno.
    + intros Hno.
      destruct (property body (lit "duration_ms")) as [[| b | q | n | s | a | o]|] eqn:Hd;
        try reflexivity.
      now elim (Hno q).
  - intros s q Hq Hfit Hall Hs Hform Hcfg Hf Hg Hfresh.
    exists (event_of e (row_of body) (toLowerCase s)). split.
    + apply submission_accepted; auto. apply constraints_ok; [exact Hfresh|].
      cbn [event_of duration_ms row_of row_duration_ms]. rewrite Hq. exact Hfit.
    + cbn [event_of duration_ms row_of row_duration_ms]. now rewrite Hq.
  - intros s n Hn Hall Hs Hform Hcfg Hf Hg Hfresh.
    exists (event_of e (row_of body) (toLowerCase s)). split.
    + apply submission_accepted; auto. apply constraints_ok; [exact Hfresh|].
      cbn [event_of duration_ms row_of row_duration_ms]. rewrite Hn. exact I.
    + cbn [event_of duration_ms row_of row_duration_ms]. now rewrite Hn.
Qed.

(* ====================================================================== *)
(** ** C9: who reads and who writes the ledger *)
(* ====================================================================== *)


Lemma filter_constant {A} (b : bool) (l : list A) :
  filter (fun _ => b) l = if b then l else [].
Proof.
  induction l as [|x l IH]; simpl; [now destruct b|]. rewrite IH. now destruct b.
Qed.

Lemma select_sw_event_log (grants : db_role -> command -> bool) (l : list event)
  (s : session) :
  select_all s (sw_event_log grants l)
  = if negb (grants (role s) SELECT) then inl permission_denied
    else inr (if bypassrls (role s)
                 || (role_eqb (role s) authenticated && is_true (admin_claim s))
              then l else []).
Proof.
  unfold select_all. cbn [acl rows sw_event_log].
  destruct (negb (grants (role s) SELECT)); [reflexivity|]. f_equal.
  unfold rls_passes. cbn. rewrite !orb_false_r.
  apply (filter_constant
           (bypassrls (role s) || role_eqb (role s) authenticated && is_true (admin_claim s))).
Qed.

(** C9, as stated, fails: a read by an authenticated session without the
    admin claim is not answered with an error but with an empty result;
    and the service role, which holds no admin claim, reads every row. *)
Lemma C9_unprivileged_read_is_empty_not_error :
  let user := Session authenticated (Some (JObj [(lit "role", JStr (lit "user"))])) in
  let service := Session service_role None in
  ~ holds_admin user /\
  select_all user (sw_event_log Samples.all_granted Samples.tied) = inr [] /\
  ~ holds_admin service /\
  select_all service (sw_event_log Samples.all_granted Samples.tied) = inr Samples.tied.
Proof.
  cbv zeta. split; [|split; [|split]].
  - intros [_ H]. discriminate H.
  - reflexivity.
  - intros [H _]. discriminate H.
  - reflexivity.
Qed.

(** C9, amended.  A read of the ledger table never returns part of the
    rows: it fails for want of the table privilege, or returns every row,
    or returns none.  A session that holds the table privilege but neither
    the admin capability nor the service role gets the empty result, not
    an error.  Rows reach only an authenticated session with the admin
    claim and the service role (which bypasses row security), and both
    read every row when they hold the table privilege.  Only the service
    role can insert. *)
Theorem C9_reads_all_or_nothing
  (grants : db_role -> command -> bool) (l : list event) (s : session) :
  (select_all s (sw_event_log grants l) = inl permission_denied \/
   select_all s (sw_event_log grants l) = inr l \/
   select_all s (sw_event_log grants l) = inr []) /\
  (grants (role s) SELECT = true -> ~ holds_admin s -> role s <> service_role ->
   select_all s (sw_event_log grants l) = inr []) /\
  (forall result, select_all s (sw_event_log grants l) = inr result -> result <> [] ->
                  holds_admin s \/ role s = service_role) /\
  (grants (role s) SELECT = true -> holds_admin s \/ role s = service_role ->
   select_all s (sw_event_log grants l) = inr l) /\
  (forall ev t', exec s (Insert ev) (sw_event_log grants l) = inr t' ->
                 role s = service_role).
Proof.
  rewrite select_sw_event_log. unfold holds_admin.
  destruct s as [r j]. cbn [role].
  split; [|split; [|split; [|split]]].
  - destruct (grants r SELECT); cbn [negb]; [|now left].
    destruct (bypassrls r || _); auto.
  - intros -> Hna Hns. cbn [negb].
    destruct r; cbn; try reflexivity; [|congruence].
    destruct (is_true (admin_claim (Session authenticated j))) eqn:E; [|reflexivity].
    elim Hna. auto.
  - intros result. destruct (grants r SELECT); cbn [negb]; [|discriminate].
    destruct r; cbn; intros [= <-] Hne; try congruence; auto.
    destruct (is_true (admin_claim (Session authenticated j))) eqn:E; [auto|congruence].
  - intros -> [[-> Ha]| ->]; cbn; [|reflexivity]. cbn in Ha. now rewrite Ha.
  - intros ev t'. unfold exec. cbn. unfold exec_plain. cbn.
    destruct (negb (grants r INSERT)); [discriminate|].
    destruct r; cbn; try discriminate. reflexivity.
Qed.

(* ====================================================================== *)
(** ** C7: the replay engine *)
(* ====================================================================== *)











(** Between two events with a req payload written at the same instant the
    ordering of the view does not decide: the engine may re-issue either
    payload, whatever the ids of the two events. *)
Lemma replay_of_tied_requests (entry_point : jsstring) :
  replay Samples.tied_requests Samples.trace1 entry_point false
    (ReplayRun (inr (Outbound entry_point Samples.trace1 Samples.root_payload))
               [Outbound entry_point Samples.trace1 Samples.root_payload]) /\
  replay Samples.tied_requests Samples.trace1 entry_point false
    (ReplayRun (inr (Outbound entry_point Samples.trace1 Samples.later_payload))
               [Outbound entry_point Samples.trace1 Samples.later_payload]).
Proof.
  split.
  - exists Samples.tied_requests. split; [|reflexivity].
    split; [reflexivity|]. repeat constructor.
  - exists (rev Samples.tied_requests). split; [|reflexivity].
    split; [apply perm_swap|]. repeat constructor.
Qed.

(* ====================================================================== *)
(** ** C8: the contract verifier *)
(* ====================================================================== *)


Lemma passed_verdict (n : nat) (ok : bool) (msg : string) : passed (verdict n ok msg) = ok.
Proof. reflexivity. Qed.

Lemma is_terminal_iff (ev : event) : is_terminal ev = true <-> terminal ev.
Proof.
  unfold is_terminal, has_type, terminal. rewrite orb_true_iff, !str_eqb_eq. reflexivity.
Qed.

Lemma is_terminal_false (ev : event) : is_terminal ev = false <-> ~ terminal ev.
Proof.
  rewrite <- is_terminal_iff. destruct (is_terminal ev); split; congruence.
Qed.

Lemma filter_none {A} (p : A -> bool) (l : list A) :
  filter p l = [] <-> Forall (fun x => p x = false) l.
Proof.
  induction l as [|x r IH]; simpl.
  - split; [constructor|reflexivity].
  - destruct (p x) eqn:E.
    + split; [discriminate|]. intros H. inversion H; congruence.
    + rewrite IH. split; [now constructor|]. intros H. now inversion H.
Qed.

Lemma one_occurrence {A} (p : A -> bool) (l : list A) :
  List.length (filter p l) = 1 <->
  exists before x after,
    l = before ++ x :: after /\ p x = true /\
    Forall (fun y => p y = false) before /\ Forall (fun y => p y = false) after.
Proof.
  induction l as [|h r IH]; simpl.
  - split; [discriminate|]. intros (b & x & a & H & _). now destruct b.
  - destruct (p h) eqn:E; simpl.
    + split.
      * intros H. exists [], h, r. split; [reflexivity|]. split; [exact E|].
        split; [constructor|]. apply filter_none.
        destruct (filter p r); [reflexivity|discriminate].
      * intros (b & x & a & H & Hx & Hb & Ha). destruct b as [|h' b'].
        -- injection H as -> ->. apply filter_none in Ha. now rewrite Ha.
        -- injection H as -> _. inversion Hb; congruence.
    + rewrite IH. split.
      * intros (b & x & a & -> & Hx & Hb & Ha). exists (h :: b), x, a.
        split; [reflexivity|]. split; [exact Hx|]. split; [now constructor|exact Ha].
      * intros (b & x & a & H & Hx & Hb & Ha). destruct b as [|h' b'].
        -- injection H as -> _. congruence.
        -- injection H as -> ->. exists b', x, a. split; [reflexivity|].
           split; [exact Hx|]. split; [now inversion Hb|exact Ha].
Qed.

Lemma Forall_not_terminal (l : list event) :
  Forall (fun y => is_terminal y = false) l <-> Forall (fun x => ~ terminal x) l.
Proof.
  rewrite !Forall_forall. split; intros H x Hx; apply is_terminal_false, H, Hx.
Qed.

Lemma check4_passes (l : list event) :
  passed (check4 l) = true <-> exactly_one_terminal l.
Proof.
  unfold check4, occurrences, exactly_one_terminal.
  rewrite passed_verdict, Nat.eqb_eq, one_occurrence. split.
  - intros (b & x & a & H & Hx & Hb & Ha). exists b, x, a.
    split; [exact H|]. split; [now apply is_terminal_iff|].
    split; now apply Forall_not_terminal.
  - intros (b & x & a & H & Hx & Hb & Ha). exists b, x, a.
    split; [exact H|]. split; [now apply is_terminal_iff|].
    split; now apply Forall_not_terminal.
Qed.

(** C8.  The terminal-event check passes exactly when the trace holds
    exactly one event of type workflow.complete or workflow.error; it fails
    on a trace without such an event and on a trace with two or more.
    Without fail-fast the verifier returns the results of all nine checks,
    each the result (boolean and diagnostic) that check gives by itself,
    and the overall verdict is their conjunction; with fail-fast it returns
    the results through the first failed check. *)
Theorem C8_contract_verifier
  (c : config) (e : env) (tr : uuid) (t : table event) :
  (passed (check4 (of_trace tr (rows t))) = true
   <-> exactly_one_terminal (of_trace tr (rows t))) /\
  (Forall (fun x => ~ terminal x) (of_trace tr (rows t)) ->
   passed (check4 (of_trace tr (rows t))) = false) /\
  (forall before x between y after,
     of_trace tr (rows t) = before ++ x :: between ++ y :: after ->
     terminal x -> terminal y ->
     passed (check4 (of_trace tr (rows t))) = false) /\
  (fail_fast c = false ->
   fst (verify c e tr t) = all_results c e tr t /\
   List.length (fst (verify c e tr t)) = 9 /\
   nth_error (fst (verify c e tr t)) 3 = Some (check4 (of_trace tr (rows t))) /\
   (overall (fst (verify c e tr t)) = true
    <-> Forall (fun r => passed r = true) (all_results c e tr t))) /\
  (fail_fast c = true ->
   fst (verify c e tr t) = through_first_failure (all_results c e tr t)).
Proof.
  split; [apply check4_passes|]. split; [|split; [|split]].
  - intros Hnone. apply not_true_is_false. intros H.
    apply check4_passes in H as (b & x & a & Heq & Hx & _).
    rewrite Forall_forall in Hnone. apply (Hnone x); [|exact Hx].
    rewrite Heq. apply in_elt.
  - intros before x between y after Heq Hx Hy.
    apply not_true_is_false. intros H.
    apply check4_passes in H. unfold exactly_one_terminal in H.
    rewrite Heq in H. clear Heq.
    destruct H as (b & z & a & Heq & Hz & Hb & Ha).
    assert (Hcount : List.length (filter is_terminal (before ++ x :: between ++ y :: after))
                     = 1).
    { apply one_occurrence. exists b, z, a. split; [exact Heq|].
      split; [now apply is_terminal_iff|]. split; now apply Forall_not_terminal. }
    rewrite filter_app in Hcount. cbn [filter] in Hcount.
    apply is_terminal_iff in Hx, Hy. rewrite Hx in Hcount.
    rewrite filter_app in Hcount. cbn [filter] in Hcount. rewrite Hy in Hcount.
    rewrite length_app in Hcount. cbn [List.length] in Hcount.
    rewrite length_app in Hcount. cbn [List.length] in Hcount. lia.
  - intros Hff.
    assert (H : fst (verify c e tr t) = all_results c e tr t).
    { unfold verify, all_results, checks. rewrite Hff.
      cbn [run_checks andb pure_check]. fold (of_trace tr (rows t)).
      destruct (check9 e t) as [r9 t9]. reflexivity. }
    rewrite H. split; [reflexivity|]. split; [reflexivity|]. split; [reflexivity|].
    unfold overall. rewrite forallb_forall, Forall_forall. reflexivity.
  - intros Hff. unfold verify, all_results, checks. rewrite Hff.
    cbn [run_checks andb pure_check through_first_failure]. fold (of_trace tr (rows t)).
    destruct (passed (check1 _)); cbn [negb]; [|reflexivity].
    destruct (passed (check2 _)); cbn [negb]; [|reflexivity].
    destruct (passed (check3 _ _)); cbn [negb]; [|reflexivity].
    destruct (passed (check4 _)); cbn [negb]; [|reflexivity].
    destruct (passed (check5 _)); cbn [negb]; [|reflexivity].
    destruct (passed (check6 _)); cbn [negb]; [|reflexivity].
    destruct (passed (check7 _)); cbn [negb]; [|reflexivity].
    destruct (passed (check8 _ _)); cbn [negb]; [|reflexivity].
    destruct (check9 e t) as [r9 t9]. cbn [fst].
    destruct (passed r9); reflexivity.
Qed.

(* ====================================================================== *)
(** ** The theorems at concrete inputs *)
(* ====================================================================== *)

Lemma C1_append_only_witness :
  exec Samples.service (Insert Samples.first_written) (sw_event_log Samples.all_granted [])
    = inr (sw_event_log Samples.all_granted [Samples.first_written]) /\
  exec Samples.service (Insert Samples.artifact1)
       (sw_event_artifacts Samples.all_granted [Samples.first_written] [])
    = inr (sw_event_artifacts Samples.all_granted [Samples.first_written] [Samples.artifact1]) /\
  find_event (id Samples.first_written)
    (rows (exec_script Samples.tampering
             (sw_event_log Samples.all_granted [Samples.first_written])))
    = Some Samples.first_written /\
  find_artifact (artifact_id Samples.artifact1)
    (rows (exec_script []
             (sw_event_artifacts Samples.all_granted [Samples.first_written] [Samples.artifact1])))
    = Some Samples.artifact1.
Proof.
  assert (H1 : exec Samples.service (Insert Samples.first_written)
                 (sw_event_log Samples.all_granted [])
               = inr (sw_event_log Samples.all_granted [Samples.first_written]))
    by reflexivity.
  assert (H2 : exec Samples.service (Insert Samples.artifact1)
                 (sw_event_artifacts Samples.all_granted [Samples.first_written] [])
               = inr (sw_event_artifacts Samples.all_granted [Samples.first_written]
                        [Samples.artifact1]))
    by reflexivity.
  split; [exact H1|]. split; [exact H2|].
  destruct (@C1_append_only _ _ _ _ _ _ _ _ _ _ _ H1 H2) as [(_ & _ & Ha) (_ & _ & Hb)].
  split; [apply Ha|apply Hb].
Defined.

Lemma required_fields_rejected_example :
  missing_or_blank Samples.body_no_type (lit "event_type") /\
  exists resp,
    handler Samples.env0 (Request (lit "POST") (Some Samples.body_no_type))
            (sw_event_log Samples.all_granted [])
    = (Return resp, sw_event_log Samples.all_granted []) /\
    client_error resp.
Proof.
  assert (Hb : Samples.body_no_type <> JNull) by discriminate.
  assert (Hk : In (lit "event_type") REQUIRED_FIELDS) by (simpl; auto).
  assert (Hm : missing_or_blank Samples.body_no_type (lit "event_type")) by exact I.
  split; [exact Hm|].
  destruct (@required_fields_rejected Samples.env0 Samples.body_no_type
              (sw_event_log Samples.all_granted []) (lit "event_type") Hb Hk Hm)
    as (f & resp & _ & _ & _ & _ & Hc & Hh & _).
  exists resp. split; [exact Hh|exact Hc].
Defined.

Lemma sample_trace_canonical : canonical_uuid_form Samples.mixed_case.
Proof. apply UUID_RE_canonical. reflexivity. Qed.

Lemma sample_fields_present :
  Forall (fun f => ~ missing_or_blank Samples.body_ok f) REQUIRED_FIELDS.
Proof. repeat constructor; intros H; vm_compute in H; discriminate H. Qed.

Lemma sample_configured : configured Samples.env0.
Proof. split; reflexivity. Qed.

Lemma C3_trace_id_uuid_normalized_witness :
  accepted Samples.env0 (Request (lit "POST") (Some Samples.body_ok)) Samples.all_granted []
           Samples.stored_ok /\
  exists s,
    property Samples.body_ok (lit "trace_id") = Some (JStr s) /\
    canonical_uuid_form s /\
    trace_id Samples.stored_ok = toLowerCase s.
Proof.
  destruct (@C3_trace_id_uuid_normalized Samples.env0 Samples.body_ok Samples.all_granted [])
    as (Hstored & Hacc & _).
  assert (Ha : accepted Samples.env0 (Request (lit "POST") (Some Samples.body_ok))
                 Samples.all_granted [] Samples.stored_ok).
  { apply (Hacc Samples.mixed_case);
      [reflexivity|apply sample_trace_canonical|apply sample_fields_present
      |apply sample_configured|reflexivity|reflexivity|reflexivity]. }
  split; [exact Ha|].
  destruct (Hstored _ Ha) as (s & Hs & Hform & Hid & _).
  exists s. auto.
Defined.

Lemma C4_timeline_by_created_at_witness :
  canonical_uuid_form Samples.trace1 /\
  exists result, trace_timeline Samples.tied Samples.trace1 result.
Proof.
  assert (Hf : canonical_uuid_form Samples.trace1)
    by (apply UUID_RE_canonical; reflexivity).
  split; [exact Hf|]. apply (@C4_timeline_by_created_at Samples.tied Samples.trace1 Hf).
Defined.

Lemma C5_error_window_query_witness :
  Forall (fun e => (created_at e <= Samples.clock)%Z) Samples.recent /\
  (forall result,
     sw_event_log_errors_since Samples.clock Samples.recent (Minutes 15) result ->
     Permutation
       (map error_columns
            (filter (fun e => is_error e && within_window Samples.clock 15 (created_at e))
                    Samples.recent))
       result) /\
  (forall result,
     sw_event_log_errors_since Samples.clock Samples.recent Default result ->
     In (error_columns Samples.ten_minutes_ago) result /\
     ~ In (error_columns Samples.twenty_minutes_ago) result).
Proof.
  assert (Hp : Forall (fun e => (created_at e <= Samples.clock)%Z) Samples.recent)
    by (repeat constructor; vm_compute; discriminate).
  destruct (@C5_error_window_query Samples.clock Samples.recent 15) as (_ & _ & Hw & _ & Hs).
  split; [exact Hp|]. split; [exact (Hw Hp)|]. intros result H.
  apply (Hs result Samples.ten_minutes_ago Samples.twenty_minutes_ago H);
    [simpl; auto|reflexivity|reflexivity|reflexivity].
Defined.

Lemma C6_status_normalized_witness :
  accepted Samples.env0 (Request (lit "POST") (Some Samples.body_ok)) Samples.all_granted []
           Samples.stored_ok /\
  status Samples.stored_ok = lit "ok".
Proof.
  destruct (@C6_status_normalized Samples.env0 Samples.body_ok Samples.all_granted [])
    as (Hst & _).
  assert (Ha : accepted Samples.env0 (Request (lit "POST") (Some Samples.body_ok))
                 Samples.all_granted [] Samples.stored_ok) by reflexivity.
  split; [exact Ha|].
  apply (proj1 (Hst _ Ha) (lit "ok")); [reflexivity|simpl; auto].
Defined.


Lemma C8_contract_verifier_witness :
  passed (check4 (of_trace Samples.trace1
                    (rows (sw_event_log Samples.all_granted Samples.tied)))) = true /\
  passed (check4 (of_trace Samples.trace1
                    (rows (sw_event_log Samples.all_granted Samples.recent)))) = false /\
  passed (check4 (of_trace Samples.trace1
                    (rows (sw_event_log Samples.all_granted [Samples.first_written]))))
  = false /\
  List.length (fst (verify Samples.run_all Samples.env0 Samples.trace1
                      (sw_event_log Samples.all_granted Samples.tied))) = 9.
Proof.
  split; [|split; [|split]].
  - apply (proj1 (@C8_contract_verifier Samples.run_all Samples.env0 Samples.trace1
                    (sw_event_log Samples.all_granted Samples.tied))).
    exists [Samples.first_written], Samples.second_written, [].
    split; [reflexivity|]. split; [left; reflexivity|].
    split; [|constructor]. constructor; [|constructor].
    intros [H|H]; discriminate H.
  - destruct (@C8_contract_verifier Samples.run_all Samples.env0 Samples.trace1
                (sw_event_log Samples.all_granted Samples.recent)) as (_ & _ & H & _).
    apply (H [] Samples.twenty_minutes_ago [] Samples.ten_minutes_ago []);
      [reflexivity|right; reflexivity|right; reflexivity].
  - destruct (@C8_contract_verifier Samples.run_all Samples.env0 Samples.trace1
                (sw_event_log Samples.all_granted [Samples.first_written]))
      as (_ & H & _).
    apply H. constructor; [|constructor]. intros [H0|H0]; discriminate H0.
  - destruct (@C8_contract_verifier Samples.run_all Samples.env0 Samples.trace1
                (sw_event_log Samples.all_granted Samples.tied)) as (_ & _ & _ & H & _).
    apply (H eq_refl).
Defined.

Lemma C9_reads_all_or_nothing_witness :
  Samples.all_granted (role Samples.user) SELECT = true /\
  ~ holds_admin Samples.user /\
  role Samples.user <> service_role /\
  select_all Samples.user (sw_event_log Samples.all_granted Samples.tied) = inr [].
Proof.
  assert (Hg : Samples.all_granted (role Samples.user) SELECT = true) by reflexivity.
  assert (Hna : ~ holds_admin Samples.user) by (intros [_ H]; discriminate H).
  assert (Hns : role Samples.user <> service_role) by discriminate.
  split; [exact Hg|]. split; [exact Hna|]. split; [exact Hns|].
  destruct (@C9_reads_all_or_nothing Samples.all_granted Samples.tied Samples.user)
    as (_ & H & _).
  apply (H Hg Hna Hns).
Defined.

Lemma C10_duration_rounded_witness :
  property Samples.body_ok (lit "duration_ms") = Some (JNum (- 5 # 2)) /\
  accepted Samples.env0 (Request (lit "POST") (Some Samples.body_ok)) Samples.all_granted []
           Samples.stored_ok /\
  duration_ms Samples.stored_ok = Some (-2)%Z.
Proof.
  assert (Hq : property Samples.body_ok (lit "duration_ms") = Some (JNum (- 5 # 2)))
    by reflexivity.
  assert (Ha : accepted Samples.env0 (Request (lit "POST") (Some Samples.body_ok))
                 Samples.all_granted [] Samples.stored_ok) by reflexivity.
  split; [exact Hq|]. split; [exact Ha|].
  destruct (@C10_duration_rounded Samples.env0 Samples.body_ok Samples.all_granted [])
    as (Hd & _).
  apply (proj1 (proj1 (Hd _ Ha) _ Hq)).
Defined.

(* ====================================================================== *)
(** ** The handler, branch by branch *)
(* ====================================================================== *)

Lemma validate_required_find (body : JSON) (fields : list jsstring) :
  body <> JNull ->
  validate_required body fields =
  match find (fun f => invalid_required (property body f)) fields with
  | Some f => Return (jsonError (lit "Missing or invalid required field: " ++ f) 400)
  | None => Normal tt
  end.
Proof.
  intros Hb. induction fields as [|f fields IH]; simpl; [reflexivity|].
  rewrite (get_property f Hb). simpl.
  destruct (invalid_required (property body f)); [reflexivity|exact IH].
Qed.

Lemma insert_log_cases e r grants l :
  insert e r (sw_event_log grants l) =
  match fault e with
  | Some f => inl f
  | None =>
      match uuid_in (row_trace_id r) with
      | None => inl invalid_text_representation
      | Some tid =>
          if negb (grants service_role INSERT) then inl permission_denied
          else match sw_event_log_constraints l (event_of e r tid) with
               | Some err => inl err
               | None => inr (event_of e r tid,
                              sw_event_log grants (l ++ [event_of e r tid]))
               end
      end
  end.
Proof.
  unfold insert. destruct (fault e); [reflexivity|].
  destruct (uuid_in (row_trace_id r)) as [tid|]; [|reflexivity].
  fold (event_of e r tid). unfold exec. cbn. unfold exec_plain. cbn.
  destruct (grants service_role INSERT); cbn; [|reflexivity].
  destruct (sw_event_log_constraints l (event_of e r tid)); reflexivity.
Qed.

(** The handler on a POST whose body is not [null], as one expression. *)
Lemma handler_post e body grants l :
  body <> JNull ->
  handler e (Request (lit "POST") (Some body)) (sw_event_log grants l) =
  match first_invalid body with
  | Some f =>
      (Return (jsonError (lit "Missing or invalid required field: " ++ f) 400),
       sw_event_log grants l)
  | None =>
      if negb (test UUID_RE (string_of (property body (lit "trace_id"))))
      then (Return (jsonError
              (lit "trace_id must be a valid UUID (xxxxxxxx-xxxx-xxxx-xxxx-xxxxxxxxxxxx).")
              400), sw_event_log grants l)
      else if unset (SUPABASE_URL e) || unset (SUPABASE_SERVICE_ROLE_KEY e)
      then (Return (jsonError (lit "Server configuration error.") 500),
            sw_event_log grants l)
      else match insert e (row_of body) (sw_event_log grants l) with
           | inl err => (Return (insert_error err), sw_event_log grants l)
           | inr (ev, t') => (Return (created (id ev)), t')
           end
  end.
Proof.
  intros Hb. unfold handler, first_invalid. cbn [method json].
  rewrite method_post_not_options, str_eqb_refl. cbn [negb].
  rewrite (validate_required_find REQUIRED_FIELDS Hb).
  destruct (find _ REQUIRED_FIELDS); cbn [bind]; [reflexivity|].
  rewrite (get_property _ Hb). cbn [bind].
  destruct (test UUID_RE _); cbn [negb]; [|reflexivity].
  rewrite (build_row_property Hb). cbn [bind].
  destruct (unset (SUPABASE_URL e) || unset (SUPABASE_SERVICE_ROLE_KEY e)); reflexivity.
Qed.

Lemma first_invalid_none (body : JSON) :
  first_invalid body = None <->
  Forall (fun f => ~ missing_or_blank body f) REQUIRED_FIELDS.
Proof.
  unfold first_invalid. split.
  - intros H. apply Forall_forall. intros f Hf Hm.
    apply invalid_required_iff in Hm.
    pose proof (find_none _ _ H f Hf) as Hn. simpl in Hn. congruence.
  - intros H. destruct (find _ REQUIRED_FIELDS) as [f|] eqn:E; [|reflexivity].
    apply find_some in E as [Hin Hinv]. rewrite Forall_forall in H.
    apply invalid_required_iff in Hinv. now elim (H f Hin).
Qed.

Lemma valid_submission_post e body grants l :
  valid_submission body ->
  handler e (Request (lit "POST") (Some body)) (sw_event_log grants l) =
  if unset (SUPABASE_URL e) || unset (SUPABASE_SERVICE_ROLE_KEY e)
  then (Return (jsonError (lit "Server configuration error.") 500),
        sw_event_log grants l)
  else match insert e (row_of body) (sw_event_log grants l) with
       | inl err => (Return (insert_error err), sw_event_log grants l)
       | inr (ev, t') => (Return (created (id ev)), t')
       end.
Proof.
  intros (Hb & Hall & Hre). rewrite (handler_post _ _ _ Hb).
  apply first_invalid_none in Hall. rewrite Hall, Hre. reflexivity.
Qed.

Lemma request_post (rq : request) :
  str_eqb (method rq) (lit "POST") = true -> rq = Request (lit "POST") (json rq).
Proof. destruct rq as [m j]. simpl. intros H. apply str_eqb_eq in H. now subst. Qed.

Lemma handler_not_post e rq (t : table event) :
  str_eqb (method rq) (lit "OPTIONS") = false ->
  str_eqb (method rq) (lit "POST") = false ->
  handler e rq t = (Return (jsonError (lit "Method not allowed. Use POST.") 405), t).
Proof. intros H1 H2. unfold handler. now rewrite H1, H2. Qed.

Lemma handler_options e rq (t : table event) :
  str_eqb (method rq) (lit "OPTIONS") = true -> handler e rq t = (Return preflight, t).
Proof. intros H. unfold handler. now rewrite H. Qed.

Lemma handler_post_unparsed e (t : table event) :
  handler e (Request (lit "POST") None) t
  = (Return (jsonError (lit "Invalid JSON body.") 400), t).
Proof. reflexivity. Qed.

Lemma handler_post_null e (t : table event) :
  handler e (Request (lit "POST") (Some JNull)) t = (Throw, t).
Proof. reflexivity. Qed.

Lemma body_null_or_not (body : JSON) : body = JNull \/ body <> JNull.
Proof. destruct body; [left; reflexivity|right; discriminate..]. Qed.

(** X1.  One invocation of the handler either leaves the ledger exactly as
    it was, and then does not answer 201, or appends exactly one row at the
    end and answers 201 with that row's id; the row carries the generated
    id, which no earlier row has, and the clock's timestamp.  Earlier rows
    are never changed, removed or reordered. *)
Theorem handler_appends_at_most_one
  (e : env) (rq : request) (grants : db_role -> command -> bool) (l : list event) :
  (snd (handler e rq (sw_event_log grants l)) = sw_event_log grants l /\
   forall r, fst (handler e rq (sw_event_log grants l)) = Return r ->
             status_code r <> 201%Z)
  \/
  (exists ev,
     handler e rq (sw_event_log grants l)
     = (Return (created (gen_random_uuid e)), sw_event_log grants (l ++ [ev])) /\
     id ev = gen_random_uuid e /\ created_at ev = now e /\
     existsb (fun x => uuid_eqb (id x) (id ev)) l = false).
Proof.
  destruct (str_eqb (method rq) (lit "OPTIONS")) eqn:Ho.
  { left. rewrite (handler_options e rq _ Ho). split; [reflexivity|].
    intros r [= <-]. discriminate. }
  destruct (str_eqb (method rq) (lit "POST")) eqn:Hp.
  2:{ left. rewrite (handler_not_post e rq _ Ho Hp). split; [reflexivity|].
      intros r [= <-]. discriminate. }
  rewrite (request_post rq Hp). destruct (json rq) as [body|].
  2:{ left. rewrite handler_post_unparsed. split; [reflexivity|].
      intros r [= <-]. discriminate. }
  destruct (body_null_or_not body) as [->|Hb].
  { left. rewrite handler_post_null. split; [reflexivity|]. discriminate. }
  rewrite (handler_post e grants l Hb).
  destruct (first_invalid body).
  { left. split; [reflexivity|]. intros r [= <-]. discriminate. }
  destruct (negb (test UUID_RE _)).
  { left. split; [reflexivity|]. intros r [= <-]. discriminate. }
  destruct (unset (SUPABASE_URL e) || unset (SUPABASE_SERVICE_ROLE_KEY e)).
  { left. split; [reflexivity|]. intros r [= <-]. discriminate. }
  destruct (insert e (row_of body) (sw_event_log grants l)) as [err|[ev t']] eqn:Hi.
  { left. split; [reflexivity|]. intros r [= <-]. discriminate. }
  right. apply insert_log_inv in Hi as (tid & _ & -> & -> & _ & Hc).
  exists (event_of e (row_of body) tid). split; [reflexivity|].
  split; [reflexivity|]. split; [reflexivity|]. now apply event_constraints_fresh.
Qed.

(** X2.  The handler ends in an uncaught exception for one kind of request
    only: a POST whose body is the JSON value [null].  Every other request
    is answered with a response. *)
Theorem handler_throws_only_on_null_body
  (e : env) (rq : request) (grants : db_role -> command -> bool) (l : list event) :
  fst (handler e rq (sw_event_log grants l)) = Throw
  <-> method rq = lit "POST" /\ json rq = Some JNull.
Proof.
  split.
  - destruct (str_eqb (method rq) (lit "OPTIONS")) eqn:Ho.
    { rewrite (handler_options e rq _ Ho). discriminate. }
    destruct (str_eqb (method rq) (lit "POST")) eqn:Hp.
    2:{ rewrite (handler_not_post e rq _ Ho Hp). discriminate. }
    rewrite (request_post rq Hp). cbn [method json].
    destruct (json rq) as [body|]; [|rewrite handler_post_unparsed; discriminate].
    destruct (body_null_or_not body) as [->|Hb]; [auto|].
    rewrite (handler_post e grants l Hb).
    destruct (first_invalid body); [discriminate|].
    destruct (negb (test UUID_RE _)); [discriminate|].
    destruct (unset (SUPABASE_URL e) || unset (SUPABASE_SERVICE_ROLE_KEY e));
      [discriminate|].
    destruct (insert e (row_of body) (sw_event_log grants l)) as [err|[ev t']];
      discriminate.
  - intros [Hm Hj]. destruct rq as [m j]. simpl in Hm, Hj. subst. reflexivity.
Qed.

(** X3.  The status of a response is always one of 204, 405, 400, 500 and
    201.  It is 204 exactly for the method OPTIONS and 405 exactly for a
    method that is neither OPTIONS nor POST, whatever the body holds; so a
    body is parsed and validated for POST only. *)
Theorem handler_status_codes
  (e : env) (rq : request) (grants : db_role -> command -> bool) (l : list event)
  (r : response)
  (Hr : fst (handler e rq (sw_event_log grants l)) = Return r) :
  In (status_code r) [204; 405; 400; 500; 201]%Z /\
  (status_code r = 204%Z <-> method rq = lit "OPTIONS") /\
  (status_code r = 405%Z <-> method rq <> lit "OPTIONS" /\ method rq <> lit "POST").
Proof.
  revert Hr. destruct rq as [m j]. cbn [method json].
  destruct (str_eqb m (lit "OPTIONS")) eqn:Ho.
  { rewrite (handler_options e (Request m j) _ Ho). intros [= <-]. apply str_eqb_eq in Ho.
    split; [simpl; auto|]. split; [tauto|]. split; [discriminate|tauto]. }
  assert (Hno : m <> lit "OPTIONS").
  { intros H. apply str_eqb_eq in H. congruence. }
  destruct (str_eqb m (lit "POST")) eqn:Hp.
  2:{ rewrite (handler_not_post e (Request m j) _ Ho Hp). intros [= <-].
      assert (m <> lit "POST") by (intros H; apply str_eqb_eq in H; congruence).
      split; [simpl; auto|]. split; [split; [discriminate|tauto]|]. tauto. }
  apply str_eqb_eq in Hp.
  assert (Hgoal : forall z, In z [400; 500; 201]%Z ->
            In z [204; 405; 400; 500; 201]%Z /\
            (z = 204%Z <-> m = lit "OPTIONS") /\
            (z = 405%Z <-> m <> lit "OPTIONS" /\ m <> lit "POST")).
  { intros z Hz. split; [simpl in *; tauto|].
    split; split; intros H; try tauto; subst z; simpl in Hz;
      destruct Hz as [Hz|[Hz|[Hz|[]]]]; discriminate. }
  clear Ho. revert Hgoal. subst m. intros Hgoal.
  destruct j as [body|].
  2:{ rewrite handler_post_unparsed. intros [= <-]. apply Hgoal. simpl. auto. }
  destruct (body_null_or_not body) as [->|Hb]; [rewrite handler_post_null; discriminate|].
  rewrite (handler_post e grants l Hb).
  destruct (first_invalid body); [intros [= <-]; apply Hgoal; simpl; auto|].
  destruct (negb (test UUID_RE _)); [intros [= <-]; apply Hgoal; simpl; auto|].
  destruct (unset (SUPABASE_URL e) || unset (SUPABASE_SERVICE_ROLE_KEY e));
    [intros [= <-]; apply Hgoal; simpl; auto|].
  destruct (insert e (row_of body) (sw_event_log grants l)) as [err|[ev t']];
    intros [= <-]; apply Hgoal; simpl; auto.
Qed.

(* ====================================================================== *)
(** ** Validation order, configuration and storage failures *)
(* ====================================================================== *)

Lemma find_first_bad {A} (p : A -> bool) (before after : list A) (x : A) :
  Forall (fun a => p a = false) before -> p x = true ->
  find p (before ++ x :: after) = Some x.
Proof.
  induction 1 as [|a before Ha _ IH]; simpl; intros Hx.
  - now rewrite Hx.
  - rewrite Ha. auto.
Qed.

(** X4.  The validation error names the first required field, in the order
    trace_id, source, event_type, that is absent, not a string or blank:
    when the fields before [f] are in order and [f] is not, the answer is
    400 "Missing or invalid required field: f" whatever the later fields
    hold, and nothing is stored. *)
Theorem first_missing_field_is_reported
  (e : env) (body : JSON) (grants : db_role -> command -> bool) (l : list event)
  (before after : list jsstring) (f : jsstring)
  (Hbody : body <> JNull)
  (Horder : REQUIRED_FIELDS = before ++ f :: after)
  (Hbefore : Forall (fun g => ~ missing_or_blank body g) before)
  (Hbad : missing_or_blank body f) :
  handler e (Request (lit "POST") (Some body)) (sw_event_log grants l)
  = (Return (jsonError (lit "Missing or invalid required field: " ++ f) 400),
     sw_event_log grants l).
Proof.
  rewrite (handler_post e grants l Hbody). unfold first_invalid. rewrite Horder.
  rewrite (@find_first_bad _ (fun g => invalid_required (property body g)) before after f).
  - reflexivity.
  - eapply Forall_impl; [|exact Hbefore]. intros g Hg. simpl in Hg.
    apply not_true_is_false. intros H. now apply invalid_required_iff in H.
  - now apply invalid_required_iff.
Qed.

Lemma valid_submission_dec (body : JSON) :
  body <> JNull ->
  (first_invalid body = None /\
   test UUID_RE (string_of (property body (lit "trace_id"))) = true)
  <-> valid_submission body.
Proof.
  intros Hb. unfold valid_submission. rewrite first_invalid_none. tauto.
Qed.

(** X5.  Validation comes before the configuration check.  When
    SUPABASE_URL or SUPABASE_SERVICE_ROLE_KEY is unset or empty, a
    submission that passes validation is answered 500 "Server configuration
    error." and one that does not is still answered 400; in both cases
    nothing is stored. *)
Theorem validation_precedes_configuration
  (e : env) (body : JSON) (grants : db_role -> command -> bool) (l : list event)
  (Hbody : body <> JNull)
  (Hunset : unset (SUPABASE_URL e) = true \/ unset (SUPABASE_SERVICE_ROLE_KEY e) = true) :
  (valid_submission body ->
   handler e (Request (lit "POST") (Some body)) (sw_event_log grants l)
   = (Return (jsonError (lit "Server configuration error.") 500), sw_event_log grants l))
  /\
  (~ valid_submission body ->
   exists r,
     handler e (Request (lit "POST") (Some body)) (sw_event_log grants l)
     = (Return r, sw_event_log grants l) /\ status_code r = 400%Z).
Proof.
  assert (Hu : unset (SUPABASE_URL e) || unset (SUPABASE_SERVICE_ROLE_KEY e) = true).
  { apply orb_true_iff. exact Hunset. }
  split.
  - intros Hv. rewrite (valid_submission_post e grants l Hv). now rewrite Hu.
  - intros Hnv. rewrite (handler_post e grants l Hbody).
    destruct (first_invalid body) eqn:Hf; [eexists; split; reflexivity|].
    destruct (test UUID_RE (string_of (property body (lit "trace_id")))) eqn:Hre;
      cbn [negb]; [|eexists; split; reflexivity].
    elim Hnv. apply valid_submission_dec; auto.
Qed.

Lemma valid_trace_id_parses (body : JSON) :
  valid_submission body ->
  uuid_in (row_trace_id (row_of body))
  = Some (toLowerCase (string_of (property body (lit "trace_id")))).
Proof.
  intros (_ & _ & Hre). cbn [row_of row_trace_id].
  now rewrite uuid_in_lower, uuid_in_UUID_RE, Hre.
Qed.

(** X6.  A submission that passes validation in a configured function but
    that the store does not take is answered 500 with the body
    [{ ok: false, error: <message>, code: <SQLSTATE> }], and the ledger is
    left as it was: whatever fault the store reports; 22003 when the
    rounded duration_ms does not fit the INTEGER column; 23505 when the
    generated id is already in the ledger; 42501 when the service role may
    not insert. *)
Theorem storage_failure_is_500
  (e : env) (body : JSON) (grants : db_role -> command -> bool) (l : list event)
  (Hvalid : valid_submission body)
  (Hcfg : configured e) :
  (forall err, payload (insert_error err)
               = Some (JObj [(lit "ok", JBool false);
                             (lit "error", JStr (lit (message err)));
                             (lit "code", JStr (lit (code err)))]) /\
               status_code (insert_error err) = 500%Z) /\
  (forall err, fault e = Some err ->
     handler e (Request (lit "POST") (Some body)) (sw_event_log grants l)
     = (Return (insert_error err), sw_event_log grants l)) /\
  (forall q, fault e = None -> grants service_role INSERT = true ->
     property body (lit "duration_ms") = Some (JNum q) ->
     int4_ok (Math_round q) = false ->
     handler e (Request (lit "POST") (Some body)) (sw_event_log grants l)
     = (Return (insert_error numeric_out_of_range), sw_event_log grants l)) /\
  (fault e = None -> grants service_role INSERT = true ->
     match round_duration (property body (lit "duration_ms")) with
     | Some d => int4_ok d = true
     | None => True
     end ->
     existsb (fun x => uuid_eqb (id x) (gen_random_uuid e)) l = true ->
     handler e (Request (lit "POST") (Some body)) (sw_event_log grants l)
     = (Return (insert_error unique_violation), sw_event_log grants l)) /\
  (fault e = None -> grants service_role INSERT = false ->
     handler e (Request (lit "POST") (Some body)) (sw_event_log grants l)
     = (Return (insert_error permission_denied), sw_event_log grants l)).
Proof.
  destruct Hcfg as [Hurl Hkey].
  pose proof (valid_submission_post e grants l Hvalid) as H.
  rewrite Hurl, Hkey in H. cbn [orb] in H. rewrite insert_log_cases in H.
  rewrite (valid_trace_id_parses Hvalid) in H.
  split; [intros err; split; reflexivity|].
  split; [|split; [|split]].
  - intros err Hf. rewrite H, Hf. reflexivity.
  - intros q Hf Hg Hq Hfit. rewrite H, Hf, Hg. cbn [negb].
    unfold sw_event_log_constraints.
    cbn [event_of duration_ms row_of row_duration_ms]. rewrite Hq.
    cbn [round_duration]. rewrite Hfit. reflexivity.
  - intros Hf Hg Hfit Hdup. rewrite H, Hf, Hg. cbn [negb].
    unfold sw_event_log_constraints.
    cbn [event_of duration_ms row_of row_duration_ms id].
    destruct (round_duration (property body (lit "duration_ms"))) as [d|];
      [rewrite Hfit|]; rewrite Hdup; reflexivity.
  - intros Hf Hg. rewrite H, Hf, Hg. reflexivity.
Qed.

(* ====================================================================== *)
(** ** Trimming, and what the handler writes *)
(* ====================================================================== *)

Lemma trimStart_head (s : jsstring) (c : code_unit) (r : jsstring) :
  trimStart s = c :: r -> is_white_space c = false.
Proof.
  induction s as [|x s IH]; simpl; [discriminate|].
  destruct (is_white_space x) eqn:E; [exact IH|]. intros [= <- _]. exact E.
Qed.

Lemma trimStart_snoc (l : jsstring) (x : code_unit) :
  is_white_space x = false -> trimStart (l ++ [x]) = trimStart l ++ [x].
Proof.
  intros Hx. induction l as [|a l IH]; simpl; [now rewrite Hx|].
  destruct (is_white_space a); [exact IH|reflexivity].
Qed.

Lemma trim_shape (s : jsstring) (c : code_unit) (r : jsstring) :
  trimStart s = c :: r -> trim s = c :: rev (trimStart (rev r)).
Proof.
  intros H. unfold trim, trimEnd. rewrite H. simpl rev.
  rewrite trimStart_snoc by (eapply trimStart_head; exact H).
  now rewrite rev_app_distr.
Qed.

Lemma trim_no_outer_white_space (s : jsstring) : no_outer_white_space (trim s).
Proof.
  destruct (trimStart s) as [|c r] eqn:E.
  - unfold trim, trimEnd. rewrite E. exact I.
  - rewrite (trim_shape _ E). unfold no_outer_white_space.
    split; [eapply trimStart_head; exact E|].
    destruct (trimStart (rev r)) as [|d y] eqn:F.
    + simpl. eapply trimStart_head; exact E.
    + simpl rev. change (c :: (rev y ++ [d])) with ((c :: rev y) ++ [d]).
      rewrite last_last. eapply trimStart_head; exact F.
Qed.

Lemma trim_fixed (t : jsstring) : no_outer_white_space t -> trim t = t.
Proof.
  destruct t as [|c w]; [reflexivity|]. intros [Hc Hl].
  unfold trim, trimEnd. cbn [trimStart]. rewrite Hc.
  destruct (@exists_last _ (c :: w)) as (l' & a & Ht); [discriminate|].
  rewrite Ht in Hl |- *. rewrite last_last in Hl.
  rewrite rev_app_distr. cbn [rev app trimStart]. rewrite Hl.
  cbn [rev]. now rewrite rev_involutive.
Qed.

Lemma trim_idempotent (s : jsstring) : trim (trim s) = trim s.
Proof. apply trim_fixed, trim_no_outer_white_space. Qed.

Lemma required_string (body : JSON) (f : jsstring) :
  invalid_required (property body f) = false ->
  exists s, property body f = Some (JStr s) /\ trim s <> [].
Proof.
  unfold invalid_required.
  destruct (property body f) as [[| b | q | n | s | a | o]|]; simpl;
    rewrite ?orb_true_r; try discriminate.
  intros H. exists s. split; [reflexivity|].
  destruct s as [|c s]; [discriminate|]. simpl in H.
  destruct (trim (c :: s)); [discriminate|discriminate].
Qed.

(** X7.  In the row stored for an accepted submission, source and
    event_type are the submitted strings with the white space at both ends
    removed: they are not empty, neither begins nor ends with a white-space
    character, and trimming them again changes nothing. *)
Theorem stored_text_is_trimmed
  (e : env) (body : JSON) (grants : db_role -> command -> bool) (l : list event)
  (ev : event)
  (Hacc : accepted e (Request (lit "POST") (Some body)) grants l ev) :
  source ev = trim (string_of (property body (lit "source"))) /\
  event_type ev = trim (string_of (property body (lit "event_type"))) /\
  source ev <> [] /\ event_type ev <> [] /\
  no_outer_white_space (source ev) /\ no_outer_white_space (event_type ev) /\
  trim (source ev) = source ev /\ trim (event_type ev) = event_type ev.
Proof.
  apply accepted_inv in Hacc as (body' & s & _ & Hj & _ & Hall & _ & _ & _ & _ & ->).
  cbn [json] in Hj. injection Hj as <-.
  cbn [event_of source event_type row_of row_source row_event_type].
  inversion Hall as [|? ? _ Hall1]; subst.
  inversion Hall1 as [|? ? Hsrc Hall2]; subst.
  inversion Hall2 as [|? ? Hty _]; subst.
  apply required_string in Hsrc as (a & Ha & Hane).
  apply required_string in Hty as (b & Hb & Hbne).
  rewrite Ha, Hb. cbn [string_of].
  repeat split; auto using trim_no_outer_white_space, trim_idempotent.
Qed.

Lemma normalize_status_valid (v : value) : In (normalize_status v) VALID_STATUSES.
Proof.
  unfold normalize_status.
  destruct (truthy v && includes VALID_STATUSES v) eqn:E; [|simpl; auto].
  apply andb_true_iff in E as [_ E].
  destruct v as [[| b | q | n | s | a | o]|]; try discriminate.
  cbn [includes] in E. apply existsb_exists in E as (x & Hin & Hx).
  apply str_eqb_eq in Hx. subst x. exact Hin.
Qed.

Lemma event_constraints_fit (l : list event) (ev : event) :
  sw_event_log_constraints l ev = None ->
  match duration_ms ev with Some d => int4_ok d = true | None => True end.
Proof.
  unfold sw_event_log_constraints. destruct (duration_ms ev) as [d|]; [|auto].
  destruct (int4_ok d); [auto|discriminate].
Qed.

Lemma handler_unchanged_or_201 (e : env) (rq : request)
  (grants : db_role -> command -> bool) (l : list event) :
  snd (handler e rq (sw_event_log grants l)) = sw_event_log grants l \/
  exists r, fst (handler e rq (sw_event_log grants l)) = Return r /\
            status_code r = 201%Z.
Proof.
  destruct (str_eqb (method rq) (lit "OPTIONS")) eqn:Ho.
  { left. now rewrite (handler_options e rq _ Ho). }
  destruct (str_eqb (method rq) (lit "POST")) eqn:Hp.
  2:{ left. now rewrite (handler_not_post e rq _ Ho Hp). }
  rewrite (request_post rq Hp). destruct (json rq) as [body|]; [|now left].
  destruct (body_null_or_not body) as [->|Hb]; [now left|].
  rewrite (handler_post e grants l Hb).
  destruct (first_invalid body); [now left|].
  destruct (negb (test UUID_RE _)); [now left|].
  destruct (unset (SUPABASE_URL e) || unset (SUPABASE_SERVICE_ROLE_KEY e)); [now left|].
  destruct (insert e (row_of body) (sw_event_log grants l)) as [err|[ev t']];
    [now left|].
  right. eexists. split; reflexivity.
Qed.

(** One step of the handler on the ledger. *)
Lemma handler_step (e : env) (rq : request) (grants : db_role -> command -> bool)
  (l : list event) :
  rows (snd (handler e rq (sw_event_log grants l))) = l \/
  exists ev,
    rows (snd (handler e rq (sw_event_log grants l))) = l ++ [ev] /\
    written_by_sw_log ev /\ created_at ev = now e /\ id ev = gen_random_uuid e /\
    existsb (fun x => uuid_eqb (id x) (id ev)) l = false.
Proof.
  destruct (handler_unchanged_or_201 e rq grants l) as [Hsame|(r & Hr & H201)].
  { left. now rewrite Hsame. }
  right. destruct (handler e rq (sw_event_log grants l)) as [c t'] eqn:H.
  cbn [fst] in Hr. subst c.
  destruct (handler_created_inv _ _ _ _ H H201)
    as (body & s & _ & _ & _ & Hall & Hs & Hre & _ & _ & Hc & _ & ->).
  exists (event_of e (row_of body) (toLowerCase s)). cbn [snd rows sw_event_log].
  split; [reflexivity|]. split; [|split; [reflexivity|split; [reflexivity|]]].
  - inversion Hall as [|? ? _ Hall1]; subst.
    inversion Hall1 as [|? ? Hsrc Hall2]; subst.
    inversion Hall2 as [|? ? Hty _]; subst.
    apply required_string in Hsrc as (a & Ha & Hane).
    apply required_string in Hty as (b & Hb & Hbne).
    unfold written_by_sw_log.
    cbn [event_of trace_id status source event_type duration_ms row_of
         row_status row_source row_event_type row_duration_ms].
    rewrite Ha, Hb. cbn [string_of].
    split; [now rewrite UUID_RE_lower|]. split; [apply toLowerCase_idem|].
    split; [apply normalize_status_valid|].
    split; [exact Hane|]. split; [apply trim_idempotent|].
    split; [exact Hbne|]. split; [apply trim_idempotent|].
    apply (event_constraints_fit _ _ Hc).
  - now apply event_constraints_fresh.
Qed.

(* ====================================================================== *)
(** ** The ledger over many requests and statements *)
(* ====================================================================== *)

(** X8.  Whatever requests the handler serves, in whatever environments,
    the ledger only grows at its end, by at most one row per request, and
    every row added has a trace_id of the UUID form in lower case, a status
    among info, ok and error, a source and an event_type that are not empty
    and carry no white space at either end, and a duration_ms that is NULL
    or fits the INTEGER column. *)
Theorem ledger_grows_by_well_formed_rows
  (grants : db_role -> command -> bool) (rqs : list (env * request)) (l : list event) :
  exists added,
    serve grants rqs l = l ++ added /\
    Forall written_by_sw_log added /\
    List.length added <= List.length rqs.
Proof.
  revert l. induction rqs as [|[e rq] rqs IH]; intros l; simpl.
  - exists []. rewrite app_nil_r. auto.
  - destruct (handler_step e rq grants l) as [->|(ev & -> & Hw & _)].
    + destruct (IH l) as (added & -> & Hf & Hlen). exists added. auto.
    + destruct (IH (l ++ [ev])) as (added & -> & Hf & Hlen).
      exists (ev :: added). rewrite <- app_assoc. simpl. split; [reflexivity|].
      split; [now constructor|]. lia.
Qed.

Lemma not_in_ids (i : uuid) (l : list event) :
  existsb (fun x => uuid_eqb (id x) i) l = false -> ~ In i (map id l).
Proof.
  intros H Hin. apply in_map_iff in Hin as (x & Hx & Hin).
  assert (Ht : existsb (fun x => uuid_eqb (id x) i) l = true).
  { apply existsb_exists. exists x. split; [exact Hin|]. subst i. apply str_eqb_refl. }
  congruence.
Qed.

Lemma not_in_artifact_ids (i : uuid) (l : list artifact) :
  existsb (fun x => uuid_eqb (artifact_id x) i) l = false -> ~ In i (map artifact_id l).
Proof.
  intros H Hin. apply in_map_iff in Hin as (x & Hx & Hin).
  assert (Ht : existsb (fun x => uuid_eqb (artifact_id x) i) l = true).
  { apply existsb_exists. exists x. split; [exact Hin|]. subst i. apply str_eqb_refl. }
  congruence.
Qed.

Lemma NoDup_snoc {A} (l : list A) (x : A) : NoDup l -> ~ In x l -> NoDup (l ++ [x]).
Proof.
  intros Hl Hx. apply NoDup_rev in Hl. rewrite <- (rev_involutive (l ++ [x])).
  apply NoDup_rev. rewrite rev_app_distr. simpl. constructor; [|exact Hl].
  now rewrite <- in_rev.
Qed.

Lemma exec_log_cases (s : session) (st : statement event)
  (grants : db_role -> command -> bool) (l : list event) (t' : table event) :
  exec s st (sw_event_log grants l) = inr t' ->
  t' = sw_event_log grants l \/
  exists ev, t' = sw_event_log grants (l ++ [ev]) /\
             existsb (fun x => uuid_eqb (id x) (id ev)) l = false.
Proof.
  destruct st as [r|set w|w].
  - intros H. apply exec_insert_inv in H as [-> Hc]; [|apply sw_event_log_append_only].
    right. exists r. split; [reflexivity|]. now apply event_constraints_fresh.
  - intros [= <-]. now left.
  - intros [= <-]. now left.
Qed.

Lemma exec_artifacts_cases (s : session) (st : statement artifact)
  (grants : db_role -> command -> bool) (log : list event) (l : list artifact)
  (t' : table artifact) :
  exec s st (sw_event_artifacts grants log l) = inr t' ->
  t' = sw_event_artifacts grants log l \/
  exists a, t' = sw_event_artifacts grants log (l ++ [a]) /\
            existsb (fun x => uuid_eqb (artifact_id x) (artifact_id a)) l = false /\
            existsb (fun x => uuid_eqb (id x) (event_id a)) log = true.
Proof.
  destruct st as [r|set w|w].
  - intros H. apply exec_insert_inv in H as [-> Hc]; [|apply sw_event_artifacts_append_only].
    right. exists r. split; [reflexivity|]. cbn in Hc.
    unfold sw_event_artifacts_constraints in Hc.
    destruct (match size_bytes r with Some z => negb (int4_ok z) | None => false end);
      [discriminate|].
    destruct (existsb _ l); [discriminate|].
    destruct (existsb _ log); [auto|discriminate].
  - intros [= <-]. now left.
  - intros [= <-]. now left.
Qed.

(** X9.  The primary keys hold across any sequence of statements by any
    sessions: if the ids of the ledger's rows are pairwise distinct they
    stay so, and likewise the ids of the artifact table's rows. *)
Theorem primary_keys_stay_unique
  (grants : db_role -> command -> bool)
  (l : list event) (script : list (session * statement event))
  (log : list event) (la : list artifact) (script_a : list (session * statement artifact))
  (Hl : NoDup (map id l))
  (Hla : NoDup (map artifact_id la)) :
  NoDup (map id (rows (exec_script script (sw_event_log grants l)))) /\
  NoDup (map artifact_id (rows (exec_script script_a (sw_event_artifacts grants log la)))).
Proof.
  split.
  - clear Hla. revert l Hl. induction script as [|[s st] script IH]; intros l Hl; simpl.
    + exact Hl.
    + destruct (exec s st (sw_event_log grants l)) as [err|t'] eqn:E; [now apply IH|].
      apply exec_log_cases in E as [->|(ev & -> & Hfresh)]; [now apply IH|].
      apply IH. rewrite map_app. simpl. apply NoDup_snoc; [exact Hl|].
      now apply not_in_ids.
  - clear Hl. revert la Hla. induction script_a as [|[s st] script_a IH]; intros la Hla; simpl.
    + exact Hla.
    + destruct (exec s st (sw_event_artifacts grants log la)) as [err|t'] eqn:E;
        [now apply IH|].
      apply exec_artifacts_cases in E as [->|(a & -> & Hfresh & _)]; [now apply IH|].
      apply IH. rewrite map_app. simpl. apply NoDup_snoc; [exact Hla|].
      now apply not_in_artifact_ids.
Qed.

Lemma StronglySorted_snoc {A} (R : A -> A -> Prop) (l : list A) (x : A) :
  StronglySorted R l -> Forall (fun a => R a x) l -> StronglySorted R (l ++ [x]).
Proof.
  induction 1 as [|a l Hs IH Ha]; intros Hx; simpl.
  - constructor; constructor.
  - inversion Hx as [|? ? Rax Hx']; subst. constructor; [auto|].
    apply Forall_app. split; [exact Ha|]. constructor; [exact Rax|constructor].
Qed.

(** X10.  The ledger's timestamps follow the clock: when [now()] never runs
    backwards from one request to the next and no stored timestamp lies
    after the first request's [now()], a ledger whose created_at values are
    non-decreasing in storage order keeps that order through any requests
    the handler serves. *)
Theorem created_at_follows_storage_order
  (grants : db_role -> command -> bool) (rqs : list (env * request)) (l : list event)
  (Hsorted : StronglySorted (fun a b => (created_at a <= created_at b)%Z) l)
  (Hclock : StronglySorted (fun a b => (now (fst a) <= now (fst b))%Z) rqs)
  (Hpast : forall ev a, In ev l -> In a rqs -> (created_at ev <= now (fst a))%Z) :
  StronglySorted (fun a b => (created_at a <= created_at b)%Z) (serve grants rqs l).
Proof.
  revert l Hsorted Hpast. induction Hclock as [|[e rq] rqs Hc IH He]; intros l Hs Hp; simpl.
  - exact Hs.
  - destruct (handler_step e rq grants l) as [->|(ev & -> & _ & Hat & _)].
    + apply IH; [exact Hs|]. intros x a Hx Ha. apply Hp; [exact Hx|now right].
    + apply IH.
      * apply StronglySorted_snoc; [exact Hs|].
        apply Forall_forall. intros x Hx. rewrite Hat.
        apply (Hp x (e, rq) Hx). now left.
      * intros x a Hx Ha. apply in_app_or in Hx as [Hx|[<-|[]]].
        -- apply Hp; [exact Hx|now right].
        -- rewrite Hat. rewrite Forall_forall in He. apply (He a Ha).
Qed.

Lemma wire_finite (v : JSON) : finite v = true -> wire v = v.
Proof.
  revert v. fix IH 1.
  intros [| b | q | n | s | l | l]; cbn [finite wire]; intros H;
    try reflexivity; try discriminate H.
  - f_equal. induction l as [|x r IHl]; [reflexivity|].
    cbn [forallb] in H. apply andb_prop in H as [Hx Hr].
    cbn [map]. rewrite (IH x Hx), (IHl Hr). reflexivity.
  - f_equal. induction l as [|[k x] r IHl]; [reflexivity|].
    cbn [forallb snd] in H. apply andb_prop in H as [Hx Hr].
    cbn [map fst snd]. rewrite (IH x Hx), (IHl Hr). reflexivity.
Qed.

Lemma wire_nullish (v : JSON) : wire (nullish_or_null (Some v)) = wire v.
Proof. destruct v; reflexivity. Qed.

(** X11.  The optional fields pass through unchecked: in the row stored for
    an accepted submission, scan_id, client_id, event_name, req, res, err
    and meta each hold the submitted JSON value as the request to the store
    carries it, of whatever type, and NULL when the field is absent or
    null.  The value is carried as it is unless it holds an infinite
    number (a literal too large for a double), which is written null.
    (The rows of the model keep the JSON value the handler inserts; the cast
    to the TEXT columns is the store's.) *)
Theorem optional_fields_pass_through
  (e : env) (body : JSON) (grants : db_role -> command -> bool) (l : list event)
  (ev : event)
  (Hacc : accepted e (Request (lit "POST") (Some body)) grants l ev) :
  forall (k : string) (column : event -> JSON),
    In (k, column)
       [ ("scan_id", scan_id); ("client_id", client_id); ("event_name", event_name);
         ("req", req); ("res", res); ("err", err); ("meta", meta) ] ->
    (forall v, property body (lit k) = Some v -> v <> JNull ->
               column ev = wire v /\ (finite v = true -> column ev = v)) /\
    (property body (lit k) = None \/ property body (lit k) = Some JNull ->
     column ev = JNull).
Proof.
  apply accepted_inv in Hacc as (body' & s & _ & Hj & _ & _ & _ & _ & _ & _ & ->).
  cbn [json] in Hj. injection Hj as <-.
  intros k column Hin. simpl in Hin.
  repeat (destruct Hin as [[= <- <-]|Hin];
          [cbn [event_of row_of scan_id client_id event_name req res err meta
                row_scan_id row_client_id row_event_name row_req row_res row_err row_meta];
           split;
           [intros v -> Hv; rewrite wire_nullish;
            split; [reflexivity|intros Hfin; now apply wire_finite]
           |intros [->| ->]; reflexivity]|]).
  elim Hin.
Qed.

(* ====================================================================== *)
(** ** The artifact table and the error views *)
(* ====================================================================== *)

Import RecentErrors.

(** X12.  An artifact can only be attached to an event that is in the
    ledger.  Whoever inserts, an insert that succeeds was made by the
    service role, refers to an event of the ledger, puts the row at the end
    of the table and the row is read back by its id.  For the service role
    holding the table privilege, with a fresh id and a size that fits, the
    insert succeeds when the event exists and fails with 23503, the table
    unchanged, when it does not. *)
Theorem artifact_needs_its_event
  (grants : db_role -> command -> bool) (log : list event) (la : list artifact)
  (s : session) (a : artifact) :
  (forall t', exec s (Insert a) (sw_event_artifacts grants log la) = inr t' ->
     role s = service_role /\
     existsb (fun e => uuid_eqb (id e) (event_id a)) log = true /\
     t' = sw_event_artifacts grants log (la ++ [a]) /\
     find_artifact (artifact_id a) (rows t') = Some a)
  /\
  (role s = service_role -> grants service_role INSERT = true ->
   match size_bytes a with Some z => int4_ok z = true | None => True end ->
   existsb (fun x => uuid_eqb (artifact_id x) (artifact_id a)) la = false ->
   exec s (Insert a) (sw_event_artifacts grants log la)
   = if existsb (fun e => uuid_eqb (id e) (event_id a)) log
     then inr (sw_event_artifacts grants log (la ++ [a]))
     else inl foreign_key_violation).
Proof.
  split.
  - intros t' H.
    assert (Hrole : role s = service_role).
    { revert H. unfold exec. cbn. unfold exec_plain. cbn.
      destruct (negb (grants (role s) INSERT)); [discriminate|].
      destruct s as [[| |] j]; cbn; try discriminate. reflexivity. }
    apply exec_insert_inv in H as [-> Hc]; [|apply sw_event_artifacts_append_only].
    cbn in Hc. unfold sw_event_artifacts_constraints in Hc.
    destruct (match size_bytes a with Some z => negb (int4_ok z) | None => false end);
      [discriminate|].
    destruct (existsb (fun x => uuid_eqb (artifact_id x) (artifact_id a)) la) eqn:Hfresh;
      [discriminate|].
    destruct (existsb (fun e => uuid_eqb (id e) (event_id a)) log) eqn:Hev;
      [|discriminate].
    split; [exact Hrole|]. split; [reflexivity|]. split; [reflexivity|].
    cbn [rows with_rows sw_event_artifacts]. apply find_fresh_last;
      [exact Hfresh|apply str_eqb_refl].
  - intros Hrole Hg Hfit Hfresh. destruct s as [r j]. cbn [role] in Hrole. subst r.
    unfold exec. cbn. unfold exec_plain. cbn. rewrite Hg. cbn.
    unfold sw_event_artifacts_constraints. rewrite Hfresh.
    destruct (size_bytes a) as [z|]; [rewrite Hfit; cbn [negb]|];
      destruct (existsb (fun e => uuid_eqb (id e) (event_id a)) log); reflexivity.
Qed.

Lemma select_sw_event_artifacts (grants : db_role -> command -> bool)
  (log : list event) (la : list artifact) (s : session) :
  select_all s (sw_event_artifacts grants log la)
  = if negb (grants (role s) SELECT) then inl permission_denied
    else inr (if bypassrls (role s)
                 || (role_eqb (role s) authenticated && is_true (admin_claim s))
              then la else []).
Proof.
  unfold select_all. cbn [acl rows sw_event_artifacts].
  destruct (negb (grants (role s) SELECT)); [reflexivity|]. f_equal.
  unfold rls_passes. cbn. rewrite !orb_false_r.
  apply (filter_constant
           (bypassrls (role s) || role_eqb (role s) authenticated && is_true (admin_claim s))).
Qed.

(** X13.  The artifact table is read under the same policies as the ledger:
    a session that holds the table privilege reads every artifact when it
    is the service role or an authenticated session with the admin claim,
    and reads none, without an error, otherwise; no read returns part of
    the rows. *)
Theorem artifacts_read_all_or_nothing
  (grants : db_role -> command -> bool) (log : list event) (la : list artifact)
  (s : session)
  (Hgrant : grants (role s) SELECT = true) :
  (holds_admin s \/ role s = service_role ->
   select_all s (sw_event_artifacts grants log la) = inr la) /\
  (~ holds_admin s -> role s <> service_role ->
   select_all s (sw_event_artifacts grants log la) = inr []).
Proof.
  rewrite select_sw_event_artifacts, Hgrant. cbn [negb]. unfold holds_admin.
  destruct s as [r j]. cbn [role]. split.
  - intros [[-> Ha]| ->]; cbn; [|reflexivity]. cbn in Ha. now rewrite Ha.
  - intros Hna Hns. destruct r; cbn; try reflexivity; [|congruence].
    destruct (is_true (admin_claim (Session authenticated j))) eqn:E; [|reflexivity].
    elim Hna. auto.
Qed.

Lemma recent_errors_filter (clock : timestamptz) (l : list event) :
  filter (fun e => is_true (recent_errors_where clock e)) l
  = filter (fun e => is_true (errors_since_where clock (Some 1440%Z) e)) l.
Proof. apply filter_ext. intros e. reflexivity. Qed.

(** X14.  The view v_recent_errors and the function
    sw_event_log_errors_since called with 1440 minutes agree: over the same
    rows and at the same [now()], each admits exactly the results of the
    other, and these hold exactly the error events created in the last 24
    hours, newest first. *)
Theorem recent_errors_is_errors_since_a_day
  (clock : timestamptz) (l : list event) :
  (forall result,
     v_recent_errors clock l result
     <-> sw_event_log_errors_since clock l (Minutes 1440) result) /\
  v_recent_errors_run clock l = sw_event_log_errors_since_run clock l (Minutes 1440) /\
  (forall result,
     v_recent_errors clock l result ->
     Permutation
       (map error_columns
            (filter (fun e => is_error e
                              && Z.leb (clock - 24 * 60 * 60 * 1000000) (created_at e)) l))
       result /\
     StronglySorted (fun x y => (er_created_at y <= er_created_at x)%Z) result).
Proof.
  assert (H : forall result,
             v_recent_errors clock l result
             <-> sw_event_log_errors_since clock l (Minutes 1440) result).
  { intros result. unfold v_recent_errors, sw_event_log_errors_since.
    cbn [minutes_value]. now rewrite recent_errors_filter. }
  split; [exact H|]. split.
  - unfold v_recent_errors_run, sw_event_log_errors_since_run.
    cbn [minutes_value]. now rewrite recent_errors_filter.
  - intros result Hr. apply (proj1 (H result)) in Hr.
    apply errors_since_inv in Hr as [Hperm Hsort].
    cbn [minutes_value] in Hperm. rewrite errors_since_filter in Hperm.
    split; [|exact Hsort].
    replace (24 * 60 * 60 * 1000000)%Z with (1440 * 60 * 1000000)%Z by reflexivity.
    exact Hperm.
Qed.

Lemma errors_since_rows (clock : timestamptz) (l : list event) (n : Z)
  (result : list error_row) (r : error_row) :
  sw_event_log_errors_since clock l (Minutes n) result ->
  (In r result <->
   exists e, In e l /\ is_error e = true /\
             (clock - n * 60 * 1000000 <= created_at e)%Z /\ error_columns e = r).
Proof.
  intros H. apply errors_since_inv in H as [Hperm _]. cbn [minutes_value] in Hperm.
  rewrite errors_since_filter in Hperm. split.
  - intros Hin. eapply Permutation_in in Hin; [|symmetry; exact Hperm].
    apply in_map_iff in Hin as (e & He & Hin). apply filter_In in Hin as [Hin Hp].
    apply andb_true_iff in Hp as [Herr Hw]. apply Z.leb_le in Hw. exists e. auto.
  - intros (e & Hin & Herr & Hw & <-). eapply Permutation_in; [exact Hperm|].
    apply in_map. apply filter_In. split; [exact Hin|].
    rewrite Herr. cbn [andb]. now apply Z.leb_le.
Qed.

(** X15.  A wider window never loses a row: when [n <= m], every row the
    function returns for [n] minutes is among the rows it returns for [m]
    minutes, at the same [now()] over the same ledger.  Called with NULL
    for [minutes] it returns no row at all, and whatever the argument no
    result is longer than the ledger. *)
Theorem wider_window_returns_more
  (clock : timestamptz) (l : list event) (n m : Z)
  (Hnm : (n <= m)%Z) :
  (forall rn rm r,
     sw_event_log_errors_since clock l (Minutes n) rn ->
     sw_event_log_errors_since clock l (Minutes m) rm ->
     In r rn -> In r rm) /\
  (forall result, sw_event_log_errors_since clock l Null result -> result = []) /\
  (forall a result, sw_event_log_errors_since clock l a result ->
                    List.length result <= List.length l).
Proof.
  split; [|split].
  - intros rn rm r Hn Hm Hin.
    apply (errors_since_rows r Hn) in Hin as (e & He & Herr & Hw & Hr).
    apply (errors_since_rows r Hm). exists e. repeat split; auto. lia.
  - intros result [Hperm _]. cbn [minutes_value] in Hperm.
    assert (Hf : filter (fun e => is_true (errors_since_where clock None e)) l = []).
    { clear. induction l as [|e l IH]; simpl; [reflexivity|].
      unfold errors_since_where at 1.
      destruct (str_eqb (status e) (lit "error")); simpl; exact IH. }
    rewrite Hf in Hperm. simpl in Hperm. now apply Permutation_nil in Hperm.
  - intros a result [Hperm _]. rewrite <- (Permutation_length Hperm).
    rewrite length_map. apply filter_length_le.
Qed.

(** The policy predicate in SQL's three-valued logic. *)
Lemma field_text_is_true (j : value) (k word : jsstring) :
  is_true (field_text_is j k word) = true <-> jsonb_field j k = Some (JStr word).
Proof.
  unfold field_text_is. destruct (jsonb_field j k) as [[| b | q | n | s | a | o]|]; simpl;
    try (split; [discriminate|congruence]).
  destruct (str_eqb s word) eqn:E.
  - apply str_eqb_eq in E. subst. tauto.
  - split; [discriminate|]. intros [= ->]. now rewrite str_eqb_refl in E.
Qed.

Lemma sql_or_true (a b : sql_bool) :
  is_true (sql_or a b) = true <-> is_true a = true \/ is_true b = true.
Proof.
  destruct a as [[|]|], b as [[|]|]; simpl; split; intros H; auto;
    try discriminate; destruct H; discriminate.
Qed.

(** X16.  The admin predicate of the read policies holds exactly when the
    token's claims carry the string admin as [role], at the top level or
    under [app_metadata]; either place suffices even when the other is
    missing, and a session without a token, or whose role claims are other
    values, is not an admin. *)
Theorem admin_claim_characterised (s : session) :
  (is_true (admin_claim s) = true <->
   jsonb_field (jwt s) (lit "role") = Some (JStr (lit "admin")) \/
   jsonb_field (jsonb_field (jwt s) (lit "app_metadata")) (lit "role")
     = Some (JStr (lit "admin"))) /\
  (jwt s = None -> is_true (admin_claim s) = false).
Proof.
  split.
  - unfold admin_claim. rewrite sql_or_true, !field_text_is_true. reflexivity.
  - intros H. unfold admin_claim. rewrite H. reflexivity.
Qed.

(* ====================================================================== *)
(** ** run-tests.js: the configuration file and the webhook URL *)
(* ====================================================================== *)

Import RunTests.

Lemma trimStart_blank (s : jsstring) :
  trimStart s = [] <-> forallb is_white_space s = true.
Proof.
  induction s as [|c s IH]; simpl; [tauto|].
  destruct (is_white_space c); simpl; [exact IH|]. split; discriminate.
Qed.

Lemma trimStart_split (s : jsstring) :
  exists w, s = w ++ trimStart s /\ trimStart w = [].
Proof.
  induction s as [|c s (w & Hs & Hw)]; simpl.
  - exists []. auto.
  - destruct (is_white_space c) eqn:E.
    + exists (c :: w). simpl. rewrite E. split; [now f_equal|exact Hw].
    + exists []. auto.
Qed.

Lemma trimStart_app_nonws (a : jsstring) (x : code_unit) (b : jsstring) :
  is_white_space x = false -> trimStart (a ++ x :: b) = trimStart a ++ x :: b.
Proof.
  intros Hx. induction a as [|c a IH]; simpl; [now rewrite Hx|].
  destruct (is_white_space c); [exact IH|reflexivity].
Qed.

Lemma trimEnd_app_nonws (a : jsstring) (x : code_unit) (b : jsstring) :
  is_white_space x = false -> trimEnd (a ++ x :: b) = a ++ x :: trimEnd b.
Proof.
  intros Hx. unfold trimEnd. rewrite rev_app_distr. simpl rev. rewrite <- app_assoc.
  simpl. rewrite (trimStart_app_nonws (rev b) x (rev a) Hx).
  rewrite rev_app_distr. simpl rev. rewrite rev_involutive, <- app_assoc. reflexivity.
Qed.

Lemma trimStart_idempotent (s : jsstring) : trimStart (trimStart s) = trimStart s.
Proof.
  destruct (trimStart s) as [|c r] eqn:E; [reflexivity|].
  simpl. now rewrite (trimStart_head _ E).
Qed.

Lemma trim_trimStart (s : jsstring) : trim (trimStart s) = trim s.
Proof. unfold trim. now rewrite trimStart_idempotent. Qed.

Lemma trimEnd_blank (s : jsstring) : trimStart s = [] -> trimEnd s = [].
Proof.
  intros H. unfold trimEnd. apply trimStart_blank in H.
  assert (Hr : trimStart (rev s) = []).
  { apply trimStart_blank. apply forallb_forall. intros x Hx. apply in_rev in Hx.
    rewrite forallb_forall in H. auto. }
  now rewrite Hr.
Qed.

Lemma trimStart_trimEnd (s : jsstring) : trimStart (trimEnd s) = trim s.
Proof.
  destruct (trimStart_split s) as (w & Hs & Hw).
  destruct (trimStart s) as [|c r] eqn:E.
  - unfold trim. rewrite E. rewrite (trimEnd_blank _ E). reflexivity.
  - pose proof (trimStart_head _ E) as Hc.
    unfold trim. rewrite E. rewrite Hs at 1.
    rewrite (trimEnd_app_nonws w c r Hc), (trimStart_app_nonws w c (trimEnd r) Hc), Hw.
    simpl. symmetry. apply (trimEnd_app_nonws [] c r Hc).
Qed.

Lemma trimEnd_trim (s : jsstring) : trimEnd (trim s) = trim s.
Proof.
  pose proof (trim_idempotent s) as H. unfold trim at 1 in H.
  assert (Hs : trimStart (trim s) = trim s).
  { pose proof (trim_no_outer_white_space s) as Hn.
    destruct (trim s) as [|c r]; [reflexivity|]. simpl. destruct Hn as [-> _]. reflexivity. }
  now rewrite Hs in H.
Qed.

Lemma trim_trimEnd (s : jsstring) : trim (trimEnd s) = trim s.
Proof. unfold trim at 1. rewrite trimStart_trimEnd. apply trimEnd_trim. Qed.

Lemma in_trimStart (x : code_unit) (s : jsstring) : In x (trimStart s) -> In x s.
Proof.
  induction s as [|c s IH]; simpl; [auto|].
  destruct (is_white_space c); [auto|]. simpl. auto.
Qed.

Lemma in_trim (x : code_unit) (s : jsstring) : In x (trim s) -> In x s.
Proof.
  unfold trim, trimEnd. intros H. apply in_rev in H.
  apply in_trimStart in H. apply in_rev in H. now apply in_trimStart in H.
Qed.

Lemma indexOf_none (c : code_unit) (s : jsstring) : ~ In c s -> indexOf c s = None.
Proof.
  induction s as [|x s IH]; simpl; [reflexivity|]. intros H.
  destruct (N.eqb_spec x c) as [->|_]; [elim H; auto|].
  rewrite IH; auto.
Qed.

Lemma indexOf_first (c : code_unit) (a b : jsstring) :
  ~ In c a -> indexOf c (a ++ c :: b) = Some (List.length a).
Proof.
  induction a as [|x a IH]; simpl; intros H.
  - now rewrite N.eqb_refl.
  - destruct (N.eqb_spec x c) as [->|_]; [elim H; auto|].
    rewrite IH; auto.
Qed.

Lemma firstn_prefix {A} (a b : list A) : firstn (List.length a) (a ++ b) = a.
Proof. induction a as [|x a IH]; simpl; [now destruct b|now rewrite IH]. Qed.

Lemma skipn_after {A} (a : list A) (x : A) (b : list A) :
  skipn (S (List.length a)) (a ++ x :: b) = b.
Proof. induction a as [|y a IH]; simpl; [reflexivity|exact IH]. Qed.

Lemma trim_assignment (key value : jsstring) :
  trim (key ++ 61%N :: value) = trimStart key ++ 61%N :: trimEnd value.
Proof.
  unfold trim. rewrite trimStart_app_nonws by reflexivity.
  now rewrite trimEnd_app_nonws by reflexivity.
Qed.

(** What [read_line] does with a line [key=value]. *)
Lemma read_line_assignment (cfg : object) (key value : jsstring) :
  ~ In 61%N key -> startsWith 35%N (trimStart key) = false ->
  read_line cfg (key ++ 61%N :: value) = set_property (trim key) (trim value) cfg.
Proof.
  intros Hk Hc. unfold read_line. rewrite trim_assignment.
  assert (Hne : match trimStart key ++ 61%N :: trimEnd value with
                | [] => true | _ => false end = false)
    by (destruct (trimStart key); reflexivity).
  assert (Hst : startsWith 35%N (trimStart key ++ 61%N :: trimEnd value) = false)
    by (destruct (trimStart key); [reflexivity|exact Hc]).
  rewrite Hne, Hst. cbn [orb].
  rewrite indexOf_first by (intros H; apply Hk; now apply in_trimStart).
  rewrite firstn_prefix, skipn_after, trim_trimStart, trim_trimEnd. reflexivity.
Qed.

Lemma split_lines_nonempty (s : jsstring) : split_lines s <> [].
Proof.
  induction s as [|c s IH]; simpl; [discriminate|].
  destruct (N.eqb c 10); [discriminate|]. destruct (split_lines s); discriminate.
Qed.

Lemma split_lines_app (a b : jsstring) :
  split_lines (a ++ 10%N :: b) = split_lines a ++ split_lines b.
Proof.
  induction a as [|c a IH]; simpl; [reflexivity|].
  destruct (N.eqb c 10); [now rewrite IH|]. rewrite IH.
  pose proof (split_lines_nonempty a) as Hne.
  destruct (split_lines a); [congruence|reflexivity].
Qed.

Lemma split_lines_one (s : jsstring) : ~ In 10%N s -> split_lines s = [s].
Proof.
  induction s as [|c s IH]; simpl; [reflexivity|]. intros H.
  destruct (N.eqb_spec c 10) as [->|_]; [elim H; auto|].
  rewrite IH; auto.
Qed.

(** X17.  A line [key=value] at the end of the configuration file binds
    the trimmed key to the trimmed value, whatever the file held before, so
    the last assignment of a key wins.  The line is split at its first [=]:
    the value may itself contain [=].  (The key holds no [=] or line feed,
    is not a comment and is not [__proto__]; the value holds no line
    feed.) *)
Theorem last_assignment_wins
  (text key value : jsstring)
  (Hkey : ~ In 61%N key /\ ~ In 10%N key)
  (Hvalue : ~ In 10%N value)
  (Hcomment : startsWith 35%N (trimStart key) = false)
  (Hproto : trim key <> lit "__proto__") :
  exists before,
    loadConfig (Some text) = Some before /\
    loadConfig (Some (text ++ 10%N :: key ++ 61%N :: value))
    = Some ((trim key, trim value) :: before) /\
    forall cfg,
      loadConfig (Some (text ++ 10%N :: key ++ 61%N :: value)) = Some cfg ->
      own_property (trim key) cfg = Some (trim value).
Proof.
  destruct Hkey as [Hk Hn].
  assert (Hline : split_lines (key ++ 61%N :: value) = [key ++ 61%N :: value]).
  { apply split_lines_one. intros H. apply in_app_or in H as [H|[H|H]];
      [auto|discriminate|auto]. }
  assert (Hset : set_property (trim key) (trim value)
                   (fold_left read_line (split_lines text) [])
                 = (trim key, trim value) :: fold_left read_line (split_lines text) []).
  { unfold set_property.
    destruct (str_eqb (trim key) (lit "__proto__")) eqn:E; [|reflexivity].
    apply str_eqb_eq in E. contradiction. }
  assert (Hload : loadConfig (Some (text ++ 10%N :: key ++ 61%N :: value))
                  = Some ((trim key, trim value)
                          :: fold_left read_line (split_lines text) [])).
  { unfold loadConfig. rewrite split_lines_app, Hline, fold_left_app. simpl.
    now rewrite (@read_line_assignment _ key value Hk Hcomment), Hset. }
  exists (fold_left read_line (split_lines text) []).
  split; [reflexivity|]. split; [exact Hload|].
  intros cfg Hcfg. rewrite Hload in Hcfg. injection Hcfg as <-.
  simpl. now rewrite str_eqb_refl.
Qed.

Lemma read_line_ignored (cfg : object) (line : jsstring) :
  forallb is_white_space line = true \/
  startsWith 35%N (trimStart line) = true \/
  ~ In 61%N line ->
  read_line cfg line = cfg.
Proof.
  intros [Hb|[Hc|He]]; unfold read_line.
  - apply trimStart_blank in Hb. unfold trim. rewrite Hb. reflexivity.
  - destruct (trimStart line) as [|c r] eqn:E; [discriminate|].
    rewrite (trim_shape _ E). simpl in Hc. simpl. rewrite Hc. reflexivity.
  - destruct (_ || _); [reflexivity|].
    rewrite indexOf_none; [reflexivity|]. intros H. apply He. now apply in_trim.
Qed.

(** X18.  Lines that assign nothing are skipped: a line that is blank, or
    whose first non-blank character is [#], or that holds no [=], can be
    put into the file or taken out of it, between any two lines, without
    changing the configuration read.  A missing file gives no
    configuration at all (the runner exits). *)
Theorem comment_and_blank_lines_are_skipped
  (above below line : jsstring)
  (Hline : ~ In 10%N line)
  (Hskip : forallb is_white_space line = true \/
           startsWith 35%N (trimStart line) = true \/
           ~ In 61%N line) :
  loadConfig (Some (above ++ 10%N :: line ++ 10%N :: below))
  = loadConfig (Some (above ++ 10%N :: below)) /\
  loadConfig None = None.
Proof.
  split; [|reflexivity]. unfold loadConfig. f_equal.
  rewrite !split_lines_app, (@split_lines_one line Hline), !fold_left_app. simpl.
  now rewrite (@read_line_ignored _ line Hskip).
Qed.

Lemma strip_trailing_slash_snoc (b : jsstring) :
  strip_trailing_slash (b ++ [47%N]) = b.
Proof.
  unfold strip_trailing_slash. rewrite rev_app_distr. simpl. apply rev_involutive.
Qed.

Lemma strip_trailing_slash_none (b : jsstring) :
  last b 0%N <> 47%N -> strip_trailing_slash b = b.
Proof.
  unfold strip_trailing_slash. intros H.
  destruct (rev b) as [|c r] eqn:E; [reflexivity|].
  destruct (N.eqb_spec c 47) as [->|_]; [|reflexivity].
  assert (Hb : b = rev r ++ [47%N]).
  { rewrite <- (rev_involutive b), E. reflexivity. }
  rewrite Hb, last_last in H. now elim H.
Qed.

(** X19.  [buildUrl] joins the base URL and the webhook path after taking
    one slash, and only one, off the end of the base: a base written with a
    final slash and the same base without it give the same URL.  Without
    N8N_BASE_URL in the configuration it throws. *)
Theorem buildUrl_strips_one_slash
  (cfg : object) (base path : jsstring)
  (Hbase : own_property (lit "N8N_BASE_URL") cfg = Some base) :
  (forall b, base = b ++ [47%N] -> buildUrl cfg (Some path) = Some (b ++ path)) /\
  (last base 0%N <> 47%N -> buildUrl cfg (Some path) = Some (base ++ path)) /\
  (forall other, own_property (lit "N8N_BASE_URL") other = None ->
                 buildUrl other (Some path) = None).
Proof.
  unfold buildUrl. rewrite Hbase. split; [|split].
  - intros b ->. now rewrite strip_trailing_slash_snoc.
  - intros H. now rewrite strip_trailing_slash_none.
  - intros other ->. reflexivity.
Qed.

(* ====================================================================== *)
(** ** The scan route *)
(* ====================================================================== *)

Lemma scan_with_body_cases (e : ScanRoute.env) (body : JSON) :
  body <> JNull ->
  (~ scan_named body /\
   exists r, ScanRoute.with_body e body = ScanRoute.Returned r []
             /\ ScanRoute.status_code r = 400%Z) \/
  (scan_named body /\ scan_key e body = None /\
   ScanRoute.with_body e body
   = ScanRoute.Caught (ScanRoute.prop body "scanId") (ScanRoute.conversion_error e) []) \/
  (scan_named body /\
   exists key,
     scan_key e body = Some key /\
     ScanRoute.lookup_truthy (ScanRoute.lookup_in (ScanRoute.N8N_WEBHOOKS e) key) = false /\
     exists r, ScanRoute.with_body e body = ScanRoute.Returned r []
               /\ ScanRoute.status_code r = 400%Z) \/
  (scan_named body /\
   exists key,
     webhook_configured e body key /\
     ((exists m, ScanRoute.with_body e body
                 = ScanRoute.Caught (ScanRoute.prop body "scanId") m
                     (scan_started e body key)) \/
      (exists r data,
         ScanRoute.with_body e body
         = ScanRoute.Returned r
             (scan_started e body key
              ++ [ScanRoute.UpdateScan (nullish_or_null (ScanRoute.prop body "scanId"))
                    [(lit "status", JStr (lit "completed"));
                     (lit "completed_at", JStr (ScanRoute.finished_at e));
                     (lit "result", wire data)]]) /\
         ScanRoute.status_code r = 200%Z /\
         ScanRoute.payload r
         = Some (JObj (ScanRoute.field "success" (Some (JBool true))
                       ++ ScanRoute.field "scanId" (ScanRoute.prop body "scanId")
                       ++ ScanRoute.field "agent"
                            (ScanRoute.serialised
                               (ScanRoute.lookup_in ScanRoute.AGENT_LABELS key))
                       ++ ScanRoute.field "status" (Some (JStr (lit "completed")))
                       ++ ScanRoute.field "webhookResponse" (Some data)))))).
Proof.
  intros Hb. unfold ScanRoute.with_body, scan_named, webhook_configured, scan_key,
               scan_started.
  cbv zeta.
  destruct (truthy (ScanRoute.prop body "scanId")) eqn:H1; cbn [negb orb].
  2:{ left. split; [intros (_ & H & _); discriminate|]. eexists. split; reflexivity. }
  destruct (truthy (ScanRoute.prop body "scanType")) eqn:H2; cbn [negb orb].
  2:{ left. split; [intros (_ & _ & H & _); discriminate|]. eexists. split; reflexivity. }
  destruct (truthy (ScanRoute.prop body "target")) eqn:H3; cbn [negb orb].
  2:{ left. split; [intros (_ & _ & _ & H); discriminate|]. eexists. split; reflexivity. }
  right.
  destruct (ScanRoute.to_string (ScanRoute.number_text e)
              (nullish_or_null (ScanRoute.prop body "scanType"))) as [key|] eqn:Hk.
  2:{ left. split; [auto|]. split; reflexivity. }
  right.
  destruct (ScanRoute.lookup_truthy (ScanRoute.lookup_in (ScanRoute.N8N_WEBHOOKS e) key))
    eqn:H4; cbn [negb].
  2:{ left. split; [auto|]. exists key. split; [reflexivity|]. split; [exact H4|].
      eexists. split; reflexivity. }
  right. split; [auto|]. exists key. split; [split; [reflexivity|exact H4]|].
  destruct (ScanRoute.fetch e _ _) as [m|ok status [v|[m|raw]]].
  - left. eexists. reflexivity.
  - destruct ok; cbn [negb].
    + right. eexists. eexists. split; [reflexivity|]. split; reflexivity.
    + left. eexists. reflexivity.
  - left. eexists. reflexivity.
  - destruct ok; cbn [negb].
    + right. eexists. eexists. split; [reflexivity|]. split; reflexivity.
    + left. eexists. reflexivity.
Qed.

Lemma scan_try_block_body (e : ScanRoute.env) (rq : ScanRoute.request) (body : JSON) :
  ScanRoute.json rq = Some body -> body <> JNull ->
  ScanRoute.try_block e rq = ScanRoute.with_body e body.
Proof.
  intros Hj Hb. unfold ScanRoute.try_block. rewrite Hj.
  destruct body; try reflexivity. now elim Hb.
Qed.

Lemma scan_route_taken (e : ScanRoute.env) (rq : ScanRoute.request) (body : JSON) :
  ScanRoute.json rq = Some body -> body <> JNull ->
  ScanRoute.method rq <> lit "OPTIONS" -> ScanRoute.createClient_throws e = false ->
  ScanRoute.POST e rq
  = match ScanRoute.with_body e body with
    | ScanRoute.Returned r effects => (ScanRoute.Responded r, effects)
    | ScanRoute.Caught scanId message effects =>
        (ScanRoute.Responded
           (ScanRoute.Response 500 ScanRoute.json_headers
              (Some (JObj (ScanRoute.field "success" (Some (JBool false))
                           ++ ScanRoute.field "scanId" scanId
                           ++ ScanRoute.field "error" (Some (JStr message)))))),
         if truthy scanId
         then effects ++ [ScanRoute.UpdateScan (nullish_or_null scanId)
                            [(lit "status", JStr (lit "failed"));
                             (lit "completed_at", JStr (ScanRoute.finished_at e));
                             (lit "error_message", JStr message)]]
         else effects)
    end.
Proof.
  intros Hj Hb Hm Hc. unfold ScanRoute.POST.
  assert (Ho : str_eqb (ScanRoute.method rq) (lit "OPTIONS") = false).
  { apply not_true_is_false. intros H. apply str_eqb_eq in H. contradiction. }
  rewrite Ho, Hc, (scan_try_block_body e rq Hj Hb). reflexivity.
Qed.

Lemma scan_route_not_taken (e : ScanRoute.env) (rq : ScanRoute.request) :
  ScanRoute.method rq = lit "OPTIONS" \/ ScanRoute.createClient_throws e = true \/
  (forall body, ScanRoute.json rq = Some body -> body = JNull) ->
  snd (ScanRoute.POST e rq) = [].
Proof.
  intros H. unfold ScanRoute.POST.
  destruct (str_eqb (ScanRoute.method rq) (lit "OPTIONS")) eqn:Ho; [reflexivity|].
  destruct (ScanRoute.createClient_throws e); [reflexivity|].
  destruct H as [H|[H|H]]; [|discriminate H|].
  - rewrite H, str_eqb_refl in Ho. discriminate Ho.
  - unfold ScanRoute.try_block. destruct (ScanRoute.json rq) as [body|]; [|reflexivity].
    rewrite (H body eq_refl). reflexivity.
Qed.

(** What the route does, by cases. *)
Lemma scan_route_effects (e : ScanRoute.env) (rq : ScanRoute.request) :
  snd (ScanRoute.POST e rq) = [] \/
  (exists body r,
     ScanRoute.json rq = Some body /\ scan_named body /\ scan_key e body = None /\
     ScanRoute.POST e rq
     = (ScanRoute.Responded r, [scan_failed e body (ScanRoute.conversion_error e)]) /\
     ScanRoute.status_code r = 500%Z) \/
  (exists body key r,
     ScanRoute.json rq = Some body /\ scan_named body /\ webhook_configured e body key /\
     ((exists m,
         ScanRoute.POST e rq
         = (ScanRoute.Responded r, scan_started e body key ++ [scan_failed e body m]) /\
         ScanRoute.status_code r = 500%Z) \/
      (exists data,
         ScanRoute.POST e rq
         = (ScanRoute.Responded r,
            scan_started e body key
            ++ [ScanRoute.UpdateScan (nullish_or_null (ScanRoute.prop body "scanId"))
                  [(lit "status", JStr (lit "completed"));
                   (lit "completed_at", JStr (ScanRoute.finished_at e));
                   (lit "result", wire data)]]) /\
         ScanRoute.status_code r = 200%Z /\
         ScanRoute.payload r
         = Some (JObj (ScanRoute.field "success" (Some (JBool true))
                       ++ ScanRoute.field "scanId" (ScanRoute.prop body "scanId")
                       ++ ScanRoute.field "agent"
                            (ScanRoute.serialised
                               (ScanRoute.lookup_in ScanRoute.AGENT_LABELS key))
                       ++ ScanRoute.field "status" (Some (JStr (lit "completed")))
                       ++ ScanRoute.field "webhookResponse" (Some data)))))).
Proof.
  destruct (str_eqb (ScanRoute.method rq) (lit "OPTIONS")) eqn:Ho.
  { left. apply scan_route_not_taken. left. now apply str_eqb_eq. }
  assert (Hm : ScanRoute.method rq <> lit "OPTIONS").
  { intros H. rewrite H, str_eqb_refl in Ho. discriminate Ho. }
  destruct (ScanRoute.createClient_throws e) eqn:Hc.
  { left. apply scan_route_not_taken. right. left. exact Hc. }
  destruct (ScanRoute.json rq) as [body|] eqn:Hj.
  2:{ left. apply scan_route_not_taken. right. right. rewrite Hj. discriminate. }
  destruct (body_null_or_not body) as [->|Hb].
  { left. apply scan_route_not_taken. right. right. rewrite Hj. now intros ? [= <-]. }
  rewrite (scan_route_taken e rq Hj Hb Hm Hc).
  destruct (scan_with_body_cases e Hb)
    as [(_ & r & -> & _)
       |[(Hn & Hk & ->)
        |[(_ & key & _ & _ & r & -> & _)
         |(Hn & key & Hw & [(m & ->)|(r & data & -> & H200 & Hp)])]]].
  - now left.
  - right. left. pose proof Hn as (_ & Hid & _). rewrite Hid.
    exists body. eexists. split; [reflexivity|]. split; [exact Hn|]. split; [exact Hk|].
    split; reflexivity.
  - now left.
  - right. right. pose proof Hn as (_ & Hid & _). rewrite Hid.
    exists body, key. eexists. split; [reflexivity|]. split; [exact Hn|].
    split; [exact Hw|]. left. exists m. split; reflexivity.
  - right. right. exists body, key, r. split; [reflexivity|]. split; [exact Hn|].
    split; [exact Hw|]. right. exists data. split; [reflexivity|]. split; assumption.
Qed.


(** X21.  A scan the route marks running is never left running.  What the
    route does is nothing at all; or, when the scan type cannot be
    converted to a property key, the one update that marks the scan failed,
    with the answer 500; or exactly this: it marks the scan running, calls
    the webhook once, and writes one final status to the same scan,
    completed with the answer 200 or failed with the answer 500, whether
    the webhook could not be reached, answered with an error status or its
    answer could not be read.  The route itself throws only when the client
    cannot be created.  (The updates of the scans table are taken not to
    throw.) *)
Theorem scan_never_left_running
  (e : ScanRoute.env) (rq : ScanRoute.request) :
  (snd (ScanRoute.POST e rq) = [] \/
   (exists body r,
      ScanRoute.json rq = Some body /\ scan_key e body = None /\
      ScanRoute.POST e rq
      = (ScanRoute.Responded r, [scan_failed e body (ScanRoute.conversion_error e)]) /\
      ScanRoute.status_code r = 500%Z) \/
   exists body key r final,
     ScanRoute.json rq = Some body /\ scan_key e body = Some key /\
     ScanRoute.POST e rq
     = (ScanRoute.Responded r,
        scan_started e body key
        ++ [ScanRoute.UpdateScan (nullish_or_null (ScanRoute.prop body "scanId")) final]) /\
     ((ScanRoute.status_code r = 200%Z /\
       assoc (lit "status") final = Some (JStr (lit "completed"))) \/
      (ScanRoute.status_code r = 500%Z /\
       assoc (lit "status") final = Some (JStr (lit "failed"))))) /\
  (forall eff, In eff (snd (ScanRoute.POST e rq)) -> starts_scan eff ->
   exists id final,
     last (snd (ScanRoute.POST e rq)) eff = ScanRoute.UpdateScan id final /\
     (assoc (lit "status") final = Some (JStr (lit "completed")) \/
      assoc (lit "status") final = Some (JStr (lit "failed")))) /\
  (fst (ScanRoute.POST e rq) = ScanRoute.Threw
   <-> ScanRoute.method rq <> lit "OPTIONS" /\ ScanRoute.createClient_throws e = true).
Proof.
  split; [|split].
  - destruct (scan_route_effects e rq)
      as [H|[(body & r & Hj & _ & Hk & Hrun & H500)
            |(body & key & r & Hj & _ & [Hk _] & [(m & Hrun & H500)
                                                  |(data & Hrun & H200 & _)])]].
    + now left.
    + right. left. exists body, r. auto.
    + right. right. exists body, key, r. eexists. split; [exact Hj|]. split; [exact Hk|].
      split; [exact Hrun|]. right. split; [exact H500|reflexivity].
    + right. right. exists body, key, r. eexists. split; [exact Hj|]. split; [exact Hk|].
      split; [exact Hrun|]. left. split; [exact H200|reflexivity].
  - intros eff Hin Hstart.
    destruct (scan_route_effects e rq)
      as [H|[(body & r & _ & _ & _ & Hrun & _)
            |(body & key & r & _ & _ & _ & [(m & Hrun & _)|(data & Hrun & _)])]].
    + rewrite H in Hin. elim Hin.
    + rewrite Hrun in Hin. destruct Hin as [<-|[]]. discriminate Hstart.
    + rewrite Hrun. eexists. eexists. split; [reflexivity|]. right. reflexivity.
    + rewrite Hrun. eexists. eexists. split; [reflexivity|]. left. reflexivity.
  - unfold ScanRoute.POST.
    destruct (str_eqb (ScanRoute.method rq) (lit "OPTIONS")) eqn:Ho.
    { apply str_eqb_eq in Ho. split; [discriminate|]. intros [H _]. contradiction. }
    assert (Hm : ScanRoute.method rq <> lit "OPTIONS").
    { intros H. apply str_eqb_eq in H. congruence. }
    destruct (ScanRoute.createClient_throws e); [tauto|].
    destruct (ScanRoute.try_block e rq); (split; [discriminate|intros [_ H]; discriminate]).
Qed.

Lemma scan_type_tables (e : ScanRoute.env) (s : jsstring) :
  existsb (str_eqb s) ScanRoute.object_prototype_names = false ->
  ScanRoute.lookup_truthy (ScanRoute.lookup_in (ScanRoute.N8N_WEBHOOKS e) s) = true ->
  exists label variable url,
    In (label, variable)
       [ (lit "agent-1", ScanRoute.N8N_WEBHOOK_AGENT_1 e);
         (lit "agent-2", ScanRoute.N8N_WEBHOOK_AGENT_2 e);
         (lit "agent-3", ScanRoute.N8N_WEBHOOK_AGENT_3 e) ] /\
    variable = Some url /\ url <> [] /\
    ScanRoute.lookup_in (ScanRoute.N8N_WEBHOOKS e) s = ScanRoute.Own url /\
    ScanRoute.lookup_in ScanRoute.AGENT_LABELS s = ScanRoute.Own label.
Proof.
  intros Hown.
  assert (Hvar : forall var : option jsstring,
            ScanRoute.lookup_truthy (ScanRoute.Own (ScanRoute.or_empty var)) = true ->
            exists url, var = Some url /\ url <> [] /\ ScanRoute.or_empty var = url).
  { intros [[|c u]|]; simpl; try discriminate. intros _. eexists. repeat split. discriminate. }
  unfold ScanRoute.lookup_in.
  cbn [find ScanRoute.N8N_WEBHOOKS ScanRoute.AGENT_LABELS fst].
  destruct (str_eqb s (lit "vulnerability")).
  { intros H. apply Hvar in H as (url & Hv & Hne & Hu). rewrite Hu.
    exists (lit "agent-2"), (ScanRoute.N8N_WEBHOOK_AGENT_2 e), url. simpl. auto 10. }
  destruct (str_eqb s (lit "compliance")).
  { intros H. apply Hvar in H as (url & Hv & Hne & Hu). rewrite Hu.
    exists (lit "agent-3"), (ScanRoute.N8N_WEBHOOK_AGENT_3 e), url. simpl. auto 10. }
  destruct (str_eqb s (lit "penetration_test")).
  { intros H. apply Hvar in H as (url & Hv & Hne & Hu). rewrite Hu.
    exists (lit "agent-1"), (ScanRoute.N8N_WEBHOOK_AGENT_1 e), url. simpl. auto 10. }
  destruct (str_eqb s (lit "web_application")).
  { intros H. apply Hvar in H as (url & Hv & Hne & Hu). rewrite Hu.
    exists (lit "agent-1"), (ScanRoute.N8N_WEBHOOK_AGENT_1 e), url. simpl. auto 10. }
  destruct (str_eqb s (lit "network")).
  { intros H. apply Hvar in H as (url & Hv & Hne & Hu). rewrite Hu.
    exists (lit "agent-1"), (ScanRoute.N8N_WEBHOOK_AGENT_1 e), url. simpl. auto 10. }
  destruct (str_eqb s (lit "__proto__")) eqn:Hp.
  { exfalso. assert (H : existsb (str_eqb s) ScanRoute.object_prototype_names = true).
    { apply existsb_exists. exists (lit "__proto__"). split; [|exact Hp].
      unfold ScanRoute.object_prototype_names. simpl. auto 15. }
    congruence. }
  rewrite Hown. discriminate.
Qed.

(** X22.  The answer names the agent whose webhook was called.  When a scan
    whose scanType is a string (other than a property name of
    [Object.prototype]) is answered 200, the webhook called is the one
    configured for agent 1, 2 or 3, that variable is set and not empty, and
    the answer's [agent] is the label of that same agent. *)
Theorem scan_answer_names_the_agent_called
  (e : ScanRoute.env) (rq : ScanRoute.request) (body : JSON) (s : jsstring)
  (r : ScanRoute.response) (effects : list ScanRoute.effect)
  (Hjson : ScanRoute.json rq = Some body)
  (Htype : ScanRoute.prop body "scanType" = Some (JStr s))
  (Hown : existsb (str_eqb s) ScanRoute.object_prototype_names = false)
  (Hrun : ScanRoute.POST e rq = (ScanRoute.Responded r, effects))
  (Hdone : ScanRoute.status_code r = 200%Z)
  (Hacted : effects <> []) :
  exists label variable url,
    In (label, variable)
       [ (lit "agent-1", ScanRoute.N8N_WEBHOOK_AGENT_1 e);
         (lit "agent-2", ScanRoute.N8N_WEBHOOK_AGENT_2 e);
         (lit "agent-3", ScanRoute.N8N_WEBHOOK_AGENT_3 e) ] /\
    variable = Some url /\ url <> [] /\
    (exists sent, In (ScanRoute.CallWebhook (ScanRoute.Own url)
                        (ScanRoute.N8N_WEBHOOK_API_KEY e) sent) effects) /\
    exists fields, ScanRoute.payload r = Some (JObj fields) /\
                   assoc (lit "agent") fields = Some (JStr label).
Proof.
  assert (Hkey : scan_key e body = Some s).
  { unfold scan_key. rewrite Htype. reflexivity. }
  destruct (scan_route_effects e rq)
    as [H|[(body' & r' & Hj & _ & Hk & Hrun' & H500)
          |(body' & key & r' & Hj & _ & [Hk Hurl] & [(m & Hrun' & H500)
                                                     |(data & Hrun' & _ & Hp)])]].
  - rewrite Hrun in H. contradiction.
  - rewrite Hrun in Hrun'. injection Hrun' as <- _. rewrite Hdone in H500. discriminate.
  - rewrite Hrun in Hrun'. injection Hrun' as <- _. rewrite Hdone in H500. discriminate.
  - rewrite Hjson in Hj. injection Hj as <-.
    rewrite Hkey in Hk. injection Hk as <-.
    rewrite Hrun in Hrun'. injection Hrun' as <- ->.
    destruct (scan_type_tables e s Hown Hurl)
      as (label & variable & url & Hin & Hv & Hne & Hw & Hl).
    exists label, variable, url. split; [exact Hin|]. split; [exact Hv|].
    split; [exact Hne|]. split.
    + eexists. try unfold scan_started. cbn [app In]. right. left.
      rewrite Hw. reflexivity.
    + rewrite Hp, Hl. destruct (ScanRoute.prop body "scanId") as [v|]; eexists;
        (split; [reflexivity|]); reflexivity.
Qed.

(* ====================================================================== *)
(** ** The further properties at concrete inputs *)
(* ====================================================================== *)

Lemma handler_status_codes_witness :
  fst (handler Samples.env0 (Request (lit "GET") (Some Samples.body_ok))
         (sw_event_log Samples.all_granted []))
  = Return (jsonError (lit "Method not allowed. Use POST.") 405) /\
  In 405%Z [204; 405; 400; 500; 201]%Z.
Proof.
  assert (H : fst (handler Samples.env0 (Request (lit "GET") (Some Samples.body_ok))
                     (sw_event_log Samples.all_granted []))
              = Return (jsonError (lit "Method not allowed. Use POST.") 405))
    by reflexivity.
  split; [exact H|].
  apply (@handler_status_codes Samples.env0 (Request (lit "GET") (Some Samples.body_ok))
           Samples.all_granted [] _ H).
Defined.

Lemma sample_no_type_fields :
  Forall (fun g => ~ missing_or_blank Samples.body_no_type g)
         [lit "trace_id"; lit "source"].
Proof. repeat constructor; intros H; vm_compute in H; discriminate H. Qed.

Lemma first_missing_field_is_reported_witness :
  missing_or_blank Samples.body_no_type (lit "event_type") /\
  handler Samples.env0 (Request (lit "POST") (Some Samples.body_no_type))
          (sw_event_log Samples.all_granted [])
  = (Return (jsonError (lit "Missing or invalid required field: " ++ lit "event_type") 400),
     sw_event_log Samples.all_granted []).
Proof.
  assert (Hb : Samples.body_no_type <> JNull) by discriminate.
  assert (Hm : missing_or_blank Samples.body_no_type (lit "event_type")) by exact I.
  split; [exact Hm|].
  apply (@first_missing_field_is_reported Samples.env0 Samples.body_no_type
           Samples.all_granted [] [lit "trace_id"; lit "source"] [] (lit "event_type")
           Hb eq_refl sample_no_type_fields Hm).
Defined.

Lemma sample_valid_submission : valid_submission Samples.body_ok.
Proof.
  split; [discriminate|]. split; [apply sample_fields_present|reflexivity].
Qed.

Lemma validation_precedes_configuration_witness :
  unset (SUPABASE_URL MoreSamples.env_unset) = true /\
  handler MoreSamples.env_unset (Request (lit "POST") (Some Samples.body_ok))
          (sw_event_log Samples.all_granted [])
  = (Return (jsonError (lit "Server configuration error.") 500),
     sw_event_log Samples.all_granted []).
Proof.
  assert (Hb : Samples.body_ok <> JNull) by discriminate.
  assert (Hu : unset (SUPABASE_URL MoreSamples.env_unset) = true) by reflexivity.
  split; [exact Hu|].
  apply (proj1 (@validation_precedes_configuration MoreSamples.env_unset Samples.body_ok
                  Samples.all_granted [] Hb (or_introl Hu))).
  apply sample_valid_submission.
Defined.

Lemma sample_long_valid : valid_submission MoreSamples.body_long.
Proof.
  split; [discriminate|]. split; [|reflexivity].
  repeat constructor; intros H; vm_compute in H; discriminate H.
Qed.

Lemma storage_failure_is_500_witness :
  configured Samples.env0 /\
  handler Samples.env0 (Request (lit "POST") (Some MoreSamples.body_long))
          (sw_event_log Samples.all_granted [])
  = (Return (insert_error numeric_out_of_range), sw_event_log Samples.all_granted []).
Proof.
  split; [apply sample_configured|].
  destruct (@storage_failure_is_500 Samples.env0 MoreSamples.body_long Samples.all_granted []
              sample_long_valid sample_configured) as (_ & _ & H & _).
  apply (H (10000000000 # 1)%Q); reflexivity.
Defined.

Lemma sample_accepted :
  accepted Samples.env0 (Request (lit "POST") (Some Samples.body_ok)) Samples.all_granted []
           Samples.stored_ok.
Proof. reflexivity. Qed.

Lemma stored_text_is_trimmed_witness :
  source Samples.stored_ok = lit "n8n" /\
  no_outer_white_space (source Samples.stored_ok) /\
  trim (event_type Samples.stored_ok) = event_type Samples.stored_ok.
Proof.
  destruct (@stored_text_is_trimmed Samples.env0 Samples.body_ok Samples.all_granted []
              Samples.stored_ok sample_accepted) as (_ & _ & _ & _ & Hs & _ & _ & Ht).
  split; [reflexivity|]. split; [exact Hs|exact Ht].
Defined.

Lemma primary_keys_stay_unique_witness :
  NoDup (map id Samples.tied) /\
  NoDup (map id (rows (exec_script MoreSamples.duplicate_insert
                         (sw_event_log Samples.all_granted Samples.tied)))).
Proof.
  assert (Hl : NoDup (map id Samples.tied)).
  { repeat constructor; intros H; vm_compute in H; intuition discriminate. }
  split; [exact Hl|].
  apply (proj1 (@primary_keys_stay_unique Samples.all_granted Samples.tied
                  MoreSamples.duplicate_insert [] [] [] Hl (NoDup_nil _))).
Defined.

Lemma created_at_follows_storage_order_witness :
  StronglySorted (fun a b => (created_at a <= created_at b)%Z)
    (serve Samples.all_granted
       [(Samples.env0, Request (lit "POST") (Some Samples.body_ok))] Samples.tied).
Proof.
  apply created_at_follows_storage_order.
  - repeat constructor; simpl; lia.
  - repeat constructor.
  - intros ev a Hev [<-|[]]. simpl.
    destruct Hev as [<-|[<-|[]]]; simpl; lia.
Defined.

Lemma sample_payload_accepted :
  accepted Samples.env0 (Request (lit "POST") (Some MoreSamples.body_payload))
           Samples.all_granted [] MoreSamples.stored_payload.
Proof. reflexivity. Qed.

Lemma sample_infinite_meta_accepted :
  accepted Samples.env0 (Request (lit "POST") (Some MoreSamples.body_infinite_meta))
           Samples.all_granted [] MoreSamples.stored_infinite_meta.
Proof. reflexivity. Qed.

Lemma optional_fields_pass_through_witness :
  scan_id MoreSamples.stored_payload = JNum (7 # 1)%Q /\
  meta MoreSamples.stored_payload = JNull /\
  meta MoreSamples.stored_infinite_meta
  = JObj [(lit "bytes", JNull); (lit "ok", JBool true)].
Proof.
  pose proof (@optional_fields_pass_through Samples.env0 MoreSamples.body_payload
                Samples.all_granted [] MoreSamples.stored_payload sample_payload_accepted)
    as H.
  split; [|split].
  - apply (proj1 (H "scan_id" scan_id (or_introl eq_refl)) (JNum (7 # 1)%Q));
      [reflexivity|discriminate|reflexivity].
  - apply (proj2 (H "meta" meta
                    (or_intror (or_intror (or_intror (or_intror (or_intror
                       (or_intror (or_introl eq_refl))))))))).
    right. reflexivity.
  - pose proof (@optional_fields_pass_through Samples.env0 MoreSamples.body_infinite_meta
                  Samples.all_granted [] MoreSamples.stored_infinite_meta
                  sample_infinite_meta_accepted) as Hi.
    assert (Hne : JObj [(lit "bytes", JInf false); (lit "ok", JBool true)] <> JNull)
      by discriminate.
    apply (proj1 (proj1 (Hi "meta" meta
                           (or_intror (or_intror (or_intror (or_intror (or_intror
                              (or_intror (or_introl eq_refl))))))))
                        (JObj [(lit "bytes", JInf false); (lit "ok", JBool true)])
                        eq_refl Hne)).
Defined.

Lemma artifacts_read_all_or_nothing_witness :
  Samples.all_granted (role Samples.user) SELECT = true /\
  select_all Samples.user
    (sw_event_artifacts Samples.all_granted [Samples.first_written] [Samples.artifact1])
  = inr [].
Proof.
  assert (Hg : Samples.all_granted (role Samples.user) SELECT = true) by reflexivity.
  split; [exact Hg|].
  apply (proj2 (@artifacts_read_all_or_nothing Samples.all_granted [Samples.first_written]
                  [Samples.artifact1] Samples.user Hg)).
  - intros [_ H]. discriminate H.
  - discriminate.
Defined.

Lemma wider_window_returns_more_witness :
  (5 <= 15)%Z /\
  forall rn rm r,
    sw_event_log_errors_since Samples.clock Samples.recent (Minutes 5) rn ->
    sw_event_log_errors_since Samples.clock Samples.recent (Minutes 15) rm ->
    In r rn -> In r rm.
Proof.
  assert (H : (5 <= 15)%Z) by lia.
  split; [exact H|].
  apply (proj1 (@wider_window_returns_more Samples.clock Samples.recent 5 15 H)).
Defined.

Lemma last_assignment_wins_witness :
  loadConfig (Some (MoreSamples.config_head ++ 10%N
                    :: MoreSamples.config_key ++ 61%N :: MoreSamples.config_value))
  = Some [(lit "TOKEN", lit "a=b")].
Proof.
  assert (Hkey : ~ In 61%N MoreSamples.config_key /\ ~ In 10%N MoreSamples.config_key)
    by (split; intros H; vm_compute in H; intuition discriminate).
  assert (Hvalue : ~ In 10%N MoreSamples.config_value)
    by (intros H; vm_compute in H; intuition discriminate).
  assert (Hcomment : startsWith 35%N (trimStart MoreSamples.config_key) = false)
    by reflexivity.
  assert (Hproto : trim MoreSamples.config_key <> lit "__proto__") by discriminate.
  destruct (@last_assignment_wins MoreSamples.config_head MoreSamples.config_key
              MoreSamples.config_value Hkey Hvalue Hcomment Hproto) as (before & Hb & Hl & _).
  rewrite Hl. injection Hb as <-. reflexivity.
Defined.

Lemma comment_and_blank_lines_are_skipped_witness :
  loadConfig (Some (lit "A=1" ++ 10%N :: MoreSamples.config_head ++ 10%N :: lit "B=2"))
  = loadConfig (Some (lit "A=1" ++ 10%N :: lit "B=2")).
Proof.
  apply (proj1 (@comment_and_blank_lines_are_skipped (lit "A=1") (lit "B=2")
                  MoreSamples.config_head
                  ltac:(intros H; vm_compute in H; intuition discriminate)
                  (or_intror (or_introl eq_refl)))).
Defined.

Lemma buildUrl_strips_one_slash_witness :
  own_property (lit "N8N_BASE_URL") MoreSamples.config_with_base
  = Some (lit "https://n8n.example/") /\
  buildUrl MoreSamples.config_with_base (Some (lit "/webhook/scan"))
  = Some (lit "https://n8n.example" ++ lit "/webhook/scan").
Proof.
  assert (H : own_property (lit "N8N_BASE_URL") MoreSamples.config_with_base
              = Some (lit "https://n8n.example/")) by reflexivity.
  split; [exact H|].
  apply (proj1 (@buildUrl_strips_one_slash MoreSamples.config_with_base
                  (lit "https://n8n.example/") (lit "/webhook/scan") H)).
  reflexivity.
Defined.



Lemma scan_never_left_running_witness :
  In (ScanRoute.UpdateScan (JStr (lit "scan-1"))
        [(lit "status", JStr (lit "running")); (lit "started_at", JStr (lit "t0"))])
     (snd (ScanRoute.POST MoreSamples.scan_env MoreSamples.scan_rq)) /\
  exists id final,
    last (snd (ScanRoute.POST MoreSamples.scan_env MoreSamples.scan_rq))
         (ScanRoute.UpdateScan (JStr (lit "scan-1"))
            [(lit "status", JStr (lit "running")); (lit "started_at", JStr (lit "t0"))])
    = ScanRoute.UpdateScan id final /\
    (assoc (lit "status") final = Some (JStr (lit "completed")) \/
     assoc (lit "status") final = Some (JStr (lit "failed"))).
Proof.
  assert (Hin : In (ScanRoute.UpdateScan (JStr (lit "scan-1"))
                      [(lit "status", JStr (lit "running"));
                       (lit "started_at", JStr (lit "t0"))])
                   (snd (ScanRoute.POST MoreSamples.scan_env MoreSamples.scan_rq)))
    by (left; reflexivity).
  split; [exact Hin|].
  destruct (@scan_never_left_running MoreSamples.scan_env MoreSamples.scan_rq)
    as (_ & H & _).
  apply (H _ Hin). reflexivity.
Defined.

Lemma scan_answer_names_the_agent_called_witness :
  ScanRoute.POST MoreSamples.scan_env MoreSamples.scan_rq
  = (ScanRoute.Responded MoreSamples.scan_reply, MoreSamples.scan_effects) /\
  exists label variable url,
    In (label, variable)
       [ (lit "agent-1", ScanRoute.N8N_WEBHOOK_AGENT_1 MoreSamples.scan_env);
         (lit "agent-2", ScanRoute.N8N_WEBHOOK_AGENT_2 MoreSamples.scan_env);
         (lit "agent-3", ScanRoute.N8N_WEBHOOK_AGENT_3 MoreSamples.scan_env) ] /\
    variable = Some url /\ url <> [] /\
    (exists sent, In (ScanRoute.CallWebhook (ScanRoute.Own url)
                        (ScanRoute.N8N_WEBHOOK_API_KEY MoreSamples.scan_env) sent)
                     MoreSamples.scan_effects) /\
    exists fields, ScanRoute.payload MoreSamples.scan_reply = Some (JObj fields) /\
                   assoc (lit "agent") fields = Some (JStr label).
Proof.
  assert (Hrun : ScanRoute.POST MoreSamples.scan_env MoreSamples.scan_rq
                 = (ScanRoute.Responded MoreSamples.scan_reply, MoreSamples.scan_effects))
    by reflexivity.
  split; [exact Hrun|].
  apply (@scan_answer_names_the_agent_called MoreSamples.scan_env MoreSamples.scan_rq
           MoreSamples.scan_body (lit "network") MoreSamples.scan_reply
           MoreSamples.scan_effects eq_refl eq_refl eq_refl Hrun eq_refl).
  discriminate.
Defined.

(* ====================================================================== *)
(** ** tests/e2e/run-tests.js: what the agent tests accept *)
(* ====================================================================== *)

Lemma is_in_assoc (k : string) (fields : list (jsstring * JSON)) :
  AgentTests.is_in k (JObj fields) = true <-> assoc (lit k) fields <> None.
Proof.
  unfold AgentTests.is_in. destruct (assoc (lit k) fields); split; intros H;
    try reflexivity; try discriminate; try (exfalso; apply H; reflexivity).
Qed.

Lemma is_number_spec (v : JSON) :
  AgentTests.is_number v = true <-> (exists q, v = JNum q) \/ (exists n, v = JInf n).
Proof.
  destruct v; simpl; split; intros H; try discriminate; try reflexivity;
    try (destruct H as [[x H]|[x H]]; discriminate H).
  - left. eexists. reflexivity.
  - right. eexists. reflexivity.
Qed.

Lemma one_of_three (a b c : string) (fields : list (jsstring * JSON)) :
  AgentTests.is_in a (JObj fields) || AgentTests.is_in b (JObj fields)
  || AgentTests.is_in c (JObj fields) = true
  <-> exists k, In k [a; b; c] /\ assoc (lit k) fields <> None.
Proof.
  rewrite !orb_true_iff, !is_in_assoc. split.
  - intros [[H|H]|H]; eexists; (split; [|exact H]); simpl; auto.
  - intros (k & [<-|[<-|[<-|[]]]] & H); auto.
Qed.

Lemma reply_ok_body (s : Z) (b : AgentTests.reply_body) (one_of : list string)
      (numeric : option string) :
  reply_ok (AgentTests.Reply s b) one_of numeric ->
  exists fields, b = AgentTests.Parsed (JObj fields).
Proof. intros (_ & fields & H & _). exists fields. exact H. Qed.

Lemma checks1_pass (t : AgentTests.texts) (res : AgentTests.reply) :
  forallb AgentTests.pass (AgentTests.checks1 t res) = true
  <-> reply_ok res ["scan_result_id"; "scanResultId"; "result_id"] (Some "risk_score").
Proof.
  destruct res as [s b]. unfold AgentTests.checks1, reply_ok.
  cbn [AgentTests.status AgentTests.body forallb AgentTests.pass].
  rewrite andb_true_iff, Z.eqb_eq.
  destruct b as [[| | | | |items|fields]|d]; cbn [AgentTests.object_like];
    try (split; [intros [_ H]; discriminate H
                | intros (_ & fields & H & _); discriminate H]).
  rewrite forallb_app. cbn [forallb AgentTests.pass].
  rewrite !andb_true_iff, one_of_three, is_in_assoc.
  cbn [AgentTests.get].
  split.
  - intros (Hs & (Hst & Hk & _) & Hnum). split; [exact Hs|].
    exists fields. repeat split; auto.
    intros k v [= <-] Hv. rewrite Hv in Hnum. cbn in Hnum.
    rewrite andb_true_r in Hnum. apply is_number_spec. exact Hnum.
  - intros (Hs & fields' & [= <-] & Hst & Hk & Hnum).
    repeat split; auto.
    destruct (assoc (lit "risk_score") fields) as [v|] eqn:Hv; [|reflexivity].
    cbn. rewrite andb_true_r. apply is_number_spec. apply (Hnum "risk_score"); auto.
Qed.

Lemma checks2_pass (t : AgentTests.texts) (res : AgentTests.reply) :
  forallb AgentTests.pass (AgentTests.checks2 t res) = true
  <-> reply_ok res ["vulnerabilities_found"; "total"; "assets_scanned"]
               (Some "vulnerabilities_found").
Proof.
  destruct res as [s b]. unfold AgentTests.checks2, reply_ok.
  cbn [AgentTests.status AgentTests.body forallb AgentTests.pass].
  rewrite andb_true_iff, Z.eqb_eq.
  destruct b as [[| | | | |items|fields]|d]; cbn [AgentTests.object_like];
    try (split; [intros [_ H]; discriminate H
                | intros (_ & fields & H & _); discriminate H]).
  rewrite forallb_app. cbn [forallb AgentTests.pass].
  rewrite !andb_true_iff, one_of_three, is_in_assoc.
  cbn [AgentTests.get].
  split.
  - intros (Hs & (Hst & Hk & _) & Hnum). split; [exact Hs|].
    exists fields. repeat split; auto.
    intros k v [= <-] Hv. rewrite Hv in Hnum. cbn in Hnum.
    rewrite andb_true_r in Hnum. apply is_number_spec. exact Hnum.
  - intros (Hs & fields' & [= <-] & Hst & Hk & Hnum).
    repeat split; auto.
    destruct (assoc (lit "vulnerabilities_found") fields) as [v|] eqn:Hv; [|reflexivity].
    cbn. rewrite andb_true_r. apply is_number_spec.
    apply (Hnum "vulnerabilities_found"); auto.
Qed.

Lemma checks3_pass (t : AgentTests.texts) (res : AgentTests.reply) :
  forallb AgentTests.pass (AgentTests.checks3 t res) = true
  <-> reply_ok res ["compliance_score"; "gaps_found"; "policies_analyzed"] None.
Proof.
  destruct res as [s b]. unfold AgentTests.checks3, reply_ok.
  cbn [AgentTests.status AgentTests.body forallb AgentTests.pass].
  rewrite andb_true_iff, Z.eqb_eq.
  destruct b as [[| | | | |items|fields]|d]; cbn [AgentTests.object_like];
    try (split; [intros [_ H]; discriminate H
                | intros (_ & fields & H & _); discriminate H]).
  cbn [forallb AgentTests.pass].
  rewrite !andb_true_iff, one_of_three, is_in_assoc.
  split.
  - intros (Hs & Hst & Hk & _). split; [exact Hs|].
    exists fields. repeat split; auto. intros k v H. discriminate H.
  - intros (Hs & fields' & [= <-] & Hst & Hk & _). repeat split; auto.
Qed.

(** X23.  What the end-to-end checks accept.  All checks of an agent's test
    pass exactly when the reply has status 200 and a body that parsed to a
    JSON object (not an array, not null, not text) with the key [status]
    and at least one of the agent's three result keys; for agents 1 and 2
    the value under [risk_score], respectively [vulnerabilities_found],
    must be a number, finite or not, when the key is there (a null there
    fails), while agent 3 has no such check.  The texts of the details play
    no part. *)
Theorem agent_checks_accept
  (t : AgentTests.texts) (res : AgentTests.reply) :
  (forallb AgentTests.pass (AgentTests.checks1 t res) = true
   <-> reply_ok res ["scan_result_id"; "scanResultId"; "result_id"] (Some "risk_score")) /\
  (forallb AgentTests.pass (AgentTests.checks2 t res) = true
   <-> reply_ok res ["vulnerabilities_found"; "total"; "assets_scanned"]
                (Some "vulnerabilities_found")) /\
  (forallb AgentTests.pass (AgentTests.checks3 t res) = true
   <-> reply_ok res ["compliance_score"; "gaps_found"; "policies_analyzed"] None) /\
  (forall items,
     AgentTests.body res = AgentTests.Parsed (JArr items) ->
     forallb AgentTests.pass (AgentTests.checks3 t res) = false /\
     List.length (AgentTests.checks3 t res) = 3) /\
  (AgentTests.object_like (AgentTests.body res) = None ->
   List.length (AgentTests.checks1 t res) = 2).
Proof.
  split; [apply checks1_pass|]. split; [apply checks2_pass|].
  split; [apply checks3_pass|]. split.
  - intros items Hb. destruct res as [s b]. cbn in Hb. subst b.
    split; [|reflexivity]. cbn. apply andb_false_r.
  - intros Hb. unfold AgentTests.checks1. rewrite Hb. reflexivity.
Qed.

Lemma tests_cases (num : option Z) :
  (num = Some 1%Z /\ AgentTests.tests num = Some AgentTests.run1) \/
  (num = Some 2%Z /\ AgentTests.tests num = Some AgentTests.run2) \/
  (num = Some 3%Z /\ AgentTests.tests num = Some AgentTests.run3) \/
  (~ In num [Some 1%Z; Some 2%Z; Some 3%Z] /\ AgentTests.tests num = None).
Proof.
  destruct num as [[|[[q|q|]|[q|q|]|]|p]|]; cbn [AgentTests.tests];
    try (left; split; reflexivity);
    try (right; left; split; reflexivity);
    try (right; right; left; split; reflexivity);
    right; right; right; (split; [|reflexivity]);
    intros H; simpl in H; intuition discriminate.
Qed.

Lemma runTest_passed (t : AgentTests.texts) (w : AgentTests.world) (num : option Z)
      (cfg : RunTests.object) :
  AgentTests.passed (AgentTests.runTest t w num cfg) = true <-> agent_in_order w cfg num.
Proof.
  unfold AgentTests.runTest, agent_in_order, agent_table. split.
  - destruct (tests_cases num) as [[-> ->]|[[-> ->]|[[-> ->]|[_ ->]]]];
      cbn [AgentTests.passed]; try discriminate.
    + unfold AgentTests.run1.
      destruct (AgentTests.request_of w cfg "AGENT1_WEBHOOK_PATH"
                  "agent-1-security-scanner")
        as [m|res] eqn:Hq; cbn [AgentTests.passed]; [discriminate|].
      intros H. apply checks1_pass in H.
      do 4 eexists. exists res. split; [left; reflexivity|]. auto.
    + unfold AgentTests.run2.
      destruct (AgentTests.request_of w cfg "AGENT2_WEBHOOK_PATH"
                  "agent-2-vulnerability-assessment")
        as [m|res] eqn:Hq; cbn [AgentTests.passed]; [discriminate|].
      intros H. apply checks2_pass in H.
      do 4 eexists. exists res. split; [right; left; reflexivity|]. auto.
    + unfold AgentTests.run3.
      destruct (AgentTests.request_of w cfg "AGENT3_WEBHOOK_PATH" "agent-3-compliance")
        as [m|res] eqn:Hq; cbn [AgentTests.passed]; [discriminate|].
      intros H. apply checks3_pass in H.
      do 4 eexists. exists res. split; [right; right; left; reflexivity|]. auto.
  - intros (path_key & dir & one_of & numeric & res & Hin & Hq & Hok).
    destruct Hin as [Hin|[Hin|[Hin|[]]]]; injection Hin as <- <- <- <- <-;
      cbn [AgentTests.tests];
      unfold AgentTests.run1, AgentTests.run2, AgentTests.run3; rewrite Hq;
      cbn [AgentTests.passed].
    + apply checks1_pass. exact Hok.
    + apply checks2_pass. exact Hok.
    + apply checks3_pass. exact Hok.
Qed.

Lemma run_all_passed (t : AgentTests.texts) (w : nat -> AgentTests.world)
      (cfg : RunTests.object) (nums : list (option Z)) (i : nat) :
  forallb AgentTests.passed (AgentTests.run_all t w i nums cfg) = true
  <-> forall j num, nth_error nums j = Some num -> agent_in_order (w (i + j)) cfg num.
Proof.
  revert i. induction nums as [|n rest IH]; intros i; cbn [AgentTests.run_all forallb].
  - split; [|reflexivity]. intros _ [|j] num H; discriminate H.
  - rewrite andb_true_iff, runTest_passed, IH. split.
    + intros [H0 Hr] [|j] num Hj.
      * injection Hj as <-. rewrite Nat.add_0_r. exact H0.
      * replace (i + S j) with (S i + j) by lia. apply Hr. exact Hj.
    + intros H. split.
      * specialize (H 0 n eq_refl). rewrite Nat.add_0_r in H. exact H.
      * intros j num Hj. replace (S i + j) with (i + S j) by lia. apply H. exact Hj.
Qed.

(** X24.  The runner exits with status 0 exactly when the configuration
    file exists and every agent asked for is one of 1, 2 and 3, got a reply
    to its request (nothing was thrown on the way: the base URL is
    configured, the payload file loads, the request neither fails nor times
    out) and that reply is one the agent's checks accept.  Otherwise it
    exits with status 1. *)
Theorem runner_exit_status
  (t : AgentTests.texts) (w : nat -> AgentTests.world)
  (parseInt : jsstring -> option Z) (file : option jsstring) (args : list jsstring) :
  (AgentTests.main t w parseInt file args = 0%Z
   <-> exists cfg,
         loadConfig file = Some cfg /\
         forall j num, nth_error (AgentTests.agentsToRun parseInt args) j = Some num ->
                       agent_in_order (w j) cfg num) /\
  (AgentTests.main t w parseInt file args = 0%Z \/
   AgentTests.main t w parseInt file args = 1%Z).
Proof.
  unfold AgentTests.main. destruct (loadConfig file) as [cfg|].
  - pose proof (run_all_passed t w cfg (AgentTests.agentsToRun parseInt args) 0) as H.
    cbn [Nat.add] in H.
    destruct (forallb AgentTests.passed _).
    + split; [|left; reflexivity]. split; [|reflexivity].
      intros _. exists cfg. split; [reflexivity|]. apply H. reflexivity.
    + split; [|right; reflexivity]. split; [discriminate|].
      intros (cfg' & [= <-] & Hall). apply H in Hall. discriminate Hall.
  - split; [|right; reflexivity]. split; [discriminate|].
    intros (cfg & Hc & _). discriminate Hc.
Qed.

(** X25.  An agent number the runner does not know fails without a check
    and without a request: when "--agent" is followed by a non-empty
    argument that [parseInt] does not read as 1, 2 or 3 (NaN included), the
    only result has no checks and has not passed, whatever the world, and
    the runner exits with status 1.  With no "--agent" flag, or nothing or
    the empty string after it, the three agents are run in order. *)
Theorem unknown_agent_fails
  (t : AgentTests.texts) (w : nat -> AgentTests.world)
  (parseInt : jsstring -> option Z) (file : option jsstring) (args : list jsstring)
  (a : jsstring)
  (Hflag : AgentTests.after_agent_flag args = Some a)
  (Ha : a <> [])
  (Hnum : ~ In (parseInt a) [Some 1%Z; Some 2%Z; Some 3%Z]) :
  AgentTests.main t w parseInt file args = 1%Z /\
  (forall cfg,
     AgentTests.run_all t w 0 (AgentTests.agentsToRun parseInt args) cfg
     = [ AgentTests.Result (AgentTests.agent_text t (parseInt a)) false [] ]) /\
  (forall others,
     AgentTests.after_agent_flag others = None \/
     AgentTests.after_agent_flag others = Some [] ->
     AgentTests.agentsToRun parseInt others = [Some 1%Z; Some 2%Z; Some 3%Z]).
Proof.
  assert (Hruns : AgentTests.agentsToRun parseInt args = [parseInt a]).
  { unfold AgentTests.agentsToRun. rewrite Hflag. destruct a; [contradiction|reflexivity]. }
  assert (Htest : AgentTests.tests (parseInt a) = None).
  { destruct (tests_cases (parseInt a)) as [[H _]|[[H _]|[[H _]|[_ H]]]];
      try exact H; exfalso; apply Hnum; rewrite H; simpl; auto. }
  assert (Hall : forall cfg,
             AgentTests.run_all t w 0 (AgentTests.agentsToRun parseInt args) cfg
             = [ AgentTests.Result (AgentTests.agent_text t (parseInt a)) false [] ]).
  { intros cfg. rewrite Hruns. cbn [AgentTests.run_all]. unfold AgentTests.runTest.
    rewrite Htest. reflexivity. }
  split; [|split; [exact Hall|]].
  - unfold AgentTests.main. destruct (loadConfig file) as [cfg|]; [|reflexivity].
    rewrite Hall. reflexivity.
  - intros others [H|H]; unfold AgentTests.agentsToRun; rewrite H; reflexivity.
Qed.

(** X26.  Without N8N_BASE_URL in the configuration no request is attempted:
    [buildUrl] throws before the payload is loaded, so whatever the payload
    files and the network would have given, the run of each of the three
    agents ends with the single failed check "Request succeeded" carrying
    the TypeError's message, and the runner exits with status 1. *)
Theorem missing_base_url_fails_every_agent
  (t : AgentTests.texts) (w : nat -> AgentTests.world)
  (parseInt : jsstring -> option Z) (text : jsstring) (args : list jsstring)
  (cfg : RunTests.object)
  (Hfile : loadConfig (Some text) = Some cfg)
  (Hbase : own_property (lit "N8N_BASE_URL") cfg = None) :
  (forall i num, In num [Some 1%Z; Some 2%Z; Some 3%Z] ->
     AgentTests.runTest t (w i) num cfg
     = AgentTests.Result (AgentTests.agent_text t num) false
         [ AgentTests.Check "Request succeeded" false (AgentTests.type_error (w i)) ]) /\
  AgentTests.main t w parseInt (Some text) args = 1%Z.
Proof.
  assert (Hreq : forall i path_key dir,
             AgentTests.request_of (w i) cfg path_key dir
             = inl (AgentTests.type_error (w i))).
  { intros i path_key dir. unfold AgentTests.request_of, buildUrl. rewrite Hbase.
    reflexivity. }
  assert (Hone : forall i num, AgentTests.passed (AgentTests.runTest t (w i) num cfg) = false).
  { intros i num. unfold AgentTests.runTest.
    destruct (tests_cases num) as [[_ ->]|[[_ ->]|[[_ ->]|[_ ->]]]]; try reflexivity;
      unfold AgentTests.run1, AgentTests.run2, AgentTests.run3; rewrite Hreq; reflexivity. }
  split.
  - intros i num [<-|[<-|[<-|[]]]]; unfold AgentTests.runTest; cbn [AgentTests.tests];
      unfold AgentTests.run1, AgentTests.run2, AgentTests.run3; rewrite Hreq; reflexivity.
  - unfold AgentTests.main. rewrite Hfile.
    assert (Hne : AgentTests.agentsToRun parseInt args <> []).
    { unfold AgentTests.agentsToRun.
      destruct (AgentTests.after_agent_flag args) as [[|c r]|]; discriminate. }
    destruct (AgentTests.agentsToRun parseInt args) as [|n rest]; [contradiction|].
    cbn [AgentTests.run_all forallb]. rewrite Hone. reflexivity.
Qed.

Lemma unknown_agent_fails_witness :
  AgentTests.after_agent_flag [lit "--verbose"; lit "--agent"; lit "7"] = Some (lit "7") /\
  AgentTests.main RunnerSamples.plain_texts (fun _ => RunnerSamples.good_world)
    RunnerSamples.seven (Some (lit "N8N_BASE_URL=http://h"))
    [lit "--verbose"; lit "--agent"; lit "7"] = 1%Z.
Proof.
  assert (Hflag : AgentTests.after_agent_flag [lit "--verbose"; lit "--agent"; lit "7"]
                  = Some (lit "7")) by reflexivity.
  split; [exact Hflag|].
  apply (proj1 (@unknown_agent_fails RunnerSamples.plain_texts
                  (fun _ => RunnerSamples.good_world) RunnerSamples.seven
                  (Some (lit "N8N_BASE_URL=http://h"))
                  [lit "--verbose"; lit "--agent"; lit "7"] (lit "7") Hflag
                  ltac:(discriminate)
                  ltac:(intros H; vm_compute in H; intuition discriminate))).
Defined.

Lemma missing_base_url_fails_every_agent_witness :
  own_property (lit "N8N_BASE_URL") [(lit "WEBHOOK_API_KEY", lit "k")] = None /\
  AgentTests.main RunnerSamples.plain_texts (fun _ => RunnerSamples.good_world)
    RunnerSamples.seven (Some RunnerSamples.file_without_base) [] = 1%Z.
Proof.
  assert (Hbase : own_property (lit "N8N_BASE_URL") [(lit "WEBHOOK_API_KEY", lit "k")]
                  = None) by reflexivity.
  split; [exact Hbase|].
  apply (proj2 (@missing_base_url_fails_every_agent RunnerSamples.plain_texts
                  (fun _ => RunnerSamples.good_world) RunnerSamples.seven
                  RunnerSamples.file_without_base []
                  [(lit "WEBHOOK_API_KEY", lit "k")] eq_refl Hbase)).
Defined.

(* ====================================================================== *)
(** ** The scan route: what the webhook is sent *)
(* ====================================================================== *)

Lemma truthy_wire (v : value) :
  truthy v = true -> Some (wire (nullish_or_null v)) = option_map wire v.
Proof. destruct v as [[]|]; simpl; intros H; try discriminate; reflexivity. Qed.

Lemma is_compliance_spec (v : value) :
  ScanRoute.is_compliance (nullish_or_null v) = true
  <-> v = Some (JStr (lit "compliance")).
Proof.
  destruct v as [[| | | |s| |]|]; simpl; split; intros H; try discriminate.
  - apply str_eqb_eq in H. subst s. reflexivity.
  - injection H as ->. reflexivity.
Qed.

Lemma call_of_scan_started (e : ScanRoute.env) (body : JSON) (k : jsstring)
      (last_effect : ScanRoute.effect) (url : ScanRoute.lookup) (key : option jsstring)
      (sent : JSON) :
  (forall u a b, last_effect <> ScanRoute.CallWebhook u a b) ->
  In (ScanRoute.CallWebhook url key sent) (scan_started e body k ++ [last_effect]) ->
  url = ScanRoute.lookup_in (ScanRoute.N8N_WEBHOOKS e) k /\
  key = ScanRoute.N8N_WEBHOOK_API_KEY e /\
  sent = ScanRoute.n8nPayload e k (nullish_or_null (ScanRoute.prop body "scanId"))
           (nullish_or_null (ScanRoute.prop body "scanType"))
           (nullish_or_null (ScanRoute.prop body "target")) body.
Proof.
  intros Hlast Hin. apply in_app_or in Hin. destruct Hin as [Hin|[Hin|[]]].
  - destruct Hin as [Hin|[Hin|[]]]; [discriminate Hin|].
    injection Hin as <- <- <-. repeat split.
  - now elim (Hlast url key sent).
Qed.

(** X27.  What the webhook is sent.  Every call the route makes goes to the
    webhook read under the scan type's key, carries the configured API key
    and a JSON object with the submitted scanId, the time [timestamp] and
    [client_id]: the submitted clientId, which is replaced by CL001 only
    when the key is absent (a null is forwarded as null).  A compliance
    scan sends [framework], HIPAA when absent or null, and an empty
    [policy_files], but not the target that the route insists on; every
    other scan sends the target, the priority normal and, as [scan_type],
    what [N8N_SCAN_TYPE] holds under the key (for the key [__proto__] the
    empty object), and neither of the compliance fields.  Values are sent
    as [JSON.stringify] writes them: as they are, unless they hold an
    infinite number, which is written null. *)
Theorem webhook_receives
  (e : ScanRoute.env) (rq : ScanRoute.request)
  (url : ScanRoute.lookup) (key : option jsstring) (sent : JSON)
  (Hsent : In (ScanRoute.CallWebhook url key sent) (snd (ScanRoute.POST e rq))) :
  exists body fields k,
    ScanRoute.json rq = Some body /\ sent = JObj fields /\
    key = ScanRoute.N8N_WEBHOOK_API_KEY e /\
    scan_key e body = Some k /\
    url = ScanRoute.lookup_in (ScanRoute.N8N_WEBHOOKS e) k /\
    assoc (lit "scanId") fields = option_map wire (ScanRoute.prop body "scanId") /\
    assoc (lit "client_id") fields
    = Some (match ScanRoute.prop body "clientId" with
            | Some v => wire v
            | None => JStr (lit "CL001")
            end) /\
    assoc (lit "timestamp") fields = Some (JStr (ScanRoute.payload_timestamp e)) /\
    (ScanRoute.prop body "scanType" = Some (JStr (lit "compliance")) ->
     assoc (lit "target") fields = None /\
     assoc (lit "priority") fields = None /\
     assoc (lit "scan_type") fields = None /\
     assoc (lit "policy_files") fields = Some (JArr []) /\
     assoc (lit "framework") fields
     = Some (match ScanRoute.prop body "framework" with
             | None | Some JNull => JStr (lit "HIPAA")
             | Some f => wire f
             end)) /\
    (ScanRoute.prop body "scanType" <> Some (JStr (lit "compliance")) ->
     assoc (lit "target") fields = option_map wire (ScanRoute.prop body "target") /\
     assoc (lit "priority") fields = Some (JStr (lit "normal")) /\
     assoc (lit "scan_type") fields
     = ScanRoute.serialised (ScanRoute.lookup_in ScanRoute.N8N_SCAN_TYPE k) /\
     assoc (lit "policy_files") fields = None /\
     assoc (lit "framework") fields = None) /\
    (forall v, finite v = true -> wire v = v).
Proof.
  assert (Hcall : exists body k last_effect,
             ScanRoute.json rq = Some body /\ scan_named body /\
             scan_key e body = Some k /\
             (forall u a b, last_effect <> ScanRoute.CallWebhook u a b) /\
             snd (ScanRoute.POST e rq) = scan_started e body k ++ [last_effect]).
  { destruct (scan_route_effects e rq)
      as [H|[(body & r & _ & _ & _ & Hrun & _)
            |(body & k & r & Hj & Hn & [Hk _] & [(m & Hrun & _)|(data & Hrun & _)])]].
    - rewrite H in Hsent. elim Hsent.
    - rewrite Hrun in Hsent. destruct Hsent as [Hsent|[]]. discriminate Hsent.
    - exists body, k. eexists. split; [exact Hj|]. split; [exact Hn|]. split; [exact Hk|].
      rewrite Hrun. split; [|reflexivity]. discriminate.
    - exists body, k. eexists. split; [exact Hj|]. split; [exact Hn|]. split; [exact Hk|].
      rewrite Hrun. split; [|reflexivity]. discriminate. }
  destruct Hcall as (body & k & last_effect & Hj & Hn & Hk & Hlast & Heff).
  rewrite Heff in Hsent.
  destruct (@call_of_scan_started e body k last_effect url key sent Hlast Hsent)
    as (-> & -> & ->).
  destruct Hn as (_ & Hid & _ & Htarget).
  apply truthy_wire in Hid. apply truthy_wire in Htarget.
  exists body. unfold ScanRoute.n8nPayload.
  destruct (ScanRoute.is_compliance (nullish_or_null (ScanRoute.prop body "scanType")))
    eqn:Hc.
  - apply is_compliance_spec in Hc.
    eexists. exists k. split; [exact Hj|]. split; [reflexivity|]. split; [reflexivity|].
    split; [exact Hk|]. split; [reflexivity|].
    split; [cbn; exact Hid|].
    split; [cbn; destruct (ScanRoute.prop body "clientId"); reflexivity|].
    split; [reflexivity|].
    split; [|split; [intros Hn; contradiction|exact wire_finite]].
    intros _. repeat split; try reflexivity.
    cbn. destruct (ScanRoute.prop body "framework") as [[]|]; reflexivity.
  - assert (Hn : ScanRoute.prop body "scanType" <> Some (JStr (lit "compliance"))).
    { intros Heq. apply is_compliance_spec in Heq. congruence. }
    eexists. exists k. split; [exact Hj|]. split; [reflexivity|]. split; [reflexivity|].
    split; [exact Hk|]. split; [reflexivity|].
    destruct (ScanRoute.lookup_in ScanRoute.N8N_SCAN_TYPE k) as [t| | |];
      cbn [ScanRoute.serialised];
      (split; [cbn; exact Hid|]);
      (split; [cbn; destruct (ScanRoute.prop body "clientId"); reflexivity|]);
      (split; [reflexivity|]);
      (split; [intros Heq; contradiction|]);
      (split; [|exact wire_finite]);
      intros _; (split; [cbn; exact Htarget|]); repeat split; try reflexivity.
Qed.

Lemma webhook_receives_witness :
  In (ScanRoute.CallWebhook (ScanRoute.Own (lit "https://n8n.example/agent3")) None
        ComplianceSample.sent)
     (snd (ScanRoute.POST ComplianceSample.e ComplianceSample.rq)) /\
  exists body fields,
    ScanRoute.json ComplianceSample.rq = Some body /\
    ComplianceSample.sent = JObj fields /\
    assoc (lit "client_id") fields
    = Some (match ScanRoute.prop body "clientId" with
            | Some v => wire v
            | None => JStr (lit "CL001")
            end).
Proof.
  assert (H : In (ScanRoute.CallWebhook (ScanRoute.Own (lit "https://n8n.example/agent3"))
                    None ComplianceSample.sent)
                 (snd (ScanRoute.POST ComplianceSample.e ComplianceSample.rq)))
    by (right; left; reflexivity).
  split; [exact H|].
  destruct (@webhook_receives ComplianceSample.e ComplianceSample.rq _ _ _ H)
    as (body & fields & k & Hj & Hs & _ & _ & _ & _ & Hc & _).
  exists body, fields. split; [exact Hj|]. split; [exact Hs|exact Hc].
Defined.
